(** * ReSpecT artifact index and cross-reference engine: a shallow embedding

    The development follows the Python sources of the repository:

    - [respect_manager/artifact_index_manager.py]  (modules [Index],
      [IndexQueries])
    - [respect_manager/artifact_type_manager.py]   (modules [Types],
      [IdChecks])
    - [respect_manager/artifact_header_manager.py] (module [Headers])
    - [respect_manager/artifact_manager.py]        (modules [Manager],
      [Extracts])
    - [respect_manager/artifact_type_handler.py]   (module [Handlers])

    Text is a list of 8-bit characters.  The model covers ASCII text:
    characters above 127 are opaque symbols (neither whitespace, digit,
    letter nor word character, and unchanged by [upper]/[lower]).
    Python exceptions are explicit error results; files are explicit state.
    The text of a file is the text as a read in text mode returns it; a
    theorem that reads back a text passed by the caller asks that the text
    holds no CR, which such a read returns as LF (module [TextMode]).

    Part I holds the definitions, Part II the lemmas and theorems. *)

From Stdlib Require Import String Ascii Bool Arith NArith Lia List.
From Stdlib Require Decimal DecimalN DecimalPos FinFun.
Import ListNotations.
Open Scope string_scope.
Open Scope list_scope.

(** Python [str]: string literals of the source are read as character lists. *)
Definition str := list ascii.
Coercion list_ascii_of_string : string >-> list.

(* ================================================================== *)
(** * Part I: definitions                                              *)
(* ================================================================== *)

(** ** Python string primitives used by the sources *)
Module PyStr.

Definition chr (n : nat) : ascii := ascii_of_nat n.
Definition ord (c : ascii) : N := N_of_ascii c.

Definition LF : ascii := chr 10.
Definition CR : ascii := chr 13.
Definition DQUOTE : ascii := chr 34.
Definition COMMA : ascii := ","%char.

Definition in_range (lo hi : N) (c : ascii) : bool :=
  ((lo <=? ord c) && (ord c <=? hi))%N.

(** [str.isspace] on one ASCII character: TAB..CR, FS..US and the blank. *)
Definition is_space (c : ascii) : bool :=
  in_range 9 13 c || in_range 28 32 c.

Definition is_digit (c : ascii) : bool := in_range 48 57 c.
Definition is_upper (c : ascii) : bool := in_range 65 90 c.
Definition is_lower (c : ascii) : bool := in_range 97 122 c.
Definition is_alnum (c : ascii) : bool := is_digit c || is_upper c || is_lower c.

(** The class [\w] of [re]. *)
Definition is_word (c : ascii) : bool := is_alnum c || (c =? "_")%char.

Definition to_upper (c : ascii) : ascii :=
  if is_lower c then ascii_of_N (ord c - 32) else c.
Definition to_lower (c : ascii) : ascii :=
  if is_upper c then ascii_of_N (ord c + 32) else c.

Definition upper (s : str) : str := map to_upper s.
Definition lower (s : str) : str := map to_lower s.

Fixpoint eqb (a b : str) : bool :=
  match a, b with
  | [], [] => true
  | x :: a', y :: b' => (x =? y)%char && eqb a' b'
  | _, _ => false
  end.

(** [a < b] and [a <= b] on strings: code-point lexicographic order. *)
Fixpoint ltb (a b : str) : bool :=
  match a, b with
  | _, [] => false
  | [], _ :: _ => true
  | x :: a', y :: b' =>
      if (ord x <? ord y)%N then true
      else if (ord x =? ord y)%N then ltb a' b' else false
  end.

Definition is_empty (s : str) : bool :=
  match s with [] => true | _ => false end.

Fixpoint drop_while (p : ascii -> bool) (s : str) : str :=
  match s with
  | [] => []
  | c :: s' => if p c then drop_while p s' else s
  end.

(** [s.lstrip(chars)], [s.rstrip(chars)], [s.strip(chars)] for a set [p]. *)
Definition lstrip_of (p : ascii -> bool) (s : str) : str := drop_while p s.
Definition rstrip_of (p : ascii -> bool) (s : str) : str :=
  rev (drop_while p (rev s)).
Definition strip_of (p : ascii -> bool) (s : str) : str :=
  rstrip_of p (lstrip_of p s).

Definition lstrip : str -> str := lstrip_of is_space.
Definition rstrip : str -> str := rstrip_of is_space.
Definition strip : str -> str := strip_of is_space.

Definition is_char (c : ascii) : ascii -> bool := fun x => (x =? c)%char.

(** [s.split(sep)] for a one-character separator: never the empty list. *)
Fixpoint split (sep : ascii) (s : str) : list str :=
  match s with
  | [] => [[]]
  | c :: s' =>
      if (c =? sep)%char then [] :: split sep s'
      else match split sep s' with
           | h :: t => (c :: h) :: t
           | [] => [[c]]
           end
  end.

(** [sep.join(parts)]. *)
Fixpoint join (sep : str) (parts : list str) : str :=
  match parts with
  | [] => []
  | x :: rest =>
      match rest with
      | [] => x
      | _ :: _ => x ++ sep ++ join sep rest
      end
  end.

Fixpoint startswith (p s : str) : bool :=
  match p, s with
  | [], _ => true
  | x :: p', y :: s' => (x =? y)%char && startswith p' s'
  | _ :: _, [] => false
  end.

Definition endswith (p s : str) : bool := startswith (rev p) (rev s).

(** [sub in s]. *)
Fixpoint contains (sub s : str) : bool :=
  startswith sub s ||
  match s with
  | [] => false
  | _ :: s' => contains sub s'
  end.

(** [x in l] for a list of strings. *)
Definition mem (x : str) (l : list str) : bool := existsb (eqb x) l.

(** [s.isdigit()]: non-empty and made of digits. *)
Definition isdigit (s : str) : bool :=
  negb (is_empty s) && forallb is_digit s.

(** [int(s)] on the strings the sources pass to it (a run of digits);
    [None] is [ValueError]. *)
Fixpoint int_acc (acc : N) (s : str) : option N :=
  match s with
  | [] => Some acc
  | c :: s' =>
      if is_digit c then int_acc (10 * acc + (ord c - 48))%N s' else None
  end.

Definition int_of_str (s : str) : option N :=
  match s with
  | [] => None
  | _ :: _ => int_acc 0%N s
  end.

Fixpoint str_of_uint (d : Decimal.uint) : str :=
  match d with
  | Decimal.Nil => []
  | Decimal.D0 d => "0"%char :: str_of_uint d
  | Decimal.D1 d => "1"%char :: str_of_uint d
  | Decimal.D2 d => "2"%char :: str_of_uint d
  | Decimal.D3 d => "3"%char :: str_of_uint d
  | Decimal.D4 d => "4"%char :: str_of_uint d
  | Decimal.D5 d => "5"%char :: str_of_uint d
  | Decimal.D6 d => "6"%char :: str_of_uint d
  | Decimal.D7 d => "7"%char :: str_of_uint d
  | Decimal.D8 d => "8"%char :: str_of_uint d
  | Decimal.D9 d => "9"%char :: str_of_uint d
  end.

(** [str(n)] for a non-negative integer. *)
Definition str_of_N (n : N) : str := str_of_uint (N.to_uint n).

(** Insertion sort: [sorted(xs)] on strings without duplicates. *)
Fixpoint insert_sorted (x : str) (l : list str) : list str :=
  match l with
  | [] => [x]
  | y :: l' => if ltb y x then y :: insert_sorted x l' else x :: l
  end.

Definition sorted (l : list str) : list str :=
  fold_right insert_sorted [] l.

(** Adding to a [set]: kept as a duplicate-free list. *)
Definition set_add (x : str) (l : list str) : list str :=
  if mem x l then l else l ++ [x].

(** A text without a line break. *)
Definition no_lf (s : str) : Prop := existsb (is_char LF) s = false.

End PyStr.

(** ** Files read in text mode, and the limits of [int]

    [Path.read_text] and [open(..., 'a+')] read with universal newlines:
    a CR, alone or followed by LF, comes back as one LF.  A text without
    CR is read back as it was written.  [int] raises [ValueError] on more
    than [sys.get_int_max_str_digits()] digits, 4300 unless configured. *)
Module TextMode.
Import PyStr.

Fixpoint universal_newlines (s : str) : str :=
  match s with
  | [] => []
  | c :: rest =>
      if is_char CR c then
        match rest with
        | d :: rest' =>
            if is_char LF d then LF :: universal_newlines rest'
            else LF :: universal_newlines rest
        | [] => [LF]
        end
      else c :: universal_newlines rest
  end.

(** Text without a carriage return. *)
Definition cr_free (s : str) : bool := negb (existsb (is_char CR) s).

(** Text of 7-bit characters only. *)
Definition ascii_text (s : str) : bool :=
  forallb (fun c => (ord c <? 128)%N) s.

(** ASCII text that a read in text mode leaves as it is. *)
Definition plain_ascii (s : str) : bool := ascii_text s && cr_free s.

Definition int_max_str_digits : nat := 4300.

End TextMode.

(** ** The fragment of Python [re] used by the sources

    A backtracking matcher with Python's priorities: greedy repetition,
    ordered alternation, numbered groups.  Repetition is only ever applied
    to a character class in the sources, so [Star] and [Plus] take a class.
    None of the patterns of the sources matches the empty string. *)
Module Re.
Import PyStr.

Inductive regex : Type :=
| Lit (s : str)                (* literal text, e.g. the output of re.escape *)
| Cls (p : ascii -> bool)      (* one character of a class *)
| Star (p : ascii -> bool)     (* p*  greedy *)
| Plus (p : ascii -> bool)     (* p+  greedy *)
| Cat (r1 r2 : regex)
| Alt (r1 r2 : regex)
| Grp (r : regex)              (* ( r ) *)
| Bol                          (* ^ without MULTILINE *)
| Eol                          (* $ without MULTILINE *)
| WordB.                       (* \b *)

(** Character classes of the patterns. *)
Definition dot (c : ascii) : bool := negb (c =? LF)%char.       (* .  *)
Definition digit : ascii -> bool := is_digit.                   (* \d *)
Definition space : ascii -> bool := is_space.                   (* \s *)
Definition upper_az : ascii -> bool := is_upper.                (* [A-Z] *)
Definition not_char (x : ascii) (c : ascii) : bool := negb (c =? x)%char.

Definition word_opt (o : option ascii) : bool :=
  match o with Some c => is_word c | None => false end.

Definition chr_eq (ic : bool) (a b : ascii) : bool :=
  if ic then (to_lower a =? to_lower b)%char else (a =? b)%char.

(** [lit_rest ic l prev s]: [s] starts with the literal [l] (up to case when
    [ic]); gives the last character read and the rest. *)
Fixpoint lit_rest (ic : bool) (l : str) (prev : option ascii) (s : str)
  : option (option ascii * str) :=
  match l with
  | [] => Some (prev, s)
  | x :: l' =>
      match s with
      | [] => None
      | y :: s' => if chr_eq ic x y then lit_rest ic l' (Some y) s' else None
      end
  end.

Section Matcher.
Context {A : Type}.

(** The continuation receives the character before the position, the text
    from the position on, and the groups closed so far. *)
Definition cont := option ascii -> str -> list str -> option A.

Fixpoint star (p : ascii -> bool) (prev : option ascii) (s : str)
  (k : option ascii -> str -> option A) : option A :=
  match s with
  | [] => k prev s
  | c :: s' =>
      if p c then
        match star p (Some c) s' k with
        | Some x => Some x
        | None => k prev s
        end
      else k prev s
  end.

Fixpoint run (ic : bool) (r : regex) (prev : option ascii) (s : str)
  (caps : list str) (k : cont) : option A :=
  match r with
  | Lit l =>
      match lit_rest ic l prev s with
      | Some (prev', s') => k prev' s' caps
      | None => None
      end
  | Cls p =>
      match s with
      | c :: s' => if p c then k (Some c) s' caps else None
      | [] => None
      end
  | Star p => star p prev s (fun prev' s' => k prev' s' caps)
  | Plus p =>
      match s with
      | c :: s' =>
          if p c then star p (Some c) s' (fun prev' s' => k prev' s' caps)
          else None
      | [] => None
      end
  | Cat r1 r2 =>
      run ic r1 prev s caps (fun prev' s' caps' => run ic r2 prev' s' caps' k)
  | Alt r1 r2 =>
      match run ic r1 prev s caps k with
      | Some x => Some x
      | None => run ic r2 prev s caps k
      end
  | Grp r1 =>
      run ic r1 prev s caps
        (fun prev' s' caps' =>
           k prev' s' (caps' ++ [firstn (length s - length s') s]))
  | Bol => match prev with None => k prev s caps | Some _ => None end
  | Eol =>
      match s with
      | [] => k prev s caps
      | [c] => if (c =? LF)%char then k prev s caps else None
      | _ => None
      end
  | WordB =>
      if xorb (word_opt prev) (word_opt (hd_error s)) then k prev s caps
      else None
  end.

End Matcher.

(** A match at a position: the matched text, what follows it, the groups. *)
Record mtch := { m_text : str; m_rest : str; m_groups : list str }.

Definition match_here (ic : bool) (r : regex) (prev : option ascii) (s : str)
  : option mtch :=
  run ic r prev s []
    (fun _ s' caps =>
       Some {| m_text := firstn (length s - length s') s;
               m_rest := s'; m_groups := caps |}).

(** [re.match(pattern, s)]. *)
Definition re_match (ic : bool) (r : regex) (s : str) : option mtch :=
  match_here ic r None s.

(** [match.group(n)] for [n >= 1]; missing groups read as the empty text. *)
Definition group (m : mtch) (n : nat) : str := nth (n - 1) (m_groups m) [].

(** [re.search(pattern, s)]: the leftmost match. *)
Fixpoint search_from (ic : bool) (r : regex) (prev : option ascii) (s : str)
  : option mtch :=
  match match_here ic r prev s with
  | Some m => Some m
  | None =>
      match s with
      | [] => None
      | c :: s' => search_from ic r (Some c) s'
      end
  end.

Definition re_search (ic : bool) (r : regex) (s : str) : option mtch :=
  search_from ic r None s.

(** [re.sub(pattern, repl, s)]: every non-overlapping match, left to right,
    is replaced; [skip] counts the characters of a match still to be passed.
    [repl] computes the replacement from the groups (for [\1]). *)
Fixpoint sub_from (ic : bool) (r : regex) (repl : list str -> str)
  (prev : option ascii) (s : str) (skip : nat) : str :=
  match skip with
  | S n =>
      match s with
      | [] => []
      | c :: s' => sub_from ic r repl (Some c) s' n
      end
  | O =>
      match match_here ic r prev s with
      | Some m =>
          match length (m_text m) with
          | O =>
              repl (m_groups m) ++
              match s with
              | [] => []
              | c :: s' => c :: sub_from ic r repl (Some c) s' 0
              end
          | S n =>
              repl (m_groups m) ++
              match s with
              | [] => []
              | c :: s' => sub_from ic r repl (Some c) s' n
              end
          end
      | None =>
          match s with
          | [] => []
          | c :: s' => c :: sub_from ic r repl (Some c) s' 0
          end
      end
  end.

Definition re_sub (ic : bool) (r : regex) (repl : list str -> str) (s : str)
  : str :=
  sub_from ic r repl None s 0.

(** [re.finditer(pattern, s)]: the texts [match.group(0)] in order. *)
Fixpoint finditer_from (ic : bool) (r : regex) (prev : option ascii) (s : str)
  (skip : nat) : list str :=
  match skip with
  | S n =>
      match s with
      | [] => []
      | c :: s' => finditer_from ic r (Some c) s' n
      end
  | O =>
      match match_here ic r prev s with
      | Some m =>
          m_text m ::
          match s with
          | [] => []
          | c :: s' => finditer_from ic r (Some c) s' (length (m_text m) - 1)
          end
      | None =>
          match s with
          | [] => []
          | c :: s' => finditer_from ic r (Some c) s' 0
          end
      end
  end.

Definition re_finditer (ic : bool) (r : regex) (s : str) : list str :=
  finditer_from ic r None s 0.

(** [r1 r2 ... rn] and [(a|b|...)] built from lists. *)
Fixpoint cat (rs : list regex) : regex :=
  match rs with
  | [] => Lit []
  | [r] => r
  | r :: rs' => Cat r (cat rs')
  end.

Fixpoint alt_lits (ls : list str) : regex :=
  match ls with
  | [] => Lit []
  | [l] => Lit l
  | l :: ls' => Alt (Lit l) (alt_lits ls')
  end.

End Re.

(** ** Python exceptions as results *)
Inductive error : Type :=
| ValueError | IndexError | FileNotFoundError.

Inductive exc (A : Type) : Type :=
| Ok (a : A)
| Raise (e : error).
Arguments Ok {A} a.
Arguments Raise {A} e.

Definition exc_bind {A B : Type} (c : exc A) (k : A -> exc B) : exc B :=
  match c with
  | Ok a => k a
  | Raise e => Raise e
  end.

Notation "'do' x <- c ; k" := (exc_bind c (fun x => k))
  (at level 10, x pattern, c at level 100, k at level 200).

(** ** The [csv] module as the index manager uses it

    [csv.writer] and [csv.reader] with the default (excel) dialect:
    delimiter [,], quote character, doubled quotes, minimal quoting,
    no escape character, not strict, line terminator CR LF. *)
Module Csv.
Import PyStr.

(** [csv.field_size_limit()]. *)
Definition field_limit : N := 131072%N.

Inductive pstate : Type :=
| START_RECORD | START_FIELD | IN_FIELD
| IN_QUOTED_FIELD | QUOTE_IN_QUOTED_FIELD | EAT_CRNL.

Record reader : Type := mkReader
  { r_state : pstate; r_fields : list str; r_field : str }.

Definition parse_reset : reader := mkReader START_RECORD [] [].

Definition set_state (st : pstate) (r : reader) : reader :=
  mkReader st (r_fields r) (r_field r).

(** [None] is [csv.Error] (field larger than field limit). *)
Definition parse_add_char (r : reader) (c : ascii) : option reader :=
  if (field_limit <=? N.of_nat (length (r_field r)))%N then None
  else Some (mkReader (r_state r) (r_fields r) (r_field r ++ [c])).

Definition parse_save_field (r : reader) : reader :=
  mkReader (r_state r) (r_fields r ++ [r_field r]) [].

Definition is_nl (c : ascii) : bool := (c =? LF)%char || (c =? CR)%char.

(** The case START_FIELD of [parse_process_char]; [None] as input is the
    end-of-line mark that the reader feeds after each line. *)
Definition start_field (r : reader) (c : option ascii) : option reader :=
  match c with
  | None => Some (set_state START_RECORD (parse_save_field r))
  | Some x =>
      if is_nl x then Some (set_state EAT_CRNL (parse_save_field r))
      else if (x =? DQUOTE)%char then Some (set_state IN_QUOTED_FIELD r)
      else if (x =? COMMA)%char then
        Some (set_state START_FIELD (parse_save_field r))
      else option_map (set_state IN_FIELD) (parse_add_char r x)
  end.

Definition parse_process_char (r : reader) (c : option ascii)
  : option reader :=
  match r_state r with
  | START_RECORD =>
      match c with
      | None => Some r
      | Some x =>
          if is_nl x then Some (set_state EAT_CRNL r)
          else start_field r c
      end
  | START_FIELD => start_field r c
  | IN_FIELD =>
      match c with
      | None => Some (set_state START_RECORD (parse_save_field r))
      | Some x =>
          if is_nl x then Some (set_state EAT_CRNL (parse_save_field r))
          else if (x =? COMMA)%char then
            Some (set_state START_FIELD (parse_save_field r))
          else parse_add_char r x
      end
  | IN_QUOTED_FIELD =>
      match c with
      | None => Some r
      | Some x =>
          if (x =? DQUOTE)%char then Some (set_state QUOTE_IN_QUOTED_FIELD r)
          else parse_add_char r x
      end
  | QUOTE_IN_QUOTED_FIELD =>
      match c with
      | None => Some (set_state START_RECORD (parse_save_field r))
      | Some x =>
          if (x =? DQUOTE)%char then
            option_map (set_state IN_QUOTED_FIELD) (parse_add_char r x)
          else if (x =? COMMA)%char then
            Some (set_state START_FIELD (parse_save_field r))
          else if is_nl x then Some (set_state EAT_CRNL (parse_save_field r))
          else option_map (set_state IN_FIELD) (parse_add_char r x)
      end
  | EAT_CRNL =>
      match c with
      | None => Some (set_state START_RECORD r)
      | Some x => if is_nl x then Some r else None
      end
  end.

Fixpoint feed (r : reader) (line : str) : option reader :=
  match line with
  | [] => Some r
  | c :: line' =>
      match parse_process_char r (Some c) with
      | Some r' => feed r' line'
      | None => None
      end
  end.

Definition in_quoted (r : reader) : bool :=
  match r_state r with IN_QUOTED_FIELD => true | _ => false end.

(** [Reader_iternext] after [parse_reset]: lines are read until a record is
    complete.  [None] is [csv.Error] or [StopIteration]; the caller catches
    both alike. *)
Fixpoint iternext (r : reader) (lines : list str) : option (list str) :=
  match lines with
  | [] =>
      if negb (is_empty (r_field r)) || in_quoted r
      then Some (r_fields (parse_save_field r))
      else None
  | l :: rest =>
      match feed r l with
      | None => None
      | Some r1 =>
          match parse_process_char r1 None with
          | None => None
          | Some r2 =>
              match r_state r2 with
              | START_RECORD => Some (r_fields r2)
              | _ => iternext r2 rest
              end
          end
      end
  end.

(** Iterating [io.StringIO(s)]: the lines of [s], each with its LF. *)
Fixpoint stringio_lines (s : str) : list str :=
  match s with
  | [] => []
  | c :: s' =>
      if (c =? LF)%char then [c] :: stringio_lines s'
      else match stringio_lines s' with
           | [] => [[c]]
           | h :: t => (c :: h) :: t
           end
  end.

(** [next(csv.reader(io.StringIO(s)))]. *)
Definition reader_next (s : str) : option (list str) :=
  iternext parse_reset (stringio_lines s).

Definition needs_quote (c : ascii) : bool :=
  (c =? COMMA)%char || (c =? DQUOTE)%char || (c =? CR)%char || (c =? LF)%char.

Fixpoint double_quotes (f : str) : str :=
  match f with
  | [] => []
  | c :: f' =>
      if (c =? DQUOTE)%char then DQUOTE :: DQUOTE :: double_quotes f'
      else c :: double_quotes f'
  end.

(** [join_append] of the writer: one field, quoted when it has to be. *)
Definition write_field (f : str) : str :=
  if existsb needs_quote f then [DQUOTE] ++ double_quotes f ++ [DQUOTE]
  else f.

(** [writer.writerow(fields)] into an empty [io.StringIO], then
    [getvalue()].  A row made of one empty field is written as two quotes. *)
Definition writerow (fields : list str) : str :=
  match fields with
  | [[]] => [DQUOTE; DQUOTE; CR; LF]
  | _ => join [COMMA] (map write_field fields) ++ [CR; LF]
  end.

(** *** Invariants of the reader used in the proofs *)

(** A step of the reader only ever appends to the finished fields. *)
Definition extends (r r' : reader) : Prop :=
  exists l, r_fields r' = r_fields r ++ l.

(** The reader is about to start a field. *)
Definition at_field_start (r : reader) : Prop :=
  (r_state r = START_RECORD \/ r_state r = START_FIELD) /\ r_field r = [].

End Csv.

(** ** [artifact_index_manager.py]: the ledger file [index.md] *)
Module Index.
Import PyStr.

(** A parsed ledger record (the dict built by [_parse_index_line]). *)
Record artifact : Type := mkArtifact
  { doc_id : str;
    artifact_id : str;
    name : option str;
    status : option str;
    is_file : bool;
    parent : option str }.

(** The index file: [None] when [index.md] does not exist. *)
Definition index_file := option str.

Definition SCHEMA_VERSION : str := "1.1".
Definition COLUMN_NAMES : list str :=
  map list_ascii_of_string
    ["ID"; "ARTIFACT_ID"; "NAME"; "STATUS"; "IS_FILE"; "PARENT"]%string.
Definition REQUIRED_COLUMNS : list str :=
  map list_ascii_of_string ["ID"; "ARTIFACT_ID"]%string.

Definition initial_content : str :=
  join [LF]
    [ "# ReSpecT Artifact ID Index" : str;
      "" : str;
      "This file tracks all artifacts in the ReSpecT repository with their metadata." : str;
      "Schema Version: " ++ SCHEMA_VERSION;
      "" : str;
      "Format: " ++ join [COMMA] COLUMN_NAMES;
      "- ID: Sequential numeric identifier" : str;
      "- ARTIFACT_ID: Full artifact ID (e.g., PRD-1, REQ-2)" : str;
      "- NAME: Human-readable artifact name (optional)" : str;
      "- STATUS: Current artifact status (optional)" : str;
      "- IS_FILE: true if artifact has own file, false if referenced only" : str;
      "- PARENT: Parent artifact ID for nested artifacts, null for top-level files" : str;
      "" : str;
      "## Artifact Index" : str;
      "" : str;
      "" : str ].

Definition _ensure_index_file_exists (f : index_file) : index_file :=
  match f with
  | None => Some initial_content
  | Some c => Some c
  end.

(** [x.strip() if x.strip() else None]. *)
Definition strip_or_none (x : str) : option str :=
  if is_empty (strip x) then None else Some (strip x).

(** [while len(parts) < n: parts.append("")]. *)
Definition pad_to (n : nat) (parts : list str) : list str :=
  parts ++ repeat [] (n - length parts).

(** The fields of a line: [csv.reader], or [line.split(',')] when the
    reader raises. *)
Definition csv_parts (line : str) : list str :=
  match Csv.reader_next line with
  | Some ps => ps
  | None => split COMMA line
  end.

(** The second half of [_parse_index_line]: the record of the fields. *)
Definition entry_of_parts (parts : list str) : option artifact :=
  if (length parts <? length REQUIRED_COLUMNS)%nat then None
  else
    let parts := pad_to (length COLUMN_NAMES) parts in
    let doc := strip (nth 0 parts []) in
    if negb (isdigit doc) then None
    else
      let aid := strip (nth 1 parts []) in
      if is_empty aid then None
      else
        let is_file_str :=
          if is_empty (strip (nth 4 parts [])) then ("true" : str)
          else lower (strip (nth 4 parts [])) in
        Some {| doc_id := doc;
                artifact_id := aid;
                name := strip_or_none (nth 2 parts []);
                status := strip_or_none (nth 3 parts []);
                is_file := mem is_file_str
                             (map list_ascii_of_string
                                ["true"; "1"; "yes"]%string);
                parent := strip_or_none (nth 5 parts []) |}.

Definition _parse_index_line (line : str) : option artifact :=
  let line := strip line in
  if is_empty line || negb (existsb (is_char COMMA) line) then None
  else entry_of_parts (csv_parts line).

(** [x or ""]. *)
Definition or_empty (x : option str) : str :=
  match x with Some s => s | None => [] end.

Definition _format_index_line (doc aid : str) (nm st : option str)
  (isf : bool) (par : option str) : str :=
  strip (Csv.writerow
           [doc; aid; or_empty nm; or_empty st;
            if isf then ("true" : str) else ("false" : str);
            or_empty par]).

Fixpoint parse_lines (lines : list str) : list artifact :=
  match lines with
  | [] => []
  | l :: rest =>
      match _parse_index_line l with
      | Some a => a :: parse_lines rest
      | None => parse_lines rest
      end
  end.

Definition get_all_artifacts (f : index_file) : list artifact :=
  match f with
  | None => []
  | Some content => parse_lines (split LF content)
  end.

Definition get_artifact_by_id (f : index_file) (aid : str) : option artifact :=
  find (fun a => eqb (upper (artifact_id a)) (upper aid)) (get_all_artifacts f).

Definition get_artifact_by_doc_id (f : index_file) (d : str)
  : option artifact :=
  find (fun a => eqb (doc_id a) d) (get_all_artifacts f).

(** The loop of [get_next_doc_id]; a [doc_id] that [int] rejects is skipped. *)
Fixpoint max_doc_id (max_id : N) (arts : list artifact) : N :=
  match arts with
  | [] => max_id
  | a :: rest =>
      match int_of_str (doc_id a) with
      | Some d => max_doc_id (N.max max_id d) rest
      | None => max_doc_id max_id rest
      end
  end.

(** [get_next_doc_id]: the file is created when missing, so the file is part
    of the result. *)
Definition get_next_doc_id (f : index_file) : N * index_file :=
  let f' := _ensure_index_file_exists f in
  match get_all_artifacts f' with
  | [] => (1%N, f')
  | arts => ((max_doc_id 0%N arts + 1)%N, f')
  end.

(** The text of the file after [line] is appended: a line break comes
    first when the content does not end with one. *)
Definition appended (content line : str) : str :=
  content ++
  (if negb (is_empty content) && negb (endswith [LF] content)
   then [LF] ++ line ++ [LF] else line ++ [LF]).

(** [add_artifact]: the assigned document ID and the file after the append;
    [ValueError] when the artifact already exists (nothing is written). *)
Definition add_artifact (f : index_file) (aid : str) (nm st : option str)
  (isf : bool) (par : option str) : exc (str * index_file) :=
  match get_artifact_by_id f aid with
  | Some _ => Raise ValueError
  | None =>
      let f1 := _ensure_index_file_exists f in
      let (next_id, f2) := get_next_doc_id f1 in
      let doc := str_of_N next_id in
      let line := _format_index_line doc aid nm st isf par in
      Ok (doc, Some (appended (or_empty f2) line))
  end.

(** The fields of a record that [update_artifact] was asked to change. *)
Definition set_fields (a : artifact) (nm st : option str) (isf : option bool)
  (par : option str) : artifact :=
  {| doc_id := doc_id a;
     artifact_id := artifact_id a;
     name := match nm with Some n => Some n | None => name a end;
     status := match st with Some s => Some s | None => status a end;
     is_file := match isf with Some b => b | None => is_file a end;
     parent := match par with Some p => Some p | None => parent a end |}.

Fixpoint update_lines (lines : list str) (aid : str) (nm st : option str)
  (isf : option bool) (par : option str) : option (list str) :=
  match lines with
  | [] => None
  | l :: rest =>
      match _parse_index_line l with
      | Some a =>
          if eqb (upper (artifact_id a)) (upper aid) then
            let a' := set_fields a nm st isf par in
            Some (_format_index_line (doc_id a') (artifact_id a') (name a')
                    (status a') (is_file a') (parent a') :: rest)
          else option_map (cons l) (update_lines rest aid nm st isf par)
      | None => option_map (cons l) (update_lines rest aid nm st isf par)
      end
  end.

(** [update_artifact]: [true] and the rewritten file, or [false]. *)
Definition update_artifact (f : index_file) (aid : str) (nm st : option str)
  (isf : option bool) (par : option str) : bool * index_file :=
  match f with
  | None => (false, f)
  | Some content =>
      match update_lines (split LF content) aid nm st isf par with
      | Some lines' => (true, Some (join [LF] lines'))
      | None => (false, f)
      end
  end.



(** Text without a line break. *)
Definition single_line (s : str) : bool := negb (existsb (is_char LF) s).





(** The numbers [int(doc_id)] of the records, and their maximum. *)
Definition doc_numbers (arts : list artifact) : list (option N) :=
  map (fun a => int_of_str (doc_id a)) arts.

Definition max_of (ns : list N) : N := fold_right N.max 0%N ns.


End Index.


(** ** [artifact_index_manager.py]: the queries on the ledger *)
Module IndexQueries.
Import PyStr Index.

(** [a[key] == value] for an optional column and a given text. *)
Definition column_is (col : option str) (v : str) : bool :=
  match col with Some s => eqb s v | None => false end.

Definition get_artifacts_by_filter (f : index_file) (isf : option bool)
  (st par : option str) : list artifact :=
  let artifacts := get_all_artifacts f in
  let artifacts :=
    match isf with
    | Some b => filter (fun a => Bool.eqb (is_file a) b) artifacts
    | None => artifacts
    end in
  let artifacts :=
    match st with
    | Some s => filter (fun a => column_is (status a) s) artifacts
    | None => artifacts
    end in
  match par with
  | Some p => filter (fun a => column_is (parent a) p) artifacts
  | None => artifacts
  end.

Definition get_children_artifacts (f : index_file) (parent_id : str)
  : list artifact :=
  get_artifacts_by_filter f None None (Some parent_id).

(** The record that the ledger gives back for the columns of a call. *)
Definition stored (doc aid : str) (nm st : option str) (isf : bool)
  (par : option str) : artifact :=
  mkArtifact doc (strip aid) (strip_or_none (or_empty nm))
    (strip_or_none (or_empty st)) isf (strip_or_none (or_empty par)).

(** Columns that the writer leaves unquoted. *)
Definition plain (x : str) : bool := negb (existsb Csv.needs_quote x).

Definition plain_columns (aid : str) (nm st par : option str) : bool :=
  plain aid && plain (or_empty nm) && plain (or_empty st) &&
  plain (or_empty par).

End IndexQueries.

(** ** [artifact_type_manager.py]: the type registry

    [artifact_types.json] is not part of the sources: the registry is a
    parameter, the list of its entries in declaration order (a JSON object,
    so the type codes are pairwise distinct). *)
Module Types.
Import PyStr Re.

(** The keys of a registry entry that the engine reads. *)
Record type_info : Type := mkTypeInfo
  { header_format : option str;   (* info.get('header_format') *)
    can_tool_update_flag : bool;  (* info.get('can_tool_update', False) *)
    is_file_flag : bool;          (* info.get('is_file', False) *)
    has_steps_flag : bool }.      (* info.get('has_steps', False) *)

Definition registry := list (str * type_info).

(** A registry whose type codes are words of upper-case letters, the shape
    that the patterns of the sources expect of a type ([[A-Z]+]). *)
Definition upper_codes (r : registry) : bool :=
  forallb (fun p => forallb is_upper (fst p)) r.

(** The characters of an artifact ID [TYPE-N]. *)
Definition id_char (c : ascii) : bool :=
  is_upper c || (c =? "-")%char || is_digit c.

Section WithRegistry.
Variable artifact_types : registry.

Definition get_valid_artifact_types : list str := map fst artifact_types.

Definition is_valid_artifact_type (t : str) : bool :=
  mem (upper t) get_valid_artifact_types.

Definition lookup_type (t : str) : option type_info :=
  option_map snd (find (fun p => eqb (fst p) t) artifact_types).

(** [ValueError] for an unknown type. *)
Definition get_artifact_type_info (t : str) : exc type_info :=
  let t := upper t in
  if is_valid_artifact_type t then
    match lookup_type t with
    | Some info => Ok info
    | None => Raise ValueError
    end
  else Raise ValueError.

Definition can_tool_update (t : str) : exc bool :=
  do info <- get_artifact_type_info (upper t);
  Ok (can_tool_update_flag info).

Definition has_capability_steps (t : str) : exc bool :=
  do info <- get_artifact_type_info (upper t);
  Ok (has_steps_flag info).

Definition validate_and_normalize_artifact_type (t : str) : exc str :=
  if is_empty t || is_empty (strip t) then Raise ValueError
  else
    let normalized := upper (strip t) in
    if is_valid_artifact_type normalized then Ok normalized
    else Raise ValueError.

(** [^([A-Z]+)-\d+$] *)
Definition artifact_id_re : regex :=
  cat [Bol; Grp (Plus upper_az); Lit "-"; Plus digit; Eol].

Definition get_artifact_type_from_id (aid : str) : exc str :=
  if is_empty aid then Raise ValueError
  else
    match re_match false artifact_id_re (upper aid) with
    | None => Raise ValueError
    | Some m => validate_and_normalize_artifact_type (group m 1)
    end.

(** [\b(T1|...|Tn)-PROVISIONAL\d+\b] over the registered types. *)
Definition provisional_re : regex :=
  cat [WordB; Grp (alt_lits get_valid_artifact_types);
       Lit "-PROVISIONAL"; Plus digit; WordB].

(** The set of provisional IDs of a text, upper-cased (found with
    [re.IGNORECASE]), as a duplicate-free list. *)
Definition find_provisional_artifact_ids (text : str) : list str :=
  fold_left (fun acc m => set_add (upper m) acc)
    (re_finditer true provisional_re text) [].

(** [^([A-Z]+)-PROVISIONAL(\d+)$] *)
Definition provisional_id_re : regex :=
  cat [Bol; Grp (Plus upper_az); Lit "-PROVISIONAL"; Grp (Plus digit); Eol].

Definition parse_provisional_id (pid : str) : exc (str * N) :=
  match re_match false provisional_id_re (upper pid) with
  | None => Raise ValueError
  | Some m =>
      match int_of_str (group m 2) with
      | None => Raise ValueError
      | Some temp_id =>
          if is_valid_artifact_type (group m 1) then Ok (group m 1, temp_id)
          else Raise ValueError
      end
  end.

(** [^([A-Z]+)-PROVISIONAL\d*$] *)
Definition provisional_filename_re : regex :=
  cat [Bol; Grp (Plus upper_az); Lit "-PROVISIONAL"; Star digit; Eol].

(** [validate_provisional_filename]: the [artifact_type] of the JSON answer
    when [valid] is true, [None] otherwise. *)
Definition validate_provisional_filename (filename : str) : option str :=
  let name_without_ext :=
    if endswith ".md" filename
    then firstn (length filename - 3) filename else filename in
  match re_match false provisional_filename_re (upper name_without_ext) with
  | None => None
  | Some m =>
      if is_valid_artifact_type (group m 1) then Some (group m 1) else None
  end.

End WithRegistry.
End Types.


(** ** [artifact_type_manager.py]: validation of artifact IDs *)
Module IdChecks.
Import PyStr Re Types.

(** The keys [valid], [artifact_type] and [number] of the answer of
    [validate_artifact_id_format]; the texts under [error] and
    [suggestions] are left out. *)
Record id_validation : Type := mkValidation
  { valid : bool;
    v_artifact_type : option str;
    v_number : option N }.

Definition invalid : id_validation := mkValidation false None None.

(** [f"{x}"] for a value that is [None] or a text, or [None] or a number. *)
Definition fmt_text (x : option str) : str :=
  match x with Some s => s | None => "None" end.
Definition fmt_number (x : option N) : str :=
  match x with Some n => str_of_N n | None => "None" end.

(** [^([A-Z]+)-(\d+)$] *)
Definition id_format_re : regex :=
  cat [Bol; Grp (Plus upper_az); Lit "-"; Grp (Plus digit); Eol].

Section WithRegistry.
Variable artifact_types : registry.

(** An exception of the body is caught and gives an answer that is not
    valid ([int] of the digits is the one call that can raise). *)
Definition validate_artifact_id_format (artifact_id : str) : id_validation :=
  if is_empty artifact_id then invalid
  else
    let artifact_id := strip artifact_id in
    if is_empty artifact_id then invalid
    else
      match re_match false id_format_re (upper artifact_id) with
      | None => invalid
      | Some m =>
          let artifact_type := group m 1 in
          match int_of_str (group m 2) with
          | None => invalid
          | Some number =>
              if negb (is_valid_artifact_type artifact_types artifact_type)
              then invalid
              else if (number <=? 0)%N then invalid
              else mkValidation true (Some artifact_type) (Some number)
          end
      end.

(** [ValueError] when the answer is not valid, the normalized ID
    [f"{artifact_type}-{number}"] otherwise. *)
Definition validate_artifact_id (artifact_id : str) : exc str :=
  let validation := validate_artifact_id_format artifact_id in
  if negb (valid validation) then Raise ValueError
  else Ok (fmt_text (v_artifact_type validation) ++ "-" ++
           fmt_number (v_number validation)).

End WithRegistry.
(** *** Conditions used in the statements about identifiers *)

(** A registry with at least one type, whose codes are non-empty words of
    upper-case letters. *)
Definition word_codes (r : registry) : bool :=
  negb (match r with [] => true | _ :: _ => false end) &&
  forallb (fun p => negb (is_empty (fst p)) && forallb is_upper (fst p)) r.

End IdChecks.

(** ** [artifact_header_manager.py]: the managed header block

    [artifact_managed_header_items.json] is a parameter as well: the header
    items in declaration order. *)
Module Headers.
Import PyStr Re.

Record header_item : Type := mkHeaderItem
  { label : str;                    (* item_config['label'] *)
    item_type : str;                (* item_config['type']: atomic or list *)
    item_artifact_types : list str  (* item_config['artifact_types'] *) }.

Definition header_items := list (str * header_item).

(** A Python dict with string keys and values, in insertion order. *)
Definition dict := list (str * str).

Fixpoint dict_get (d : dict) (k : str) : option str :=
  match d with
  | [] => None
  | (k', v) :: d' => if eqb k' k then Some v else dict_get d' k
  end.

(** [d[k] = v]: an existing key keeps its place. *)
Fixpoint dict_set (d : dict) (k v : str) : dict :=
  match d with
  | [] => [(k, v)]
  | (k', v') :: d' =>
      if eqb k' k then (k', v) :: d' else (k', v') :: dict_set d' k v
  end.

(** The pattern built from a header format: [re.escape] makes every
    character of the template a literal, then the escaped placeholders
    [{id}] and [{description}] become [(\d+)] and [(.+)].  [skip] counts the
    characters of a placeholder still to be passed. *)
Fixpoint format_tokens (fmt : str) (skip : nat) : list regex :=
  match skip with
  | S n =>
      match fmt with
      | [] => []
      | _ :: fmt' => format_tokens fmt' n
      end
  | O =>
      match fmt with
      | [] => []
      | c :: fmt' =>
          if startswith "{id}" fmt then Grp (Plus digit) :: format_tokens fmt' 3
          else if startswith "{description}" fmt
          then Grp (Plus dot) :: format_tokens fmt' 12
          else Lit [c] :: format_tokens fmt' 0
      end
  end.

Definition format_pattern (fmt : str) : regex := cat (format_tokens fmt 0).

(** [match.group(1)]: [IndexError] when the pattern has no group. *)
Definition group1 (m : mtch) : exc str :=
  match m_groups m with
  | [] => Raise IndexError
  | g :: _ => Ok g
  end.

Fixpoint match_types (types : Types.registry) (first_line : str)
  : exc (option (str * str)) :=
  match types with
  | [] => Ok None
  | (t, info) :: rest =>
      match Types.header_format info with
      | None => match_types rest first_line
      | Some fmt =>
          if is_empty fmt then match_types rest first_line
          else
            match re_match false (format_pattern fmt) first_line with
            | Some m => do g <- group1 m; Ok (Some (t, t ++ "-" ++ g))
            | None => match_types rest first_line
            end
      end
  end.

(** [`([^`]+)`:\s*(.+)] *)
Definition header_line_re : regex :=
  cat [Lit "`"; Grp (Plus (not_char "`"%char)); Lit "`"; Lit ":";
       Star space; Grp (Plus dot)].

Definition display_label (it : header_item) : str :=
  rstrip_of (is_char ":"%char) (label it).

Section WithConfig.
Variable artifact_types : Types.registry.
Variable managed_header_items : header_items.

Definition extract_artifact_type_and_id (content : str)
  : exc (option (str * str)) :=
  let lines := split LF (strip content) in
  let first_line := strip (nth 0 lines []) in
  match_types artifact_types first_line.

Definition get_managed_headers_for_type (t : str) : header_items :=
  filter (fun kv => mem t (item_artifact_types (snd kv))) managed_header_items.

(** The loop of [parse_managed_headers] from line [i] on: the headers read
    so far and [body_start_index]. *)
Fixpoint scan_headers (applicable : header_items) (lines : list str) (i : nat)
  (hdrs : dict) (body_start : nat) : dict * nat :=
  match lines with
  | [] => (hdrs, body_start)
  | l :: rest =>
      let line := strip l in
      if is_empty line then scan_headers applicable rest (S i) hdrs (S i)
      else
        match re_match false header_line_re line with
        | Some m =>
            match find (fun kv => eqb (display_label (snd kv)) (group m 1))
                    applicable with
            | Some (key, _) =>
                scan_headers applicable rest (S i)
                  (dict_set hdrs key (strip (group m 2))) (S i)
            | None => (hdrs, body_start)
            end
        | None => (hdrs, body_start)
        end
  end.

(** [(header_line, managed_headers, remaining_content)]. *)
Definition parse_managed_headers (content : str) : exc (str * dict * str) :=
  let lines := split LF (strip content) in
  let header_line := strip (nth 0 lines []) in
  do info <- extract_artifact_type_and_id content;
  match info with
  | None => Ok (header_line, [], join [LF] (skipn 1 lines))
  | Some (t, _) =>
      let applicable := get_managed_headers_for_type t in
      let (hdrs, body_start) := scan_headers applicable (skipn 1 lines) 1 [] 1 in
      Ok (header_line, hdrs, join [LF] (skipn body_start lines))
  end.

(** The list branch: existing members first, new members appended once. *)
Fixpoint merge_values (combined new_values : list str) : list str :=
  match new_values with
  | [] => combined
  | v :: rest =>
      if mem v combined then merge_values combined rest
      else merge_values (combined ++ [v]) rest
  end.

Definition apply_update (applicable : header_items) (updated : dict)
  (upd : str * str) : dict :=
  let (item_key, new_value) := upd in
  match find (fun kv => eqb (fst kv) item_key) applicable with
  | None => updated
  | Some (_, item_config) =>
      if eqb (item_type item_config) "atomic" then
        dict_set updated item_key new_value
      else if eqb (item_type item_config) "list" then
        match dict_get updated item_key with
        | Some existing =>
            let existing_values := map strip (split COMMA existing) in
            let new_values := map strip (split COMMA new_value) in
            dict_set updated item_key
              (join [COMMA] (merge_values existing_values new_values))
        | None => dict_set updated item_key new_value
        end
      else updated
  end.

(** The managed header lines in the order of the configuration. *)
Fixpoint render_headers (applicable : header_items) (hdrs : dict)
  : list str :=
  match applicable with
  | [] => []
  | (item_key, item_config) :: rest =>
      match dict_get hdrs item_key with
      | Some value =>
          ("`" ++ display_label item_config ++ "`: " ++ value)
          :: render_headers rest hdrs
      | None => render_headers rest hdrs
      end
  end.

(** The content rebuilt from a header line, headers and a body. *)
Definition rebuild (applicable : header_items) (header_line : str)
  (hdrs : dict) (body : str) : str :=
  join [LF]
    ([header_line] ++ render_headers applicable hdrs ++
     (if is_empty (strip body) then [] else [body])).

Definition update_managed_header (content : str) (header_updates : dict)
  : exc str :=
  do parsed <- parse_managed_headers content;
  let '(header_line, current_headers, body_content) := parsed in
  if is_empty header_line then Raise ValueError
  else
    do info <- extract_artifact_type_and_id content;
    match info with
    | None => Raise ValueError
    | Some (t, _) =>
        let applicable := get_managed_headers_for_type t in
        let updated_headers :=
          fold_left (apply_update applicable) header_updates current_headers in
        Ok (rebuild applicable header_line updated_headers body_content)
    end.

End WithConfig.

(** *** Conditions used in the statements about headers *)

(** A value that a header line can carry and give back: some visible text,
    on one line. *)
Definition clean_value (v : str) : bool :=
  negb (is_empty (strip v)) && forallb dot v.

(** A display label that [header_line_re] reads back from between the
    backticks. *)
Definition clean_label (l : str) : bool :=
  negb (is_empty l) && forallb (fun c => not_char "`"%char c && dot c) l.

Fixpoint distinct (l : list str) : bool :=
  match l with
  | [] => true
  | x :: rest => negb (mem x rest) && distinct rest
  end.

(** The display labels of the applicable items are clean and pairwise
    different. *)
Definition labels_ok (applicable : header_items) : bool :=
  let labels := map (fun kv => display_label (snd kv)) applicable in
  distinct labels && forallb clean_label labels.

(** An update of an atomic item with a clean value, or of an item that does
    not apply (which [update_managed_header] skips). *)
Definition atomic_update (applicable : header_items) (upd : str * str)
  : bool :=
  match find (fun kv => eqb (fst kv) (fst upd)) applicable with
  | None => true
  | Some (_, item_config) =>
      eqb (item_type item_config) "atomic" && clean_value (snd upd)
  end.

(** A line at which the loop of [parse_managed_headers] breaks. *)
Definition stops (applicable : header_items) (l : str) : bool :=
  let line := strip l in
  negb (is_empty line) &&
  match re_match false header_line_re line with
  | Some m =>
      match find (fun kv => eqb (display_label (snd kv)) (group m 1))
              applicable with
      | Some _ => false
      | None => true
      end
  | None => true
  end.

(** The values of a dictionary as [parse_managed_headers] stores them. *)
Definition values_clean (d : dict) : Prop :=
  forall k v, dict_get d k = Some v -> clean_value v = true /\ strip v = v.

(** A comma-separated member: visible, on one line, without blanks around
    it and without a comma. *)
Definition clean_member (v : str) : bool :=
  negb (is_empty v) && eqb (strip v) v &&
  forallb (fun c => dot c && not_char COMMA c) v.

End Headers.

(** ** [artifact_manager.py]: identifiers, files and finalization

    The manager is the one built by [get_artifact_id_manager()]: its
    [repo_root] is the directory named by RESPECT_DOC_REPO_ROOT, so
    [index.md] is one of the files of the document repository.  A directory
    is the list of its files, [(path relative to the directory, content)],
    in the order in which [rglob] walks them; paths are pairwise distinct.
    The provisional store is another directory. *)
Module Manager.
Import PyStr Re.

Definition file := (str * str)%type.

Record state : Type := mkState
  { env_doc_root : bool;          (* RESPECT_DOC_REPO_ROOT is set *)
    repo : option (list file);    (* the repository root; None: no such directory *)
    env_prov_store : bool;        (* RESPECT_PROVISIONAL_DOC_STORE is set *)
    prov : option (list file) }.  (* the provisional store *)

Definition INDEX_PATH : str := "index.md".

Fixpoint read_file (fs : list file) (p : str) : option str :=
  match fs with
  | [] => None
  | (q, c) :: fs' => if eqb q p then Some c else read_file fs' p
  end.

(** [Path.write_text]: an existing file keeps its place. *)
Fixpoint write_file (fs : list file) (p c : str) : list file :=
  match fs with
  | [] => [(p, c)]
  | (q, d) :: fs' =>
      if eqb q p then (q, c) :: fs' else (q, d) :: write_file fs' p c
  end.

(** [Path.unlink]. *)
Definition remove_file (fs : list file) (p : str) : list file :=
  filter (fun f => negb (eqb (fst f) p)) fs.

Definition repo_files (st : state) : list file :=
  match repo st with Some fs => fs | None => [] end.

Definition set_repo (st : state) (fs : list file) : state :=
  mkState (env_doc_root st) (Some fs) (env_prov_store st) (prov st).

Definition set_prov (st : state) (fs : list file) : state :=
  mkState (env_doc_root st) (repo st) (env_prov_store st) (Some fs).

(** The ledger as the index manager sees it. *)
Definition index_of (st : state) : Index.index_file :=
  read_file (repo_files st) INDEX_PATH.

Definition set_index (st : state) (f : Index.index_file) : state :=
  match f with
  | None => st
  | Some c => set_repo st (write_file (repo_files st) INDEX_PATH c)
  end.

(** Shell-style matching of a file name ([*] and [?]; bracket classes are
    not modelled). *)
Fixpoint fnmatch (pat : str) : str -> bool :=
  match pat with
  | [] => fun name => is_empty name
  | c :: pat' =>
      if (c =? "*")%char then
        fix star (name : str) : bool :=
          fnmatch pat' name ||
          match name with
          | [] => false
          | _ :: name' => star name'
          end
      else if (c =? "?")%char then
        fun name =>
          match name with
          | [] => false
          | _ :: name' => fnmatch pat' name'
          end
      else
        fun name =>
          match name with
          | [] => false
          | x :: name' => (x =? c)%char && fnmatch pat' name'
          end
  end.

(** [Path.name]. *)
Definition basename (p : str) : str := last (split "/"%char p) [].

(** [root.rglob(pattern)] for a pattern without directory part. *)
Definition rglob (fs : list file) (pattern : str) : list file :=
  filter (fun f => fnmatch pattern (basename (fst f))) fs.

(** The position of the last dot of a name, when it separates a suffix. *)
Fixpoint rfind_dot (name : str) (i : nat) (found : option nat) : option nat :=
  match name with
  | [] => found
  | c :: name' =>
      rfind_dot name' (S i) (if (c =? ".")%char then Some i else found)
  end.

Definition suffix_pos (name : str) : option nat :=
  match rfind_dot name 0 None with
  | Some i => if (0 <? i)%nat && (i <? length name - 1)%nat then Some i else None
  | None => None
  end.

(** [Path.stem] and [Path.suffix]. *)
Definition path_stem (p : str) : str :=
  match suffix_pos (basename p) with
  | Some i => firstn i (basename p)
  | None => basename p
  end.

Definition path_suffix (p : str) : str :=
  match suffix_pos (basename p) with
  | Some i => skipn i (basename p)
  | None => []
  end.

(** How an operation fails: the kinds of the failure dictionaries. *)
Inductive failure : Type :=
| NotFound                 (* No artifact found for identifier *)
| NotInIndex               (* Artifact not found in index *)
| ConfigurationMissing     (* RESPECT_DOC_REPO_ROOT not set *)
| RepositoryMissing        (* Document repository not found *)
| AmbiguousOrMissingFile   (* No file found for artifact *)
| SectionNotFound          (* No content / no artifact section found *)
| UpdateNotAllowed         (* type does not allow direct tool updates *)
| StepNotFound             (* step not found or already marked as done *)
| Unsupported              (* type does not support step marking *)
| Failed (e : error).      (* an exception caught by the operation *)

Inductive outcome (A : Type) : Type :=
| Success (a : A)
| Failure (f : failure).
Arguments Success {A} a.
Arguments Failure {A} f.

(** The success dictionary of [get_artifact]. *)
Record found : Type := mkFound
  { content : str; file_path : str; artifact_info : Index.artifact }.

Definition resolve_artifact_identifier (st : state) (identifier : str)
  : option str :=
  let artifacts := Index.get_all_artifacts (index_of st) in
  if isdigit identifier then
    option_map Index.artifact_id
      (find (fun a => eqb (Index.doc_id a) identifier) artifacts)
  else
    let artifact_id := upper identifier in
    if existsb (fun a => eqb (Index.artifact_id a) artifact_id) artifacts
    then Some artifact_id else None.

(** A heading line of a nested artifact: [line.strip()] starts with
    [### ARTIFACT-ID]. *)
Definition is_heading_of (artifact_id line : str) : bool :=
  startswith ("### " ++ artifact_id) (strip line).

(** The line that ends a section: another [### ] heading. *)
Definition ends_section (artifact_id line : str) : bool :=
  startswith "### " (strip line) && negb (is_heading_of artifact_id line).

(** The lines before the first heading of the artifact, that heading, and
    the lines after it. *)
Fixpoint locate_heading (artifact_id : str) (lines : list str)
  : option (list str * str * list str) :=
  match lines with
  | [] => None
  | l :: rest =>
      if is_heading_of artifact_id l then Some ([], l, rest)
      else
        match locate_heading artifact_id rest with
        | Some (before, h, after) => Some (l :: before, h, after)
        | None => None
        end
  end.

(** The lines of a section after its heading. *)
Fixpoint section_body (artifact_id : str) (lines : list str) : list str :=
  match lines with
  | [] => []
  | l :: rest =>
      if ends_section artifact_id l then []
      else l :: section_body artifact_id rest
  end.

Definition _get_file_artifact_path (st : state) (artifact_id : str)
  : option file :=
  match rglob (repo_files st) (artifact_id ++ "_*.md") with
  | f :: _ => Some f
  | [] =>
      match rglob (repo_files st) (artifact_id ++ ".md") with
      | f :: _ => Some f
      | [] => None
      end
  end.

Definition _get_file_artifact (st : state) (artifact_id : str)
  (info : Index.artifact) : outcome found :=
  match _get_file_artifact_path st artifact_id with
  | Some (p, c) => Success (mkFound c p info)
  | None => Failure AmbiguousOrMissingFile
  end.

(** The first markdown file with a heading of the artifact whose section
    text is not empty. *)
Fixpoint find_section (artifact_id : str) (files : list file)
  : option (str * str) :=
  match files with
  | [] => None
  | (p, c) :: rest =>
      match locate_heading artifact_id (split LF c) with
      | Some (_, h, after) =>
          let text := rstrip (join [LF] (h :: section_body artifact_id after)) in
          if is_empty text then find_section artifact_id rest
          else Some (p, text)
      | None => find_section artifact_id rest
      end
  end.

Definition _get_non_file_artifact (st : state) (artifact_id : str)
  (info : Index.artifact) : outcome found :=
  match find_section artifact_id (rglob (repo_files st) "*.md") with
  | Some (p, text) => Success (mkFound text p info)
  | None => Failure SectionNotFound
  end.

Definition get_artifact (st : state) (identifier : str) : outcome found :=
  match resolve_artifact_identifier st identifier with
  | None => Failure NotFound
  | Some artifact_id =>
      match Index.get_artifact_by_id (index_of st) artifact_id with
      | None => Failure NotInIndex
      | Some info =>
          if negb (env_doc_root st) then Failure ConfigurationMissing
          else
            match repo st with
            | None => Failure RepositoryMissing
            | Some _ =>
                if Index.is_file info
                then _get_file_artifact st artifact_id info
                else _get_non_file_artifact st artifact_id info
            end
      end
  end.

(** The path written on success, and the files afterwards. *)
Definition _update_file_artifact (st : state) (artifact_id new_content : str)
  : outcome str * state :=
  if negb (env_doc_root st) then (Failure ConfigurationMissing, st)
  else
    match repo st with
    | None => (Failure RepositoryMissing, st)
    | Some fs =>
        match _get_file_artifact_path st artifact_id with
        | None => (Failure AmbiguousOrMissingFile, st)
        | Some (p, _) => (Success p, set_repo st (write_file fs p new_content))
        end
    end.

(** The first markdown file with a heading of the artifact: its path and
    its lines split around the section. *)
Fixpoint find_section_file (artifact_id : str) (files : list file)
  : option (str * list str * list str) :=
  match files with
  | [] => None
  | (p, c) :: rest =>
      match locate_heading artifact_id (split LF c) with
      | Some (before, _, after) =>
          Some (p, before,
                skipn (length (section_body artifact_id after)) after)
      | None => find_section_file artifact_id rest
      end
  end.

Definition _update_non_file_artifact (st : state)
  (artifact_id new_content : str) : outcome str * state :=
  if negb (env_doc_root st) then (Failure ConfigurationMissing, st)
  else
    match repo st with
    | None => (Failure RepositoryMissing, st)
    | Some fs =>
        match find_section_file artifact_id (rglob fs "*.md") with
        | None => (Failure SectionNotFound, st)
        | Some (p, before, after) =>
            let new_content_lines :=
              split LF (rstrip_of (is_char LF) new_content) in
            let updated_lines := before ++ new_content_lines ++ after in
            (Success p, set_repo st (write_file fs p (join [LF] updated_lines)))
        end
    end.

Section WithRegistry.
Variable artifact_types : Types.registry.

Definition update_artifact (st : state) (identifier new_content : str)
  : outcome str * state :=
  match resolve_artifact_identifier st identifier with
  | None => (Failure NotFound, st)
  | Some artifact_id =>
      match Index.get_artifact_by_id (index_of st) artifact_id with
      | None => (Failure NotInIndex, st)
      | Some info =>
          match Types.get_artifact_type_from_id artifact_types artifact_id with
          | Raise e => (Failure (Failed e), st)
          | Ok artifact_type =>
              match Types.can_tool_update artifact_types artifact_type with
              | Raise e => (Failure (Failed e), st)
              | Ok false => (Failure UpdateNotAllowed, st)
              | Ok true =>
                  if Index.is_file info
                  then _update_file_artifact st artifact_id new_content
                  else
                    let heading_prefix := "### " ++ artifact_id in
                    let prepared_content :=
                      if startswith heading_prefix (lstrip new_content)
                      then new_content
                      else
                        let header_line :=
                          heading_prefix ++
                          match Index.name info with
                          | Some nm =>
                              if is_empty nm then [] else ": " ++ nm
                          | None => []
                          end in
                        header_line ++ [LF] ++
                        lstrip_of (is_char LF) new_content in
                    _update_non_file_artifact st artifact_id prepared_content
              end
          end
      end
  end.

(** [get_artifact_id]: the new artifact ID; the files change even when the
    ledger append is refused, because [get_next_doc_id] creates a missing
    index file. *)
Definition get_artifact_id (st : state) (artifact_type : str)
  (artifact_name : option str) (isf : bool) (par : option str)
  : exc str * state :=
  match Types.validate_and_normalize_artifact_type artifact_types artifact_type with
  | Raise e => (Raise e, st)
  | Ok artifact_type =>
      let (next_id, f1) := Index.get_next_doc_id (index_of st) in
      let st1 := set_index st f1 in
      let artifact_id := artifact_type ++ "-" ++ str_of_N next_id in
      match Index.add_artifact (index_of st1) artifact_id artifact_name None
              isf par with
      | Raise e => (Raise e, st1)
      | Ok (_, f2) => (Ok artifact_id, set_index st1 f2)
      end
  end.

(** [^#+\s*ID:\s*(.+)$] with [re.IGNORECASE]. *)
Definition name_re (artifact_id : str) : regex :=
  cat [Bol; Plus (is_char "#"%char); Star space; Lit artifact_id; Lit ":";
       Star space; Grp (Plus dot); Eol].

Fixpoint first_name (artifact_id : str) (lines : list str) : option str :=
  match lines with
  | [] => None
  | l :: rest =>
      match re_match true (name_re artifact_id) (strip l) with
      | Some m => Some (strip (group m 1))
      | None => first_name artifact_id rest
      end
  end.

Definition _extract_artifact_name (content artifact_id : str) : option str :=
  first_name artifact_id (split LF content).

Definition top_level_heading_mentions (artifact_id line : str) : bool :=
  let line := strip line in
  startswith "#" line && negb (startswith "###" line) &&
  contains artifact_id line.

Definition _is_main_artifact (content artifact_id : str) : bool :=
  if existsb (top_level_heading_mentions artifact_id) (split LF content)
  then true
  else if existsb (is_char "-"%char) artifact_id then
    match Types.get_artifact_type_info artifact_types
            (upper (nth 0 (split "-"%char artifact_id) [])) with
    | Ok info => Types.is_file_flag info
    | Raise _ => false
    end
  else false.

(** [\bID\b] *)
Definition whole_word_re (artifact_id : str) : regex :=
  cat [WordB; Lit artifact_id; WordB].

(** The state of the allocation loops of [_process_provisional_ids]. *)
Record alloc : Type := mkAlloc
  { id_mapping : Headers.dict;
    artifact_names : Headers.dict;
    updated_content : str;
    parent_for_nested : option str;
    files : state }.

(** [not parent_for_nested]. *)
Definition no_parent (p : option str) : bool :=
  match p with Some s => is_empty s | None => true end.

(** One iteration of the loop over the main artifacts. *)
Definition process_main (content : str) (a : alloc) (provisional_id : str)
  : alloc :=
  match Types.parse_provisional_id artifact_types provisional_id with
  | Raise _ => a
  | Ok (artifact_type, _) =>
      let artifact_name := _extract_artifact_name content provisional_id in
      match get_artifact_id (files a) artifact_type artifact_name true None with
      | (Raise _, st') =>
          mkAlloc (id_mapping a) (artifact_names a) (updated_content a)
            (parent_for_nested a) st'
      | (Ok new_artifact_id, st') =>
          mkAlloc
            (Headers.dict_set (id_mapping a) provisional_id new_artifact_id)
            (match artifact_name with
             | Some nm =>
                 if is_empty nm then artifact_names a
                 else Headers.dict_set (artifact_names a) new_artifact_id nm
             | None => artifact_names a
             end)
            (re_sub false (whole_word_re provisional_id)
               (fun _ => new_artifact_id) (updated_content a))
            (if no_parent (parent_for_nested a) then Some new_artifact_id
             else parent_for_nested a)
            st'
      end
  end.

(** One iteration of the loop over the nested artifacts. *)
Definition process_nested (content : str) (a : alloc) (provisional_id : str)
  : alloc :=
  match Types.parse_provisional_id artifact_types provisional_id with
  | Raise _ => a
  | Ok (artifact_type, _) =>
      let artifact_name := _extract_artifact_name content provisional_id in
      match get_artifact_id (files a) artifact_type artifact_name false
              (parent_for_nested a) with
      | (Raise _, st') =>
          mkAlloc (id_mapping a) (artifact_names a) (updated_content a)
            (parent_for_nested a) st'
      | (Ok new_artifact_id, st') =>
          mkAlloc
            (Headers.dict_set (id_mapping a) provisional_id new_artifact_id)
            (match artifact_name with
             | Some nm =>
                 if is_empty nm then artifact_names a
                 else Headers.dict_set (artifact_names a) new_artifact_id nm
             | None => artifact_names a
             end)
            (re_sub false (whole_word_re provisional_id)
               (fun _ => new_artifact_id) (updated_content a))
            (parent_for_nested a)
            st'
      end
  end.

(** [(id_mapping, updated_content, artifact_names)] and the files. *)
Definition _process_provisional_ids (st : state) (content : str)
  (parent_artifact_id : option str) : alloc :=
  let provisional_ids :=
    Types.find_provisional_artifact_ids artifact_types content in
  match provisional_ids with
  | [] => mkAlloc [] [] content parent_artifact_id st
  | _ :: _ =>
      let ordered := sorted provisional_ids in
      let main_artifacts := filter (_is_main_artifact content) ordered in
      let nested_artifacts :=
        filter (fun p => negb (_is_main_artifact content p)) ordered in
      let a0 := mkAlloc [] [] content parent_artifact_id st in
      let a1 := fold_left (process_main content) main_artifacts a0 in
      fold_left (process_nested content) nested_artifacts a1
  end.


(** [PROVISIONAL(\d+)$], [-(\d+)$] and [\bPROVISIONALk\.(\d+)]. *)
Definition provisional_number_re : regex :=
  cat [Lit "PROVISIONAL"; Grp (Plus digit); Eol].
Definition final_number_re : regex := cat [Lit "-"; Grp (Plus digit); Eol].
Definition step_re (provisional_number : str) : regex :=
  cat [WordB; Lit "PROVISIONAL"; Lit provisional_number; Lit "."; Grp (Plus digit)].

(** The step references [PROVISIONALk.m] rewritten to [n.m]. *)
Definition rewrite_step_references (provisional_id new_artifact_id text : str)
  : str :=
  match re_search false provisional_number_re provisional_id with
  | None => text
  | Some pm =>
      match re_search false final_number_re new_artifact_id with
      | None => text
      | Some nm =>
          re_sub false (step_re (group pm 1))
            (fun groups => group nm 1 ++ "." ++ nth 0 groups []) text
      end
  end.

(** The loop of [_process_provisional_ids_filtered]; a [ValueError] is
    raised again. *)
Fixpoint process_filtered (content : str) (par : option str)
  (ids : list str) (a : alloc) : exc alloc :=
  match ids with
  | [] => Ok a
  | provisional_id :: rest =>
      match Types.parse_provisional_id artifact_types provisional_id with
      | Raise e => Raise e
      | Ok (artifact_type, _) =>
          let artifact_name := _extract_artifact_name content provisional_id in
          match get_artifact_id (files a) artifact_type artifact_name false par with
          | (Raise e, _) => Raise e
          | (Ok new_artifact_id, st') =>
              process_filtered content par rest
                (mkAlloc
                   (Headers.dict_set (id_mapping a) provisional_id
                      new_artifact_id)
                   (match artifact_name with
                    | Some nm =>
                        if is_empty nm then artifact_names a
                        else Headers.dict_set (artifact_names a)
                               new_artifact_id nm
                    | None => artifact_names a
                    end)
                   (rewrite_step_references provisional_id new_artifact_id
                      (re_sub false (whole_word_re provisional_id)
                         (fun _ => new_artifact_id) (updated_content a)))
                   (parent_for_nested a)
                   st')
          end
      end
  end.

Definition type_allowed (allowed_types : list str) (provisional_id : str)
  : bool :=
  match Types.parse_provisional_id artifact_types provisional_id with
  | Ok (artifact_type, _) => mem artifact_type allowed_types
  | Raise _ => false
  end.

Definition _process_provisional_ids_filtered (st : state) (content : str)
  (allowed_types : list str) (parent_artifact_id : option str) : exc alloc :=
  let found_ids := Types.find_provisional_artifact_ids artifact_types content in
  let provisional_ids :=
    match allowed_types with
    | [] => found_ids
    | _ :: _ => filter (type_allowed allowed_types) found_ids
    end in
  match provisional_ids with
  | [] => Ok (mkAlloc [] [] content parent_artifact_id st)
  | _ :: _ =>
      process_filtered content parent_artifact_id (sorted provisional_ids)
        (mkAlloc [] [] content parent_artifact_id st)
  end.

(** The first provisional ID of the mapping that occurs in the stem as a
    whole word is replaced there. *)
Fixpoint rename_stem (mapping : Headers.dict) (target_stem : str) : str :=
  match mapping with
  | [] => target_stem
  | (provisional_id, new_artifact_id) :: rest =>
      match re_search false (whole_word_re provisional_id) target_stem with
      | Some _ =>
          re_sub false (whole_word_re provisional_id)
            (fun _ => new_artifact_id) target_stem
      | None => rename_stem rest target_stem
      end
  end.

(** [[^a-z0-9]+] *)
Definition not_lower_alnum (c : ascii) : bool := negb (is_lower c || is_digit c).

Definition _generate_target_filename (provisional_file_path : str)
  (mapping : Headers.dict) (file_name_suffix : option str) : str :=
  let target_stem := rename_stem mapping (path_stem provisional_file_path) in
  let filename_ext := path_suffix provisional_file_path in
  let target_stem :=
    match file_name_suffix with
    | None => target_stem
    | Some sfx =>
        let s := lower (strip sfx) in
        let s := re_sub false (Plus not_lower_alnum) (fun _ => "_" : str) s in
        let s := strip_of (is_char "_"%char) s in
        if is_empty s then target_stem else target_stem ++ "_" ++ s
    end in
  target_stem ++ filename_ext.

Definition __version__ : str := "0.1.0".

Definition get_version_footer : str :=
  [LF; LF] ++ "<!-- ReSpecT v" ++ __version__ ++ " -->".

(** The result dictionary of [finalize_provisional_file]. *)
Record finalized : Type := mkFinalized
  { source_filename : option str;
    target : option str;
    id_mappings : Headers.dict;
    handler_called : bool }.

(** [handle_artifact_finalization] of the handler module, which is defined
    on top of this one: the main type, the main artifact ID, the mapping. *)
Variable handle_artifact_finalization :
  str -> str -> Headers.dict -> state -> bool * state.

Definition _find_provisional_file (st : state) (provisional_file_name : str)
  : exc file :=
  match prov st with
  | None => Raise FileNotFoundError
  | Some fs =>
      match rglob fs provisional_file_name with
      | f :: _ => Ok f
      | [] => Raise FileNotFoundError
      end
  end.

(** The first final ID of the mapping that starts with [TYPE-]. *)
Definition main_of_mapping (mapping : Headers.dict) (main_type : str)
  : option str :=
  option_map snd
    (find (fun kv => startswith (main_type ++ "-") (snd kv)) mapping).

Definition finalize_provisional_file (st : state)
  (provisional_file_name : str) (file_name_suffix : option str)
  : exc finalized * state :=
  if negb (env_prov_store st) then (Raise ValueError, st)
  else if negb (env_doc_root st) then (Raise ValueError, st)
  else
    match _find_provisional_file st provisional_file_name with
    | Raise e => (Raise e, st)
    | Ok (provisional_file_path, content) =>
        let a := _process_provisional_ids st content None in
        match id_mapping a with
        | [] =>
            (Ok (mkFinalized None None [] false), files a)
        | _ :: _ =>
            let target_filename :=
              _generate_target_filename provisional_file_path (id_mapping a)
                file_name_suffix in
            let final_content :=
              rstrip (updated_content a) ++ get_version_footer in
            let st1 :=
              set_repo (files a)
                (write_file (repo_files (files a)) target_filename
                   final_content) in
            let st2 :=
              match prov st1 with
              | Some ps => set_prov st1 (remove_file ps provisional_file_path)
              | None => st1
              end in
            let name := basename provisional_file_path in
            match Types.validate_provisional_filename artifact_types name with
            | None =>
                (Ok (mkFinalized (Some name) None (id_mapping a) false), st2)
            | Some main_type =>
                match main_of_mapping (id_mapping a) main_type with
                | None =>
                    (Ok (mkFinalized (Some name) None (id_mapping a) false),
                     st2)
                | Some main_artifact_id =>
                    let (ran, st3) :=
                      handle_artifact_finalization main_type main_artifact_id
                        (id_mapping a) st2 in
                    (Ok (mkFinalized (Some name) (Some main_artifact_id)
                           (id_mapping a) ran), st3)
                end
            end
        end
    end.

End WithRegistry.
End Manager.


(** ** [artifact_manager.py]: sections and test requirements of a document *)
Module Extracts.
Import PyStr Re.

(** [line.strip().startswith(f'### {artifact_id}:')] *)
Definition is_section_start (artifact_id line : str) : bool :=
  startswith ("### " ++ artifact_id ++ ":") (strip line).

(** The loop of [_extract_artifact_section]: the lines kept from [lines] on
    when the flag [in_section] has the given value. *)
Fixpoint section_lines (artifact_id : str) (in_section : bool)
  (lines : list str) : list str :=
  match lines with
  | [] => []
  | line :: rest =>
      if is_section_start artifact_id line
      then line :: section_lines artifact_id true rest
      else if in_section && startswith "### " (strip line) &&
              negb (is_section_start artifact_id line)
      then []
      else if in_section then line :: section_lines artifact_id in_section rest
      else section_lines artifact_id in_section rest
  end.

Definition _extract_artifact_section (content artifact_id : str) : str :=
  join [LF] (section_lines artifact_id false (split LF content)).

(** [^REQ-\d+$] *)
Definition req_id_re : regex := cat [Bol; Lit "REQ-"; Plus digit; Eol].

Definition looks_like_req (item : str) : bool :=
  match re_match false req_id_re item with
  | Some _ => true
  | None => false
  end.

(** The REQ IDs of a stripped [*Tests*:] line. *)
Definition tests_items (line_stripped : str) : list str :=
  let tests_text := strip (skipn (length ("*Tests*:" : str)) line_stripped) in
  if is_empty tests_text then []
  else filter looks_like_req (map strip (split COMMA tests_text)).

(** The loop of [_extract_test_requirements]: it stops at the first
    [*Tests*:] line. *)
Fixpoint first_tests_line (lines : list str) : list str :=
  match lines with
  | [] => []
  | line :: rest =>
      let line_stripped := strip line in
      if startswith "*Tests*:" line_stripped then tests_items line_stripped
      else first_tests_line rest
  end.

Definition _extract_test_requirements (artifact_content : str) : list str :=
  first_tests_line (split LF artifact_content).

(** *** Conditions used in the statements about sections and tests *)

(** A line that [_extract_artifact_section] keeps inside a section: a
    start line of the section, or a line that starts no [### ] heading. *)
Definition kept (id line : str) : bool :=
  is_section_start id line || negb (startswith "### " (strip line)).

(** The requirement IDs [REQ-d] of the given numbers. *)
Definition req_ids (ds : list str) : list str :=
  map (fun d => "REQ-" ++ d) ds.

(** The text is [REQ-] followed by digits. *)
Definition is_req_id (r : str) : bool :=
  startswith "REQ-" r && isdigit (skipn 4 r).

End Extracts.

(** ** File patterns: characters that stand for themselves *)
Module Patterns.
Import PyStr.

(** A character of a pattern that [fnmatch] compares as it is. *)
Definition literal (c : ascii) : bool :=
  negb (c =? "*")%char && negb (c =? "?")%char.

End Patterns.

(** ** [artifact_type_handler.py]: the per-type handlers *)
Module Handlers.
Import PyStr Re Manager.

(** [^(\[ \]) (STEP) (.+)$] *)
Definition step_pattern (step_number : str) : regex :=
  cat [Bol; Grp (Lit "[ ]"); Lit " "; Grp (Lit step_number); Lit " ";
       Grp (Plus dot); Eol].


(** The line is an unchecked line of the step: the pattern matches it. *)
Definition is_open_step (step_number line : str) : bool :=
  match re_match false (step_pattern step_number) line with
  | Some _ => true
  | None => false
  end.


(** [mark_step_done] of [ArtifactHandler], kept by the other handlers. *)
Definition default_mark_step_done (st : state) (artifact_id step_number : str)
  : outcome str * state :=
  (Failure Unsupported, st).

(** [\s*\([^)]*\)$] *)
Definition status_note_re : regex :=
  cat [Star space; Lit "("; Star (not_char ")"%char); Lit ")"; Eol].

Definition update_one_test (artifact_id status test : str) : str :=
  if startswith artifact_id test then
    re_sub false status_note_re (fun _ => []) test ++ " (" ++ status ++ ")"
  else test.

(** [_update_test_status_in_list] of the UACC and SACC handlers. *)
Definition _update_test_status_in_list (covering_tests_str artifact_id
  status : str) : str :=
  join [COMMA]
    (map (update_one_test artifact_id status)
       (map strip (split COMMA covering_tests_str))).

Definition update_status_in_index (st : state) (artifact_id status : str)
  : outcome unit * state :=
  if negb (env_doc_root st) then (Failure (Failed ValueError), st)
  else
    let (updated, f) :=
      Index.update_artifact (index_of st) artifact_id None (Some status)
        None None in
    if updated then (Success tt, set_index st f)
    else (Failure NotInIndex, st).

Section WithConfig.
Variable artifact_types : Types.registry.
Variable managed_header_items : Headers.header_items.

(** [update_status_content] of the UACC and SACC handlers. *)
Definition update_status_content (st : state) (artifact_id status : str)
  : outcome str * state :=
  match get_artifact st artifact_id with
  | Failure f => (Failure f, st)
  | Success r =>
      match Headers.update_managed_header artifact_types managed_header_items
              (content r) [("STATUS" : str, status)] with
      | Raise e => (Failure (Failed e), st)
      | Ok updated_content =>
          _update_non_file_artifact st artifact_id updated_content
      end
  end.

(** One REQ of the loop of [_update_covering_tests]: the REQ is rewritten
    when its COVERING_TESTS value mentions the artifact and changes. *)
Definition update_covering_req (artifact_id status : str)
  (acc : list str * state) (req_entry : Index.artifact) : list str * state :=
  let (updated_reqs, st) := acc in
  let req_id := Index.artifact_id req_entry in
  match get_artifact st req_id with
  | Failure _ => acc
  | Success r =>
      match Headers.parse_managed_headers artifact_types managed_header_items
              (content r) with
      | Raise _ => acc
      | Ok (req_header_line, req_headers, req_body) =>
          match Headers.dict_get req_headers "COVERING_TESTS" with
          | None => acc
          | Some covering_tests_str =>
              if is_empty covering_tests_str
                 || negb (contains artifact_id covering_tests_str)
              then acc
              else
                let updated_covering_tests :=
                  _update_test_status_in_list covering_tests_str artifact_id
                    status in
                if eqb updated_covering_tests covering_tests_str then acc
                else
                  match Headers.extract_artifact_type_and_id artifact_types
                          (content r) with
                  | Ok (Some (req_type, _)) =>
                      let applicable :=
                        Headers.get_managed_headers_for_type
                          managed_header_items req_type in
                      let updated_req_content :=
                        Headers.rebuild applicable req_header_line
                          (Headers.dict_set req_headers "COVERING_TESTS"
                             updated_covering_tests)
                          req_body in
                      match update_artifact artifact_types st req_id
                              updated_req_content with
                      | (Success _, st') => (updated_reqs ++ [req_id], st')
                      | (Failure _, st') => (updated_reqs, st')
                      end
                  | _ => acc
                  end
          end
      end
  end.

(** [_update_covering_tests]: the REQ artifacts that were rewritten. *)
Definition _update_covering_tests (st : state) (artifact_id status : str)
  : outcome (list str) * state :=
  if negb (env_doc_root st) then (Failure (Failed ValueError), st)
  else
    let req_artifacts :=
      filter (fun a => startswith "REQ-" (Index.artifact_id a))
        (Index.get_all_artifacts (index_of st)) in
    let (updated_reqs, st') :=
      fold_left (update_covering_req artifact_id status) req_artifacts
        ([], st) in
    (Success updated_reqs, st').

(** What [update_status] of the UACC and SACC handlers reports. *)
Record status_report : Type := mkReport
  { success : bool;
    index_updated : bool;
    content_updated : bool;
    covering_updated : list str }.

Definition is_success {A : Type} (o : outcome A) : bool :=
  match o with Success _ => true | Failure _ => false end.

Definition update_status (st : state) (artifact_id status : str)
  : status_report * state :=
  let (index_result, st1) := update_status_in_index st artifact_id status in
  let (content_result, st2) := update_status_content st1 artifact_id status in
  let (covering_test_result, st3) :=
    _update_covering_tests st2 artifact_id status in
  (mkReport (is_success content_result) (is_success index_result)
     (is_success content_result)
     (match covering_test_result with
      | Success reqs => reqs
      | Failure _ => []
      end),
   st3).

(** The keys of [ArtifactHandlerFactory._handlers]. *)
Definition handler_types : list str :=
  map list_ascii_of_string
    ["TASKPRD"; "PRD"; "REQ"; "TASK"; "UACC"; "SACC"]%string.

(** [finalize] of the PRD and TASKPRD handlers rewrites statuses and headers
    of the finalized documents; it is kept abstract here. *)
Variable prd_finalize : str -> Headers.dict -> state -> state.
Variable taskprd_finalize : str -> Headers.dict -> state -> state.

(** [handle_artifact_finalization]: whether a handler ran, and the files.
    The handlers of REQ, TASK, UACC and SACC keep the default [finalize],
    which changes nothing. *)
Definition handle_artifact_finalization (artifact_type artifact_id : str)
  (mapping : Headers.dict) (st : state) : bool * state :=
  let t := upper artifact_type in
  if eqb t "TASKPRD" then (true, taskprd_finalize artifact_id mapping st)
  else if eqb t "PRD" then (true, prd_finalize artifact_id mapping st)
  else if mem t handler_types then (true, st)
  else (false, st).

(** [ArtifactManager.finalize_provisional_file] with its handler hook. *)
Definition finalize_provisional_file (st : state)
  (provisional_file_name : str) (file_name_suffix : option str)
  : exc finalized * state :=
  Manager.finalize_provisional_file artifact_types
    handle_artifact_finalization st provisional_file_name file_name_suffix.

End WithConfig.
End Handlers.

(** ** A configuration and documents for the concrete instances

    The JSON configuration files are not part of the sources; this one has
    the shape that the docstrings of the header manager describe. *)
Module Sample.
Import PyStr.

Definition strs (l : list string) : list str := map list_ascii_of_string l.

(** Text given line by line. *)
Definition text (l : list string) : str := join [LF] (strs l).

Definition type_entry (code fmt : string) (can_update isf steps : bool)
  : str * Types.type_info :=
  (code : str, Types.mkTypeInfo (Some (fmt : str)) can_update isf steps).

Definition artifact_types : Types.registry :=
  [ type_entry "PRD" "# PRD-{id}: {description}" false true false;
    type_entry "TASKPRD" "# TASKPRD-{id}: {description}" false true false;
    type_entry "REQ" "### REQ-{id}: {description}" true false false;
    type_entry "TASK" "### TASK-{id}: {description}" true false true;
    type_entry "UACC" "### UACC-{id}: {description}" true false true;
    type_entry "SACC" "### SACC-{id}: {description}" true false true ].

Definition item_entry (key lbl kind : string) (types : list string)
  : str * Headers.header_item :=
  (key : str, Headers.mkHeaderItem lbl kind (strs types)).

Definition managed_header_items : Headers.header_items :=
  [ item_entry "STATUS" "Status" "atomic"
      ["PRD"; "TASKPRD"; "REQ"; "TASK"; "UACC"; "SACC"];
    item_entry "PARENT" "Parent" "atomic" ["REQ"; "TASK"; "UACC"; "SACC"];
    item_entry "REFERENCED_BY" "Referenced by" "list" ["PRD"];
    item_entry "IMPLEMENTING_TASKS" "Implementing Tasks" "list" ["REQ"];
    item_entry "COVERING_TESTS" "Covering Tests" "list" ["REQ"] ].

(** No finalize hook of a PRD or TASKPRD handler. *)
Definition no_finalize (artifact_id : str) (mapping : Headers.dict)
  (st : Manager.state) : Manager.state := st.

Definition empty_repo (drafts : list Manager.file) : Manager.state :=
  Manager.mkState true (Some []) true (Some drafts).

(** A ledger file with the given records after the preamble. *)
Definition index_text (records : list string) : str :=
  Index.initial_content ++ join [LF] (strs records) ++ [LF].

(** A repository with a ledger and documents, and an empty draft store. *)
Definition repo_with (records : list string) (docs : list Manager.file)
  : Manager.state :=
  Manager.mkState true
    (Some ((Manager.INDEX_PATH, index_text records) :: docs))
    true (Some []).

(** A product document that tools may not rewrite. *)
Definition prd_repo : Manager.state :=
  repo_with ["1,PRD-1,Product,,true,"]
    [("PRD-1_product.md" : str, text ["# PRD-1: Product"; ""; "Goals."])].

(** A requirement with document ID 7 nested in a product document. *)
Definition req7_repo : Manager.state :=
  repo_with ["3,PRD-3,Shop,,true,"; "7,REQ-7,Login,,false,PRD-3"]
    [("PRD-3_shop.md" : str,
      text ["# PRD-3: Shop"; ""; "### REQ-7: Login"; "Users log in."])].

Definition req7_entry : Index.artifact :=
  Index.mkArtifact "7" "REQ-7" (Some ("Login" : str)) None false
    (Some ("PRD-3" : str)).

(** A draft without any provisional ID. *)
Definition notes_draft : Manager.file :=
  ("notes.md" : str, text ["# Notes"; ""; "Nothing to allocate here."]).

(** A task draft with two steps that refer to the provisional number. *)
Definition task_draft_text : str :=
  text ["### TASK-PROVISIONAL1: Build the form";
        "[ ] PROVISIONAL1.1 Draw the form";
        "[ ] PROVISIONAL1.2 Wire the form"].

Definition task_draft : Manager.file :=
  ("TASK-PROVISIONAL1.md" : str, task_draft_text).

(** A requirement covered by the tests UACC-17 and UACC-170; the second
    test lives in another document. *)
Definition covered_repo : Manager.state :=
  repo_with
    ["1,PRD-1,Shop,,true,";
     "2,REQ-2,Login,,false,PRD-1";
     "17,UACC-17,Check login,NEW,false,PRD-1";
     "5,PRD-5,Admin,,true,";
     "170,UACC-170,Check logout,NEW,false,PRD-5"]
    [("PRD-1_shop.md" : str,
      text ["# PRD-1: Shop";
            "";
            "### REQ-2: Login";
            "`Covering Tests`: UACC-17 (NEW),UACC-170 (NEW)";
            "Users log in.";
            "";
            "### UACC-17: Check login";
            "`Status`: NEW";
            "*Tests*: REQ-2"]);
     ("PRD-5_admin.md" : str,
      text ["# PRD-5: Admin";
            "";
            "### UACC-170: Check logout";
            "`Status`: NEW";
            "*Tests*: REQ-2"])].





End Sample.

(* ================================================================== *)
(** * Part II: lemmas and theorems                                     *)
(* ================================================================== *)

(** ** Facts about the string primitives *)
Module StrFacts.
Import PyStr.

Lemma eqb_refl : forall a, eqb a a = true.
Proof.
  induction a as [|c a IH]; simpl; [reflexivity|].
  now rewrite Ascii.eqb_refl, IH.
Qed.

Lemma eqb_eq : forall a b, eqb a b = true <-> a = b.
Proof.
  induction a as [|x a IH]; destruct b as [|y b]; simpl; split; intro H;
    try reflexivity; try discriminate.
  - apply andb_true_iff in H as [H1 H2].
    apply Ascii.eqb_eq in H1. apply IH in H2. now subst.
  - injection H as -> ->. now rewrite Ascii.eqb_refl, eqb_refl.
Qed.

Lemma eqb_neq : forall a b, eqb a b = false <-> a <> b.
Proof.
  intros a b. split.
  - intros H E. apply eqb_eq in E. congruence.
  - intros H. destruct (eqb a b) eqn:E; [|reflexivity].
    apply eqb_eq in E. contradiction.
Qed.

(** [split] *)
Lemma split_nonempty : forall sep s, split sep s <> [].
Proof.
  intros sep s. destruct s as [|c s]; simpl; [discriminate|].
  destruct (c =? sep)%char; [discriminate|].
  destruct (split sep s); discriminate.
Qed.

Lemma split_app_sep : forall sep a b,
  split sep (a ++ sep :: b) = split sep a ++ split sep b.
Proof.
  intros sep a b. induction a as [|c a IH]; simpl.
  - now rewrite Ascii.eqb_refl.
  - destruct (c =? sep)%char.
    + now rewrite IH.
    + rewrite IH. destruct (split sep a) eqn:E.
      * now apply split_nonempty in E.
      * reflexivity.
Qed.

Lemma split_no_sep : forall sep s,
  forallb (fun c => negb (c =? sep)%char) s = true -> split sep s = [s].
Proof.
  intros sep s. induction s as [|c s IH]; simpl; intro H; [reflexivity|].
  apply andb_true_iff in H as [H1 H2].
  apply negb_true_iff in H1. rewrite H1, (IH H2). reflexivity.
Qed.

Lemma join_split : forall sep s, join [sep] (split sep s) = s.
Proof.
  intros sep s. induction s as [|c s IH]; simpl; [reflexivity|].
  destruct (c =? sep)%char eqn:E.
  - apply Ascii.eqb_eq in E. subst c.
    destruct (split sep s) eqn:Es; [now apply split_nonempty in Es|].
    simpl in *. now rewrite IH.
  - destruct (split sep s) as [|h t] eqn:Es; [now apply split_nonempty in Es|].
    simpl in *. destruct t; simpl in *; now rewrite <- IH.
Qed.

Lemma drop_while_app : forall p a b,
  drop_while p (a ++ b) =
  match drop_while p a with
  | [] => drop_while p b
  | _ :: _ => drop_while p a ++ b
  end.
Proof.
  intros p a b. induction a as [|c a IH]; simpl; [reflexivity|].
  destruct (p c); [exact IH|reflexivity].
Qed.

Lemma drop_while_all : forall p a,
  forallb p a = true -> drop_while p a = [].
Proof.
  intros p a. induction a as [|c a IH]; simpl; intro H; [reflexivity|].
  apply andb_true_iff in H as [H1 H2]. now rewrite H1, IH.
Qed.

Lemma drop_while_head : forall p c a,
  p c = false -> drop_while p (c :: a) = c :: a.
Proof. intros p c a H. simpl. now rewrite H. Qed.

Lemma drop_while_idem : forall p a,
  drop_while p (drop_while p a) = drop_while p a.
Proof.
  intros p a. induction a as [|c a IH]; simpl; [reflexivity|].
  destruct (p c) eqn:E; [exact IH|]. simpl. now rewrite E.
Qed.

Lemma forallb_rev : forall (p : ascii -> bool) l,
  forallb p (rev l) = forallb p l.
Proof.
  intros p l. induction l as [|c l IH]; simpl; [reflexivity|].
  rewrite forallb_app, IH. simpl. rewrite andb_true_r. apply andb_comm.
Qed.

Lemma rstrip_of_app : forall p x y,
  rstrip_of p y <> [] -> rstrip_of p (x ++ y) = x ++ rstrip_of p y.
Proof.
  intros p x y H. unfold rstrip_of in *.
  rewrite rev_app_distr, drop_while_app.
  destruct (drop_while p (rev y)) as [|c l] eqn:E.
  - now contradiction H.
  - now rewrite rev_app_distr, rev_involutive.
Qed.

Lemma rstrip_of_app_all : forall p x y,
  forallb p y = true -> rstrip_of p (x ++ y) = rstrip_of p x.
Proof.
  intros p x y H. unfold rstrip_of.
  rewrite rev_app_distr, drop_while_app, drop_while_all; [reflexivity|].
  now rewrite forallb_rev.
Qed.

Lemma rstrip_of_last : forall p x c,
  p c = false -> rstrip_of p (x ++ [c]) = x ++ [c].
Proof.
  intros p x c H. unfold rstrip_of.
  rewrite rev_app_distr. simpl. rewrite H. simpl.
  now rewrite rev_involutive.
Qed.

Lemma rstrip_of_nil : forall p, rstrip_of p [] = [].
Proof. reflexivity. Qed.

Lemma rstrip_of_idem : forall p x, rstrip_of p (rstrip_of p x) = rstrip_of p x.
Proof.
  intros p x. unfold rstrip_of. now rewrite rev_involutive, drop_while_idem.
Qed.

(** Decimal numerals *)
Lemma int_acc_cons : forall acc c s,
  is_digit c = true ->
  int_acc acc (c :: s) = int_acc (10 * acc + (ord c - 48))%N s.
Proof. intros acc c s H. simpl. now rewrite H. Qed.

Ltac digit_value :=
  match goal with
  | |- context [(ord ?c - 48)%N] =>
      let v := eval vm_compute in (ord c - 48)%N in
      change (ord c - 48)%N with v
  end.

Lemma int_acc_uint : forall d acc,
  int_acc (Npos acc) (str_of_uint d) = Some (Npos (Pos.of_uint_acc d acc)).
Proof.
  induction d; intros acc; cbn [str_of_uint Pos.of_uint_acc];
    try reflexivity;
    rewrite int_acc_cons by reflexivity; digit_value;
    rewrite <- IHd; f_equal; lia.
Qed.

Lemma int_acc_uint0 : forall d,
  int_acc 0%N (str_of_uint d) = Some (Pos.of_uint d).
Proof.
  induction d; cbn [str_of_uint Pos.of_uint]; try reflexivity;
    rewrite int_acc_cons by reflexivity; digit_value;
    [exact IHd | apply int_acc_uint ..].
Qed.

Lemma str_of_uint_digits : forall d, forallb is_digit (str_of_uint d) = true.
Proof. induction d; simpl; auto. Qed.

Lemma str_of_N_digits : forall n, forallb is_digit (str_of_N n) = true.
Proof. intros n. apply str_of_uint_digits. Qed.

Lemma str_of_N_nonempty : forall n, str_of_N n <> [].
Proof.
  intros [|p]; unfold str_of_N; simpl; [discriminate|].
  generalize (DecimalPos.Unsigned.to_uint_nonnil p).
  destruct (Pos.to_uint p); simpl; intros H; try discriminate.
  now contradiction H.
Qed.

Lemma isdigit_str_of_N : forall n, isdigit (str_of_N n) = true.
Proof.
  intros n. unfold isdigit. rewrite str_of_N_digits, andb_true_r.
  generalize (str_of_N_nonempty n). destruct (str_of_N n); [congruence|reflexivity].
Qed.

Lemma int_of_str_of_N : forall n, int_of_str (str_of_N n) = Some n.
Proof.
  intros n. unfold int_of_str.
  generalize (str_of_N_nonempty n).
  destruct (str_of_N n) eqn:E; [congruence|]. intros _.
  rewrite <- E. unfold str_of_N. rewrite int_acc_uint0.
  f_equal. apply DecimalN.Unsigned.of_to.
Qed.


(** More on stripping *)
Lemma digit_not_space : forall c, is_digit c = true -> is_space c = false.
Proof.
  intros [[] [] [] [] [] [] [] []]; intro H; try discriminate H; reflexivity.
Qed.

Lemma digit_plain : forall c, is_digit c = true -> Csv.needs_quote c = false.
Proof.
  intros [[] [] [] [] [] [] [] []]; intro H; try discriminate H; reflexivity.
Qed.

Lemma rstrip_of_cons : forall p c y,
  rstrip_of p (c :: y) =
  match rstrip_of p y with
  | [] => if p c then [] else [c]
  | _ :: _ => c :: rstrip_of p y
  end.
Proof.
  intros p c y. destruct (rstrip_of p y) as [|d t] eqn:E.
  - unfold rstrip_of in *. simpl. rewrite drop_while_app.
    destruct (drop_while p (rev y)) eqn:E'.
    + simpl. now destruct (p c).
    + apply (f_equal (@length ascii)) in E. rewrite length_rev in E.
      discriminate E.
  - change (c :: y) with ([c] ++ y). rewrite rstrip_of_app; [|congruence].
    now rewrite E.
Qed.

Lemma drop_while_result : forall p s c t,
  drop_while p s = c :: t -> p c = false.
Proof.
  induction s as [|x s IH]; intros c t H; simpl in H; [discriminate|].
  destruct (p x) eqn:E; [eauto|]. now injection H as <- _.
Qed.

Lemma strip_of_idem : forall p s, strip_of p (strip_of p s) = strip_of p s.
Proof.
  intros p s. unfold strip_of, lstrip_of.
  destruct (drop_while p s) as [|c y] eqn:E; [reflexivity|].
  apply drop_while_result in E.
  rewrite rstrip_of_cons.
  destruct (rstrip_of p y) as [|d t] eqn:Ey.
  - rewrite E. simpl. rewrite E. unfold rstrip_of. simpl. now rewrite E.
  - rewrite drop_while_head by exact E.
    rewrite <- Ey. rewrite rstrip_of_cons, rstrip_of_idem.
    now rewrite Ey.
Qed.

Lemma strip_idem : forall s, strip (strip s) = strip s.
Proof. apply strip_of_idem. Qed.

(** Text without leading or trailing character of the set is kept. *)
Lemma strip_of_clean : forall p c s d,
  p c = false -> p d = false -> strip_of p (c :: s ++ [d]) = c :: s ++ [d].
Proof.
  intros p c s d Hc Hd. unfold strip_of, lstrip_of.
  rewrite drop_while_head by exact Hc.
  change (c :: s ++ [d]) with ((c :: s) ++ [d]).
  now apply rstrip_of_last.
Qed.

Lemma strip_of_none : forall p s,
  forallb (fun c => negb (p c)) s = true -> strip_of p s = s.
Proof.
  intros p s H. destruct s as [|c s]; [reflexivity|].
  destruct (exists_last (l := c :: s)) as (s' & d & E); [discriminate|].
  rewrite E in *. rewrite forallb_app in H. apply andb_true_iff in H as [H1 H2].
  simpl in H2. rewrite andb_true_r in H2. apply negb_true_iff in H2.
  destruct s' as [|c' s'].
  - simpl. unfold strip_of, lstrip_of. simpl. rewrite H2.
    unfold rstrip_of. simpl. now rewrite H2.
  - simpl in H1. apply andb_true_iff in H1 as [H1 _].
    apply negb_true_iff in H1. now apply strip_of_clean.
Qed.

Lemma strip_digits : forall s, forallb is_digit s = true -> strip s = s.
Proof.
  intros s H. apply strip_of_none.
  rewrite forallb_forall in *. intros c Hc.
  apply negb_true_iff. apply digit_not_space. auto.
Qed.

Lemma strip_head_nonempty : forall c s,
  is_space c = false -> strip (c :: s) <> [].
Proof.
  intros c s H. unfold strip, strip_of, lstrip_of.
  rewrite drop_while_head by exact H. rewrite rstrip_of_cons.
  destruct (rstrip_of is_space s); [rewrite H|]; discriminate.
Qed.


Lemma rstrip_of_prefix : forall p s, exists t, s = rstrip_of p s ++ t.
Proof.
  intros p s. unfold rstrip_of.
  assert (H : forall l, exists t, l = t ++ drop_while p l).
  { induction l as [|c l [t IH]]; [now exists []|].
    simpl. destruct (p c); [exists (c :: t); simpl; now f_equal|now exists []]. }
  destruct (H (rev s)) as [t Ht].
  exists (rev t). rewrite <- rev_app_distr, <- Ht. now rewrite rev_involutive.
Qed.

Lemma existsb_rstrip : forall (q p : ascii -> bool) s,
  existsb q s = false -> existsb q (rstrip_of p s) = false.
Proof.
  intros q p s H. destruct (rstrip_of_prefix p s) as [t Ht].
  rewrite Ht in H. rewrite existsb_app in H.
  now apply orb_false_iff in H as [H _].
Qed.

Lemma rstrip_of_nonempty : forall p s c,
  In c s -> p c = false -> rstrip_of p s <> [].
Proof.
  intros p s c Hin Hc. induction s as [|d s IH]; [contradiction|].
  rewrite rstrip_of_cons. destruct Hin as [->|Hin].
  - destruct (rstrip_of p s); [rewrite Hc|]; discriminate.
  - specialize (IH Hin). destruct (rstrip_of p s); [congruence|discriminate].
Qed.

End StrFacts.

(** ** Reading in text mode *)
Module TextFacts.
Import PyStr TextMode.

(** A text without CR is read back as it was written. *)
Lemma read_back_unchanged : forall s,
  cr_free s = true -> universal_newlines s = s.
Proof.
  unfold cr_free. induction s as [|c s IH]; intros H; [reflexivity|].
  cbn [existsb] in H. apply negb_true_iff, orb_false_iff in H as [Hc Hs].
  cbn [universal_newlines]. rewrite Hc. f_equal. apply IH.
  now rewrite Hs.
Qed.

(** A CR, alone or before LF, is read back as LF. *)
Lemma read_back_cr : forall s,
  cr_free (universal_newlines s) = true.
Proof.
  assert (Hlf : is_char CR LF = false) by reflexivity.
  unfold cr_free. intros s. apply negb_true_iff.
  remember (length s) as n eqn:En. revert s En.
  induction n as [n IH] using lt_wf_ind. intros s En.
  destruct s as [|c s]; [reflexivity|]. cbn [universal_newlines].
  destruct (is_char CR c) eqn:Hc.
  - destruct s as [|d s]; [reflexivity|].
    destruct (is_char LF d); cbn [existsb]; rewrite Hlf; cbn [orb].
    + apply (IH (length s)); [subst n; simpl; lia|reflexivity].
    + apply (IH (length (d :: s))); [subst n; simpl; lia|reflexivity].
  - cbn [existsb]. rewrite Hc. cbn [orb].
    apply (IH (length s)); [subst n; simpl; lia|reflexivity].
Qed.

End TextFacts.

(** ** The csv reader on the lines that the writer produces *)
Module CsvFacts.
Import PyStr Csv StrFacts.

Lemma needs_quote_false : forall c,
  needs_quote c = false ->
  (c =? COMMA)%char = false /\ (c =? DQUOTE)%char = false /\
  (c =? CR)%char = false /\ (c =? LF)%char = false.
Proof.
  unfold needs_quote. intros c H.
  repeat (apply orb_false_iff in H as [H ?]). auto.
Qed.

Lemma plain_not_nl : forall c, needs_quote c = false -> is_nl c = false.
Proof.
  intros c H. apply needs_quote_false in H as (_ & _ & H1 & H2).
  unfold is_nl. now rewrite H1, H2.
Qed.

Lemma feed_app : forall a b r,
  feed r (a ++ b) =
  match feed r a with
  | Some r' => feed r' b
  | None => None
  end.
Proof.
  induction a as [|c a IH]; intros b r; simpl; [reflexivity|].
  destruct (parse_process_char r (Some c)); [apply IH|reflexivity].
Qed.

Lemma extends_refl : forall r, extends r r.
Proof. intros r. exists []. now rewrite app_nil_r. Qed.

Lemma extends_trans : forall a b c, extends a b -> extends b c -> extends a c.
Proof.
  intros a b c [l1 H1] [l2 H2]. exists (l1 ++ l2).
  now rewrite H2, H1, app_assoc.
Qed.

Lemma extends_set_state : forall st r, extends r (set_state st r).
Proof. intros st r. exists []. simpl. now rewrite app_nil_r. Qed.

Lemma extends_save : forall r, extends r (parse_save_field r).
Proof. intros r. now exists [r_field r]. Qed.

Lemma extends_add : forall r c r',
  parse_add_char r c = Some r' -> extends r r'.
Proof.
  unfold parse_add_char. intros r c r' H.
  destruct (field_limit <=? _)%N; [discriminate|].
  injection H as <-. exists []. simpl. now rewrite app_nil_r.
Qed.

Lemma extends_add_state : forall st r c r',
  option_map (set_state st) (parse_add_char r c) = Some r' -> extends r r'.
Proof.
  intros st r c r' H. destruct (parse_add_char r c) eqn:E; [|discriminate].
  injection H as <-. apply extends_add in E.
  eapply extends_trans; [exact E|apply extends_set_state].
Qed.

Create HintDb csv.
Local Hint Resolve extends_refl extends_set_state extends_save
  extends_add extends_add_state : csv.

Lemma extends_save_state : forall st r, extends r (set_state st (parse_save_field r)).
Proof. intros. now exists [r_field r]. Qed.
Local Hint Resolve extends_save_state : csv.

Lemma start_field_extends : forall r c r',
  start_field r c = Some r' -> extends r r'.
Proof.
  unfold start_field. intros r [x|] r' H.
  - destruct (is_nl x); [injection H as <-; auto with csv|].
    destruct (x =? DQUOTE)%char; [injection H as <-; auto with csv|].
    destruct (x =? COMMA)%char; [injection H as <-; auto with csv|].
    eauto with csv.
  - injection H as <-. auto with csv.
Qed.

Lemma process_char_extends : forall r c r',
  parse_process_char r c = Some r' -> extends r r'.
Proof.
  unfold parse_process_char. intros r c r' H.
  destruct (r_state r).
  - destruct c as [x|]; [|injection H as <-; auto with csv].
    destruct (is_nl x); [injection H as <-; auto with csv|].
    now apply start_field_extends in H.
  - now apply start_field_extends in H.
  - destruct c as [x|]; [|injection H as <-; auto with csv].
    destruct (is_nl x); [injection H as <-; auto with csv|].
    destruct (x =? COMMA)%char; [injection H as <-; auto with csv|].
    eauto with csv.
  - destruct c as [x|]; [|injection H as <-; auto with csv].
    destruct (x =? DQUOTE)%char; [injection H as <-; auto with csv|].
    eauto with csv.
  - destruct c as [x|]; [|injection H as <-; auto with csv].
    destruct (x =? DQUOTE)%char; [eauto with csv|].
    destruct (x =? COMMA)%char; [injection H as <-; auto with csv|].
    destruct (is_nl x); [injection H as <-; auto with csv|].
    eauto with csv.
  - destruct c as [x|]; [|injection H as <-; auto with csv].
    destruct (is_nl x); [injection H as <-; auto with csv|discriminate].
Qed.

Lemma feed_extends : forall s r r', feed r s = Some r' -> extends r r'.
Proof.
  induction s as [|c s IH]; intros r r' H; simpl in H.
  - injection H as <-. apply extends_refl.
  - destruct (parse_process_char r (Some c)) as [r1|] eqn:E; [|discriminate].
    apply process_char_extends in E. apply IH in H.
    eapply extends_trans; eauto.
Qed.

Lemma iternext_extends : forall lines r parts,
  iternext r lines = Some parts -> exists l, parts = r_fields r ++ l.
Proof.
  induction lines as [|l lines IH]; intros r parts H; simpl in H.
  - destruct (negb (is_empty (r_field r)) || in_quoted r); [|discriminate].
    injection H as <-. now exists [r_field r].
  - destruct (feed r l) as [r1|] eqn:E1; [|discriminate].
    destruct (parse_process_char r1 None) as [r2|] eqn:E2; [|discriminate].
    apply feed_extends in E1. apply process_char_extends in E2.
    destruct (extends_trans _ _ _ E1 E2) as [l0 H0].
    destruct (r_state r2);
      try (apply IH in H as [l1 H1]; exists (l0 ++ l1);
           now rewrite H1, H0, app_assoc).
    injection H as <-. now exists l0.
Qed.


(** *** Reading back the first fields of a written line *)

Lemma unquoted_in_field : forall x r rest res,
  existsb needs_quote x = false ->
  r_state r = IN_FIELD ->
  feed r (x ++ COMMA :: rest) = Some res ->
  feed (mkReader START_FIELD (r_fields r ++ [r_field r ++ x]) []) rest
  = Some res.
Proof.
  induction x as [|c x IH]; intros r rest res Hx Hst H.
  - simpl in H. unfold parse_process_char in H. rewrite Hst in H.
    change (is_nl COMMA) with false in H.
    change (COMMA =? COMMA)%char with true in H. cbn iota in H.
    now rewrite app_nil_r.
  - simpl in Hx. apply orb_false_iff in Hx as [Hc Hx].
    pose proof (plain_not_nl _ Hc) as Hnl.
    apply needs_quote_false in Hc as (Hcomma & _).
    simpl in H. unfold parse_process_char in H. rewrite Hst, Hnl, Hcomma in H.
    unfold parse_add_char in H.
    destruct (field_limit <=? _)%N; [discriminate|].
    apply IH in H; [|assumption|exact Hst].
    simpl in H. now rewrite <- app_assoc in H.
Qed.

Lemma start_record_as_field : forall r c,
  r_state r = START_RECORD -> is_nl c = false ->
  parse_process_char r (Some c) = start_field r (Some c).
Proof.
  intros r c H Hc. unfold parse_process_char. now rewrite H, Hc.
Qed.

Lemma process_at_start : forall r c,
  at_field_start r -> is_nl c = false ->
  parse_process_char r (Some c) = start_field r (Some c).
Proof.
  intros r c [[H|H] _] Hc.
  - now apply start_record_as_field.
  - unfold parse_process_char. now rewrite H.
Qed.

Lemma unquoted_field : forall x r rest res,
  existsb needs_quote x = false ->
  at_field_start r ->
  feed r (x ++ COMMA :: rest) = Some res ->
  feed (mkReader START_FIELD (r_fields r ++ [x]) []) rest = Some res.
Proof.
  intros x r rest res Hx Hr H. destruct x as [|c x].
  - simpl in H. rewrite process_at_start in H by (auto; reflexivity).
    unfold start_field in H.
    change (is_nl COMMA) with false in H.
    change (COMMA =? DQUOTE)%char with false in H.
    change (COMMA =? COMMA)%char with true in H. cbn iota in H.
    destruct Hr as [_ Hf]. unfold set_state, parse_save_field in H.
    simpl in H. now rewrite Hf in H.
  - simpl in Hx. apply orb_false_iff in Hx as [Hc Hx].
    pose proof (plain_not_nl _ Hc) as Hnl.
    apply needs_quote_false in Hc as (Hcomma & Hq & _).
    simpl in H. rewrite process_at_start in H by auto.
    unfold start_field in H. rewrite Hnl, Hq, Hcomma in H.
    unfold parse_add_char in H.
    destruct (field_limit <=? _)%N; [discriminate|]. simpl in H.
    apply unquoted_in_field in H; [|assumption|reflexivity].
    destruct Hr as [_ Hf]. simpl in H. now rewrite Hf in H.
Qed.

Lemma quoted_in_field : forall x r rest res,
  r_state r = IN_QUOTED_FIELD ->
  feed r (double_quotes x ++ DQUOTE :: COMMA :: rest) = Some res ->
  feed (mkReader START_FIELD (r_fields r ++ [r_field r ++ x]) []) rest
  = Some res.
Proof.
  induction x as [|c x IH]; intros r rest res Hst H.
  - simpl in H. unfold parse_process_char at 1 in H. rewrite Hst in H.
    change (DQUOTE =? DQUOTE)%char with true in H. cbn iota in H.
    unfold parse_process_char in H. simpl in H.
    change (DQUOTE =? DQUOTE)%char with true in H.
    change (COMMA =? DQUOTE)%char with false in H.
    change (COMMA =? COMMA)%char with true in H. cbn iota in H.
    now rewrite app_nil_r.
  - simpl in H. destruct (c =? DQUOTE)%char eqn:Ec.
    + apply Ascii.eqb_eq in Ec. subst c.
      simpl in H. unfold parse_process_char at 1 in H. rewrite Hst in H.
      change (DQUOTE =? DQUOTE)%char with true in H. cbn iota in H.
      unfold parse_process_char at 1 in H. simpl in H.
      change (DQUOTE =? DQUOTE)%char with true in H. cbn iota in H.
      unfold parse_add_char in H. simpl in H.
      destruct (field_limit <=? _)%N; [discriminate|]. simpl in H.
      apply IH in H; [|reflexivity].
      simpl in H. now rewrite <- app_assoc in H.
    + simpl in H. unfold parse_process_char at 1 in H. rewrite Hst, Ec in H.
      unfold parse_add_char in H.
      destruct (field_limit <=? _)%N; [discriminate|].
      apply IH in H; [|exact Hst].
      simpl in H. now rewrite <- app_assoc in H.
Qed.

Lemma quoted_field : forall x r rest res,
  at_field_start r ->
  feed r (DQUOTE :: double_quotes x ++ DQUOTE :: COMMA :: rest) = Some res ->
  feed (mkReader START_FIELD (r_fields r ++ [x]) []) rest = Some res.
Proof.
  intros x r rest res Hr H.
  simpl in H. rewrite process_at_start in H by (auto; reflexivity).
  unfold start_field in H.
  change (is_nl DQUOTE) with false in H.
  change (DQUOTE =? DQUOTE)%char with true in H. cbn iota in H.
  apply quoted_in_field in H; [|reflexivity].
  destruct Hr as [_ Hf]. simpl in H. now rewrite Hf in H.
Qed.

(** Whatever the field, the reader gives it back when followed by a comma. *)
Lemma written_field : forall x r rest res,
  at_field_start r ->
  feed r (write_field x ++ COMMA :: rest) = Some res ->
  feed (mkReader START_FIELD (r_fields r ++ [x]) []) rest = Some res.
Proof.
  intros x r rest res Hr H. unfold write_field in H.
  destruct (existsb needs_quote x) eqn:E.
  - simpl in H. rewrite <- app_assoc in H. simpl in H.
    change (match parse_process_char r (Some DQUOTE) with
            | Some r' => feed r' (double_quotes x ++ DQUOTE :: COMMA :: rest)
            | None => None
            end) with
      (feed r (DQUOTE :: double_quotes x ++ DQUOTE :: COMMA :: rest)) in H.
    now apply quoted_field in H.
  - now apply unquoted_field in H.
Qed.


Lemma stringio_single : forall s,
  s <> [] -> existsb (is_char LF) s = false -> stringio_lines s = [s].
Proof.
  induction s as [|c s IH]; intros Hne H; [congruence|].
  simpl in H. apply orb_false_iff in H as [Hc Hs]. unfold is_char in Hc.
  simpl. rewrite Hc. destruct s as [|d s]; [reflexivity|].
  rewrite IH; [reflexivity|discriminate|exact Hs].
Qed.

Lemma reader_next_prefix : forall doc aid rest parts,
  existsb needs_quote doc = false ->
  existsb (is_char LF) (doc ++ COMMA :: write_field aid ++ COMMA :: rest)
  = false ->
  reader_next (doc ++ COMMA :: write_field aid ++ COMMA :: rest) = Some parts ->
  exists l, parts = doc :: aid :: l.
Proof.
  intros doc aid rest parts Hdoc Hlf H. unfold reader_next in H.
  rewrite stringio_single in H; [|now destruct doc|exact Hlf].
  simpl in H.
  destruct (feed parse_reset _) as [r1|] eqn:E1; [|discriminate].
  apply unquoted_field in E1;
    [|exact Hdoc|split; [now left|reflexivity]].
  apply written_field in E1; [|split; [now right|reflexivity]].
  apply feed_extends in E1. destruct E1 as [l1 E1]. simpl in E1.
  destruct (parse_process_char r1 None) as [r2|] eqn:E2; [|discriminate].
  apply process_char_extends in E2. destruct E2 as [l2 E2].
  assert (Hr2 : r_fields r2 = doc :: aid :: (l1 ++ l2)).
  { rewrite E2, E1. simpl. reflexivity. }
  destruct (r_state r2);
    try (change (iternext r2 [] = Some parts) in H;
         apply iternext_extends in H as [l3 H3]; rewrite H3, Hr2;
         now exists ((l1 ++ l2) ++ l3)).
  injection H as <-. rewrite Hr2. now eexists.
Qed.

End CsvFacts.

(** ** The ledger: written lines are read back, document IDs are sequential *)
Module IndexFacts.
Import PyStr Csv Index StrFacts CsvFacts.

Lemma no_lf_app : forall a b, no_lf (a ++ b) <-> no_lf a /\ no_lf b.
Proof.
  intros a b. unfold no_lf. rewrite existsb_app. apply orb_false_iff.
Qed.

Lemma no_lf_cons : forall c a,
  no_lf (c :: a) <-> (c =? LF)%char = false /\ no_lf a.
Proof. intros c a. unfold no_lf. simpl. apply orb_false_iff. Qed.

Lemma double_quotes_no_lf : forall x, no_lf x -> no_lf (double_quotes x).
Proof.
  induction x as [|c x IH]; intro H; [exact H|].
  apply no_lf_cons in H as [Hc Hx]. simpl.
  destruct (c =? DQUOTE)%char; repeat (apply no_lf_cons; split); auto.
Qed.

Lemma write_field_no_lf : forall x, no_lf x -> no_lf (write_field x).
Proof.
  intros x H. unfold write_field. destruct (existsb needs_quote x); [|exact H].
  simpl. apply no_lf_cons. split; [reflexivity|].
  apply no_lf_app. split; [now apply double_quotes_no_lf|reflexivity].
Qed.

Lemma digits_plain : forall doc,
  forallb is_digit doc = true -> existsb needs_quote doc = false.
Proof.
  induction doc as [|c doc IH]; intro H; [reflexivity|].
  simpl in H. apply andb_true_iff in H as [Hc Hd].
  simpl. now rewrite (digit_plain _ Hc), IH.
Qed.

Lemma digits_no_lf : forall doc, forallb is_digit doc = true -> no_lf doc.
Proof.
  intros doc H. apply digits_plain in H. unfold no_lf.
  induction doc as [|c doc IH]; [reflexivity|].
  simpl in *. apply orb_false_iff in H as [Hc Hd].
  apply needs_quote_false in Hc as (_ & _ & _ & Hc).
  unfold is_char at 1. rewrite Hc. now apply IH.
Qed.

Lemma strip_row : forall d P Y0,
  is_space d = false -> In COMMA Y0 ->
  strip ((d :: P) ++ Y0 ++ [CR; LF]) = (d :: P) ++ rstrip Y0.
Proof.
  intros d P Y0 Hd Hin. unfold strip, strip_of, lstrip_of.
  change ((d :: P) ++ Y0 ++ [CR; LF]) with (d :: (P ++ Y0 ++ [CR; LF])).
  rewrite drop_while_head by exact Hd.
  change (d :: (P ++ Y0 ++ [CR; LF])) with ((d :: P) ++ (Y0 ++ [CR; LF])).
  assert (HY : rstrip_of is_space (Y0 ++ [CR; LF]) = rstrip_of is_space Y0)
    by (apply rstrip_of_app_all; reflexivity).
  rewrite (rstrip_of_app is_space (d :: P) (Y0 ++ [CR; LF])).
  - now rewrite HY.
  - rewrite HY. now apply rstrip_of_nonempty with (c := COMMA).
Qed.

(** The text of a ledger line: the document ID, the artifact ID as the
    writer renders it, then the other columns. *)
Lemma format_shape : forall doc aid nm st isf par,
  doc <> [] -> forallb is_digit doc = true ->
  no_lf aid -> no_lf (or_empty nm) -> no_lf (or_empty st) ->
  no_lf (or_empty par) ->
  exists rest,
    _format_index_line doc aid nm st isf par
    = doc ++ COMMA :: write_field aid ++ COMMA :: rest /\
    no_lf (doc ++ COMMA :: write_field aid ++ COMMA :: rest).
Proof.
  intros doc aid nm st isf par Hne Hd Haid Hnm Hst Hpar.
  set (tf := if isf then ("true" : str) else ("false" : str)).
  set (Y0 := write_field (or_empty nm) ++ COMMA ::
             write_field (or_empty st) ++ COMMA ::
             write_field tf ++ COMMA :: write_field (or_empty par)).
  assert (Htf : no_lf tf) by (unfold tf; destruct isf; reflexivity).
  assert (HY0 : no_lf Y0).
  { unfold Y0.
    repeat (apply no_lf_app; split; [now apply write_field_no_lf|];
            apply no_lf_cons; split; [reflexivity|]).
    now apply write_field_no_lf. }
  destruct doc as [|d doc']; [congruence|].
  assert (Hsp : is_space d = false).
  { simpl in Hd. apply andb_true_iff in Hd as [Hd _].
    now apply digit_not_space. }
  assert (Hrow : writerow [d :: doc'; aid; or_empty nm; or_empty st; tf; or_empty par]
                 = (d :: doc' ++ COMMA :: write_field aid ++ [COMMA])
                   ++ Y0 ++ [CR; LF]).
  { unfold writerow. cbn [map join]. unfold write_field at 1.
    rewrite (digits_plain _ Hd). unfold Y0.
    repeat (rewrite <- ?app_assoc; cbn [app]). reflexivity. }
  exists (rstrip Y0). unfold _format_index_line.
  change (strip (writerow [d :: doc'; aid; or_empty nm; or_empty st; tf; or_empty par])
          = (d :: doc') ++ COMMA :: write_field aid ++ COMMA :: rstrip Y0 /\
          no_lf ((d :: doc') ++ COMMA :: write_field aid ++ COMMA :: rstrip Y0)).
  rewrite Hrow. split.
  - rewrite strip_row; [|exact Hsp|].
    + repeat (rewrite <- ?app_assoc; cbn [app]). reflexivity.
    + unfold Y0. apply in_or_app. right. now left.
  - apply no_lf_app. split; [now apply digits_no_lf|].
    apply no_lf_cons. split; [reflexivity|].
    apply no_lf_app. split; [now apply write_field_no_lf|].
    apply no_lf_cons. split; [reflexivity|].
    now apply existsb_rstrip.
Qed.

Lemma plain_no_comma : forall x,
  existsb needs_quote x = false ->
  forallb (fun c => negb (c =? COMMA)%char) x = true.
Proof.
  induction x as [|c x IH]; intro H; [reflexivity|].
  simpl in H. apply orb_false_iff in H as [Hc Hx].
  apply needs_quote_false in Hc as (Hc & _).
  simpl. now rewrite Hc, IH.
Qed.

Lemma split_written : forall aid rest,
  strip aid <> [] ->
  exists p2 l,
    split COMMA (write_field aid ++ COMMA :: rest) = p2 :: l /\
    strip p2 <> [] /\
    (existsb needs_quote aid = false -> p2 = aid).
Proof.
  intros aid rest Hne. unfold write_field.
  destruct (existsb needs_quote aid) eqn:E.
  - cbn [app]. cbn [split].
    change (DQUOTE =? COMMA)%char with false. cbn iota.
    destruct (split COMMA ((double_quotes aid ++ [DQUOTE]) ++ COMMA :: rest))
      as [|h t] eqn:Es; [now apply split_nonempty in Es|].
    exists (DQUOTE :: h), t. split; [reflexivity|]. split; [|discriminate].
    now apply strip_head_nonempty.
  - rewrite split_app_sep, (split_no_sep COMMA aid) by now apply plain_no_comma.
    exists aid, (split COMMA rest). auto.
Qed.

Lemma csv_parts_prefix : forall doc aid rest,
  existsb needs_quote doc = false ->
  strip aid <> [] ->
  no_lf (doc ++ COMMA :: write_field aid ++ COMMA :: rest) ->
  exists p2 l,
    csv_parts (doc ++ COMMA :: write_field aid ++ COMMA :: rest)
    = doc :: p2 :: l /\
    strip p2 <> [] /\
    (existsb needs_quote aid = false -> p2 = aid).
Proof.
  intros doc aid rest Hdoc Hne Hlf. unfold csv_parts.
  destruct (reader_next _) as [parts|] eqn:E.
  - apply reader_next_prefix in E as [l ->]; [|exact Hdoc|exact Hlf].
    exists aid, l. auto.
  - rewrite split_app_sep, (split_no_sep COMMA doc) by now apply plain_no_comma.
    destruct (split_written aid rest Hne) as (p2 & l & -> & H1 & H2).
    exists p2, l. auto.
Qed.

Lemma entry_of_two_parts : forall doc p2 l,
  isdigit (strip doc) = true -> strip p2 <> [] ->
  exists a,
    entry_of_parts (doc :: p2 :: l) = Some a /\
    doc_id a = strip doc /\ artifact_id a = strip p2.
Proof.
  intros doc p2 l Hd Hp. unfold entry_of_parts.
  change (length (doc :: p2 :: l) <? length REQUIRED_COLUMNS)%nat with false.
  cbn iota.
  change (nth 0 (pad_to (length COLUMN_NAMES) (doc :: p2 :: l)) []) with doc.
  change (nth 1 (pad_to (length COLUMN_NAMES) (doc :: p2 :: l)) []) with p2.
  cbv zeta. rewrite Hd. cbn [negb].
  destruct (strip p2) eqn:E; [congruence|]. cbn [is_empty].
  eexists. split; [reflexivity|]. split; reflexivity.
Qed.

(** A written ledger line is read back as a record with the same document
    ID; the artifact ID comes back as well when it needs no quoting. *)
Lemma parse_written_line : forall doc aid rest,
  doc <> [] -> forallb is_digit doc = true ->
  strip aid <> [] ->
  no_lf (doc ++ COMMA :: write_field aid ++ COMMA :: rest) ->
  strip (doc ++ COMMA :: write_field aid ++ COMMA :: rest)
  = doc ++ COMMA :: write_field aid ++ COMMA :: rest ->
  exists a,
    _parse_index_line (doc ++ COMMA :: write_field aid ++ COMMA :: rest)
    = Some a /\
    doc_id a = doc /\
    (existsb needs_quote aid = false -> artifact_id a = strip aid).
Proof.
  intros doc aid rest Hne Hd Haid Hlf Hstrip.
  unfold _parse_index_line. rewrite Hstrip.
  assert (He : is_empty (doc ++ COMMA :: write_field aid ++ COMMA :: rest)
               = false) by now destruct doc.
  assert (Hc : existsb (is_char COMMA)
                 (doc ++ COMMA :: write_field aid ++ COMMA :: rest) = true).
  { rewrite existsb_app. apply orb_true_iff. right. reflexivity. }
  cbv zeta. rewrite He, Hc. cbn [negb orb].
  destruct (csv_parts_prefix doc aid rest (digits_plain _ Hd) Haid Hlf)
    as (p2 & l & -> & Hp & Hplain).
  destruct (entry_of_two_parts doc p2 l) as (a & Ha & Hdoc & Hid).
  - rewrite (strip_digits _ Hd). unfold isdigit. rewrite Hd.
    now destruct doc.
  - exact Hp.
  - exists a. split; [exact Ha|]. split.
    + now rewrite Hdoc, strip_digits.
    + intros Hq. now rewrite Hid, (Hplain Hq).
Qed.

Lemma parse_formatted : forall doc aid nm st isf par,
  doc <> [] -> forallb is_digit doc = true ->
  strip aid <> [] ->
  no_lf aid -> no_lf (or_empty nm) -> no_lf (or_empty st) ->
  no_lf (or_empty par) ->
  no_lf (_format_index_line doc aid nm st isf par) /\
  exists a,
    _parse_index_line (_format_index_line doc aid nm st isf par) = Some a /\
    doc_id a = doc /\
    (existsb needs_quote aid = false -> artifact_id a = strip aid).
Proof.
  intros doc aid nm st isf par Hne Hd Haid Hl1 Hl2 Hl3 Hl4.
  destruct (format_shape doc aid nm st isf par Hne Hd Hl1 Hl2 Hl3 Hl4)
    as (rest & Hshape & Hlf).
  assert (Hstrip : strip (_format_index_line doc aid nm st isf par)
                   = _format_index_line doc aid nm st isf par)
    by apply strip_idem.
  rewrite Hshape in *. split; [exact Hlf|].
  now apply parse_written_line.
Qed.

Lemma parse_lines_app : forall a b,
  parse_lines (a ++ b) = parse_lines a ++ parse_lines b.
Proof.
  induction a as [|l a IH]; intro b; simpl; [reflexivity|].
  destruct (_parse_index_line l); simpl; now rewrite IH.
Qed.

Lemma initial_content_empty : get_all_artifacts (Some initial_content) = [].
Proof. vm_compute. reflexivity. Qed.

Lemma ensure_same_artifacts : forall f,
  get_all_artifacts (_ensure_index_file_exists f) = get_all_artifacts f.
Proof. intros [c|]; [reflexivity|apply initial_content_empty]. Qed.

Lemma endswith_lf : forall c,
  endswith [LF] c = true -> exists c0, c = c0 ++ [LF].
Proof.
  intros c H. unfold endswith in H. change (rev [LF]) with [LF] in H.
  destruct (rev c) as [|y r] eqn:E; [discriminate|].
  cbn [startswith] in H. rewrite andb_true_r in H. apply Ascii.eqb_eq in H. subst y.
  exists (rev r). apply (f_equal (@rev ascii)) in E.
  rewrite rev_involutive in E. exact E.
Qed.

Lemma split_single_line : forall line,
  no_lf line -> split LF line = [line].
Proof.
  intros line H. apply split_no_sep. unfold no_lf in H.
  induction line as [|c l IH]; [reflexivity|].
  simpl in *. apply orb_false_iff in H as [Hc Hl]. unfold is_char in Hc.
  now rewrite Hc, IH.
Qed.

Lemma appended_artifacts : forall content line,
  no_lf line ->
  get_all_artifacts (Some (appended content line))
  = get_all_artifacts (Some content) ++
    match _parse_index_line line with Some a => [a] | None => [] end.
Proof.
  intros content line Hl. unfold appended, get_all_artifacts.
  assert (Htail : parse_lines (split LF (line ++ [LF]))
                  = match _parse_index_line line with
                    | Some a => [a] | None => [] end).
  { rewrite split_app_sep, split_single_line by exact Hl.
    simpl. change (_parse_index_line []) with (@None artifact).
    now destruct (_parse_index_line line). }
  destruct content as [|c0 content0] eqn:Ec.
  - simpl app. cbn [is_empty negb andb]. rewrite Htail. reflexivity.
  - rewrite <- Ec in *. cbn [is_empty negb andb].
    assert (Hne : is_empty content = false) by now rewrite Ec.
    rewrite Hne. cbn [negb andb].
    destruct (endswith [LF] content) eqn:Ee; cbn [negb].
    + apply endswith_lf in Ee as [c1 ->].
      rewrite <- app_assoc. cbn [app].
      rewrite (split_app_sep LF c1 (line ++ [LF])), parse_lines_app, Htail.
      rewrite (split_app_sep LF c1 []), parse_lines_app.
      change (parse_lines (split LF [])) with (@nil artifact).
      now rewrite app_nil_r.
    + cbn [app]. rewrite split_app_sep, parse_lines_app. f_equal. exact Htail.
Qed.


Lemma digits_int_acc : forall s acc,
  forallb is_digit s = true -> exists n, int_acc acc s = Some n.
Proof.
  induction s as [|c s IH]; intros acc H; simpl; [eauto|].
  simpl in H. apply andb_true_iff in H as [Hc Hs]. rewrite Hc. now apply IH.
Qed.

Lemma isdigit_int : forall s,
  isdigit s = true -> exists n, int_of_str s = Some n.
Proof.
  intros s H. unfold isdigit in H. apply andb_true_iff in H as [Hne Hd].
  destruct s as [|c s]; [discriminate|].
  unfold int_of_str. now apply digits_int_acc.
Qed.

Lemma entry_digits : forall parts a,
  entry_of_parts parts = Some a -> isdigit (doc_id a) = true.
Proof.
  unfold entry_of_parts. intros parts a H.
  destruct (length parts <? length REQUIRED_COLUMNS)%nat; [discriminate|].
  cbv zeta in H.
  destruct (isdigit (strip (nth 0 (pad_to (length COLUMN_NAMES) parts) [])))
    eqn:E; [|discriminate].
  cbn [negb] in H.
  destruct (is_empty (strip (nth 1 (pad_to (length COLUMN_NAMES) parts) [])));
    [discriminate|].
  injection H as <-. exact E.
Qed.

Lemma parsed_digits : forall line a,
  _parse_index_line line = Some a -> isdigit (doc_id a) = true.
Proof.
  unfold _parse_index_line. intros line a H. cbv zeta in H.
  destruct (is_empty (strip line) || _); [discriminate|].
  now apply entry_digits in H.
Qed.

Lemma parse_lines_digits : forall lines a,
  In a (parse_lines lines) -> isdigit (doc_id a) = true.
Proof.
  induction lines as [|l lines IH]; intros a H; [contradiction|].
  simpl in H. destruct (_parse_index_line l) eqn:E; [|auto].
  destruct H as [<-|H]; [now apply parsed_digits in E|auto].
Qed.

Lemma all_parsed_digits : forall f a,
  In a (get_all_artifacts f) -> isdigit (doc_id a) = true.
Proof.
  intros [c|] a H; [|contradiction]. now apply parse_lines_digits in H.
Qed.

(** Every record of the ledger has a document number. *)
Lemma doc_numbers_defined : forall arts,
  (forall a, In a arts -> isdigit (doc_id a) = true) ->
  exists ns, doc_numbers arts = map Some ns.
Proof.
  induction arts as [|a arts IH]; intro H; [now exists []|].
  destruct IH as [ns Hns]; [intros; apply H; now right|].
  destruct (isdigit_int (doc_id a)) as [n Hn]; [apply H; now left|].
  exists (n :: ns). simpl. now rewrite Hn, Hns.
Qed.

Lemma max_doc_id_max_of : forall arts ns acc,
  doc_numbers arts = map Some ns ->
  max_doc_id acc arts = N.max acc (max_of ns).
Proof.
  induction arts as [|a arts IH]; intros ns acc H.
  - destruct ns; [|discriminate]. simpl. now rewrite N.max_0_r.
  - destruct ns as [|n ns]; [discriminate|].
    simpl in H. injection H as Hn Hns.
    simpl. rewrite Hn, (IH ns) by exact Hns. apply eq_sym, N.max_assoc.
Qed.

Lemma next_doc_id_of_numbers : forall f ns,
  doc_numbers (get_all_artifacts f) = map Some ns ->
  fst (get_next_doc_id f) = (max_of ns + 1)%N.
Proof.
  intros f ns H. unfold get_next_doc_id. rewrite ensure_same_artifacts.
  destruct (get_all_artifacts f) as [|a arts] eqn:E.
  - destruct ns; [reflexivity|discriminate].
  - cbn [fst]. rewrite (max_doc_id_max_of _ ns) by exact H.
    now rewrite N.max_0_l.
Qed.

Lemma next_doc_id_file : forall f,
  snd (get_next_doc_id f) = _ensure_index_file_exists f.
Proof.
  intros f. unfold get_next_doc_id.
  now destruct (get_all_artifacts (_ensure_index_file_exists f)).
Qed.






Lemma next_doc_id_ensure : forall f,
  get_next_doc_id (_ensure_index_file_exists f)
  = (fst (get_next_doc_id f), _ensure_index_file_exists f).
Proof.
  intros f. rewrite (surjective_pairing (get_next_doc_id _)).
  rewrite next_doc_id_file. f_equal.
  - unfold get_next_doc_id. cbn [fst].
    now destruct f.
  - now destruct f.
Qed.

(** A call that is not refused appends one record, which carries the
    next document ID. *)
Lemma add_artifact_appends : forall f aid nm st isf par,
  strip aid <> [] -> no_lf aid -> no_lf (or_empty nm) ->
  no_lf (or_empty st) -> no_lf (or_empty par) ->
  get_artifact_by_id f aid = None ->
  exists content' a,
    add_artifact f aid nm st isf par
    = Ok (str_of_N (fst (get_next_doc_id f)), Some content') /\
    get_all_artifacts (Some content') = get_all_artifacts f ++ [a] /\
    doc_id a = str_of_N (fst (get_next_doc_id f)) /\
    (existsb needs_quote aid = false -> artifact_id a = strip aid).
Proof.
  intros f aid nm st isf par Haid Hl1 Hl2 Hl3 Hl4 Hnone.
  unfold add_artifact. rewrite Hnone, next_doc_id_ensure.
  set (doc := str_of_N (fst (get_next_doc_id f))).
  set (line := _format_index_line doc aid nm st isf par).
  destruct (parse_formatted doc aid nm st isf par)
    as (Hlf & a & Ha & Hdoc & Hid); try assumption.
  { apply str_of_N_nonempty. }
  { apply str_of_N_digits. }
  exists (appended (or_empty (_ensure_index_file_exists f)) line), a.
  split; [reflexivity|]. split; [|split; assumption].
  rewrite appended_artifacts by exact Hlf.
  fold line in Ha. rewrite Ha. f_equal.
  destruct f as [c|]; [reflexivity|].
  cbn [_ensure_index_file_exists or_empty].
  now rewrite initial_content_empty.
Qed.

Lemma add_artifact_refused : forall f aid nm st isf par a,
  get_artifact_by_id f aid = Some a ->
  add_artifact f aid nm st isf par = Raise ValueError.
Proof. intros. unfold add_artifact. now rewrite H. Qed.








End IndexFacts.

(** ** The artifact manager: allocation, resolution, updates, finalization *)
Module ManagerFacts.
Import PyStr Index Types Manager StrFacts CsvFacts IndexFacts.

Lemma read_write_same : forall fs p c, read_file (write_file fs p c) p = Some c.
Proof.
  induction fs as [|[q d] fs IH]; intros p c; simpl.
  - now rewrite eqb_refl.
  - destruct (eqb q p) eqn:E; simpl; rewrite E; [reflexivity|apply IH].
Qed.

Lemma index_of_set_index : forall st c,
  index_of (set_index st (Some c)) = Some c.
Proof. intros st c. unfold index_of, set_index. simpl. apply read_write_same. Qed.

Lemma index_of_write : forall st fs c,
  index_of (set_repo st (write_file fs INDEX_PATH c)) = Some c.
Proof. intros st fs c. unfold index_of. simpl. apply read_write_same. Qed.

Lemma mem_In : forall x l, mem x l = true -> In x l.
Proof.
  intros x l H. unfold mem in H. apply existsb_exists in H as (y & Hy & E).
  apply eqb_eq in E. now subst.
Qed.

Lemma to_upper_idem : forall c, to_upper (to_upper c) = to_upper c.
Proof. intros [[] [] [] [] [] [] [] []]; reflexivity. Qed.

Lemma upper_idem : forall s, upper (upper s) = upper s.
Proof.
  intros s. unfold upper. rewrite map_map. apply map_ext. apply to_upper_idem.
Qed.

Lemma id_char_plain : forall c,
  id_char c = true -> is_space c = false /\ Csv.needs_quote c = false.
Proof.
  intros [[] [] [] [] [] [] [] []]; intro H; try discriminate H; split; reflexivity.
Qed.

Lemma id_chars_clean : forall s,
  forallb id_char s = true ->
  strip s = s /\ no_lf s /\ existsb Csv.needs_quote s = false.
Proof.
  intros s H. split; [|split].
  - apply strip_of_none. rewrite forallb_forall in *. intros c Hc.
    apply negb_true_iff. now apply id_char_plain, H.
  - unfold no_lf. induction s as [|c s IH]; [reflexivity|].
    simpl in *. apply andb_true_iff in H as [Hc Hs].
    apply id_char_plain in Hc as [_ Hc].
    apply needs_quote_false in Hc as (_ & _ & _ & Hlf).
    unfold is_char at 1. rewrite Hlf. now apply IH.
  - induction s as [|c s IH]; [reflexivity|].
    simpl in *. apply andb_true_iff in H as [Hc Hs].
    apply id_char_plain in Hc as [_ Hc]. rewrite Hc. now apply IH.
Qed.

Lemma allocated_id_chars : forall T n,
  forallb is_upper T = true ->
  forallb id_char (T ++ "-" ++ str_of_N n) = true.
Proof.
  intros T n HT. rewrite !forallb_app. apply andb_true_iff. split.
  - rewrite forallb_forall in *. intros c Hc. unfold id_char.
    now rewrite (HT c Hc).
  - apply andb_true_iff. split; [reflexivity|].
    pose proof (str_of_N_digits n) as Hd. rewrite forallb_forall in *.
    intros c Hc. unfold id_char. rewrite (Hd c Hc). apply orb_true_r.
Qed.

Lemma find_app_none : forall (A : Type) (p : A -> bool) l1 l2,
  find p l1 = None -> find p (l1 ++ l2) = find p l2.
Proof.
  intros A p l1 l2. induction l1 as [|x l1 IH]; simpl; [reflexivity|].
  destruct (p x); [discriminate|exact IH].
Qed.


Lemma valid_type_code : forall reg t T,
  upper_codes reg = true ->
  validate_and_normalize_artifact_type reg t = Ok T ->
  forallb is_upper T = true.
Proof.
  intros reg t T Hreg H. unfold validate_and_normalize_artifact_type in H.
  destruct (is_empty t || is_empty (strip t)); [discriminate|].
  destruct (is_valid_artifact_type reg (upper (strip t))) eqn:E; [|discriminate].
  injection H as <-. unfold is_valid_artifact_type in E.
  rewrite upper_idem in E. apply mem_In in E.
  unfold get_valid_artifact_types in E. apply in_map_iff in E as (p & Hp & Hin).
  unfold upper_codes in Hreg. rewrite forallb_forall in Hreg.
  rewrite <- Hp. now apply Hreg.
Qed.

Lemma add_artifact_doc : forall f aid nm st isf par d f',
  add_artifact f aid nm st isf par = Ok (d, f') ->
  d = str_of_N (fst (get_next_doc_id f)) /\ exists c', f' = Some c'.
Proof.
  intros f aid nm st isf par d f' H. unfold add_artifact in H.
  destruct (get_artifact_by_id f aid); [discriminate|].
  rewrite next_doc_id_ensure in H. injection H as <- <-. eauto.
Qed.

(** Claim C10.  An artifact ID allocated by [get_artifact_id] is [TYPE-N]
    where [TYPE] is the normalized type and [N] is the document ID that
    [add_artifact] assigns to the new ledger record.  When the type codes of
    the registry are upper-case words and the name and the parent hold no
    line break, the record found under the new artifact ID in the index
    afterwards carries that artifact ID and the document ID [N]. *)
Theorem allocated_id_suffix_is_doc_id :
  forall reg st artifact_type artifact_name isf par artifact_id st',
    get_artifact_id reg st artifact_type artifact_name isf par
    = (Ok artifact_id, st') ->
    exists T n,
      validate_and_normalize_artifact_type reg artifact_type = Ok T /\
      artifact_id = T ++ "-" ++ str_of_N n /\
      add_artifact (_ensure_index_file_exists (index_of st)) artifact_id
        artifact_name None isf par
      = Ok (str_of_N n, index_of st') /\
      (upper_codes reg = true ->
       single_line (or_empty artifact_name) = true ->
       single_line (or_empty par) = true ->
       exists entry,
         get_artifact_by_id (index_of st') artifact_id = Some entry /\
         Index.artifact_id entry = artifact_id /\
         doc_id entry = str_of_N n).
Proof.
  intros reg st ty nm isf par aid st' H.
  unfold get_artifact_id in H.
  destruct (validate_and_normalize_artifact_type reg ty) as [T|e] eqn:ET;
    [|discriminate].
  rewrite (surjective_pairing (get_next_doc_id (index_of st))) in H.
  rewrite next_doc_id_file in H.
  set (n := fst (get_next_doc_id (index_of st))) in *.
  set (id := T ++ "-" ++ str_of_N n) in *.
  assert (Hf1 : exists c1, _ensure_index_file_exists (index_of st) = Some c1)
    by (destruct (index_of st); simpl; eauto).
  destruct Hf1 as [c1 Hc1]. rewrite Hc1 in *.
  rewrite index_of_set_index in H.
  assert (Hn : fst (get_next_doc_id (Some c1)) = n).
  { rewrite <- Hc1, next_doc_id_ensure. reflexivity. }
  destruct (add_artifact (Some c1) id nm None isf par) as [[d f2]|e] eqn:Eadd;
    [|discriminate].
  destruct (add_artifact_doc _ _ _ _ _ _ _ _ Eadd) as [Hd [c2 ->]].
  rewrite Hn in Hd. subst d.
  injection H as <- <-.
  exists T, n. split; [reflexivity|]. split; [reflexivity|].
  unfold set_index. rewrite index_of_write. split; [exact Eadd|].
  intros Hreg Hnm Hpar.
  pose proof (valid_type_code _ _ _ Hreg ET) as HT.
  destruct (id_chars_clean id (allocated_id_chars T n HT)) as (Hs & Hlf & Hq).
  destruct (get_artifact_by_id (Some c1) id) as [a0|] eqn:E0.
  { rewrite (add_artifact_refused _ _ _ _ _ _ a0 E0) in Eadd. discriminate. }
  assert (Hne : strip id <> []) by (rewrite Hs; unfold id; now destruct T).
  assert (Hnm' : no_lf (or_empty nm))
    by (unfold single_line in Hnm; now apply negb_true_iff in Hnm).
  assert (Hpar' : no_lf (or_empty par))
    by (unfold single_line in Hpar; now apply negb_true_iff in Hpar).
  destruct (add_artifact_appends (Some c1) id nm None isf par
              Hne Hlf Hnm' eq_refl Hpar' E0)
    as (c3 & a & Hadd & Hall & Hdoc & Hid).
  rewrite Hadd in Eadd. injection Eadd as _ E3. subst c3.
  exists a. rewrite Hn in Hdoc. specialize (Hid Hq). rewrite Hs in Hid.
  rewrite ?Hn. split; [|split; assumption].
  unfold get_artifact_by_id in *. rewrite Hall.
  rewrite find_app_none by exact E0.
  simpl. now rewrite Hid, eqb_refl.
Qed.

Lemma allocated_id_suffix_is_doc_id_witness :
  exists T n,
    validate_and_normalize_artifact_type Sample.artifact_types "req" = Ok T /\
    ("REQ-1" : str) = T ++ "-" ++ str_of_N n /\
    add_artifact
      (_ensure_index_file_exists (index_of (Sample.empty_repo [])))
      "REQ-1" (Some ("Login" : str)) None false None
    = Ok (str_of_N n,
          index_of
            (snd (get_artifact_id Sample.artifact_types (Sample.empty_repo [])
                    "req" (Some ("Login" : str)) false None))) /\
    (upper_codes Sample.artifact_types = true ->
     single_line (or_empty (Some ("Login" : str))) = true ->
     single_line (or_empty None) = true ->
     exists entry,
       get_artifact_by_id
         (index_of
            (snd (get_artifact_id Sample.artifact_types (Sample.empty_repo [])
                    "req" (Some ("Login" : str)) false None)))
         "REQ-1" = Some entry /\
       Index.artifact_id entry = "REQ-1" /\
       doc_id entry = str_of_N n).
Proof.
  apply (allocated_id_suffix_is_doc_id Sample.artifact_types
           (Sample.empty_repo []) "req" (Some ("Login" : str)) false None).
  vm_compute. reflexivity.
Defined.

Lemma find_none_iff : forall (A : Type) (p : A -> bool) l,
  find p l = None <-> forall x, In x l -> p x = false.
Proof.
  intros A p l. split.
  - intros H x Hx. now apply (find_none p l H).
  - induction l as [|y l IH]; intro H; [reflexivity|].
    simpl. rewrite (H y) by now left. apply IH. intros x Hx. apply H. now right.
Qed.

Lemma find_unique : forall (A B : Type) (key : A -> B) (p : A -> bool) l e,
  NoDup (map key l) ->
  (forall x y, p x = true -> p y = true -> key x = key y) ->
  In e l -> p e = true -> find p l = Some e.
Proof.
  intros A B key p l e Hnd Hkey. induction l as [|y l IH]; intros Hin He.
  - contradiction.
  - simpl. destruct (p y) eqn:Ey.
    + destruct Hin as [->|Hin]; [reflexivity|].
      simpl in Hnd. inversion Hnd as [|k ks Hnotin _]. subst.
      exfalso. apply Hnotin. rewrite (Hkey y e Ey He). now apply in_map.
    + destruct Hin as [->|Hin]; [congruence|].
      inversion Hnd. now apply IH.
Qed.

Lemma resolve_in_index : forall st identifier artifact_id,
  resolve_artifact_identifier st identifier = Some artifact_id ->
  exists a, In a (get_all_artifacts (index_of st)) /\
            Index.artifact_id a = artifact_id.
Proof.
  intros st i aid H. unfold resolve_artifact_identifier in H.
  destruct (isdigit i).
  - destruct (find _ _) as [a|] eqn:E; [|discriminate].
    injection H as <-. apply find_some in E as [Hin _]. eauto.
  - destruct (existsb _ _) eqn:E; [|discriminate].
    injection H as <-. apply existsb_exists in E as (a & Hin & Ha).
    apply eqb_eq in Ha. eauto.
Qed.

Lemma resolved_is_indexed : forall st identifier artifact_id,
  resolve_artifact_identifier st identifier = Some artifact_id ->
  exists info, get_artifact_by_id (index_of st) artifact_id = Some info.
Proof.
  intros st i aid H. apply resolve_in_index in H as (a & Hin & Ha).
  unfold get_artifact_by_id.
  destruct (find _ _) as [info|] eqn:E; [eauto|].
  rewrite find_none_iff in E. specialize (E a Hin).
  cbv beta in E. rewrite Ha, eqb_refl in E. discriminate.
Qed.

(** Claim C4.  When the identifier resolves to an artifact whose type has
    [can_tool_update] false, [update_artifact] returns the failure
    UpdateNotAllowed whatever the new content, and the files are the same
    as before: the check comes before any write. *)
Theorem update_refused_without_can_tool_update :
  forall reg st identifier new_content artifact_id artifact_type,
    resolve_artifact_identifier st identifier = Some artifact_id ->
    get_artifact_type_from_id reg artifact_id = Ok artifact_type ->
    can_tool_update reg artifact_type = Ok false ->
    update_artifact reg st identifier new_content
    = (Failure UpdateNotAllowed, st).
Proof.
  intros reg st i new_content aid t Hres Htype Hflag.
  unfold update_artifact. rewrite Hres.
  destruct (resolved_is_indexed _ _ _ Hres) as [info ->].
  now rewrite Htype, Hflag.
Qed.

(** Claim C7.  A purely numeric token resolves to the artifact ID of the
    index record with that document ID (document IDs being pairwise
    distinct), and to nothing when no record has it; any other token
    resolves to its upper-cased form when a record has that artifact ID,
    and to nothing otherwise.  In particular, with a record of artifact ID
    REQ-7 and document ID 7, both 7 and req-7 resolve to REQ-7. *)
Theorem resolve_identifier_lookup :
  forall st token,
    let arts := get_all_artifacts (index_of st) in
    (isdigit token = true ->
     (forall e, NoDup (map doc_id arts) -> In e arts -> doc_id e = token ->
        resolve_artifact_identifier st token = Some (Index.artifact_id e)) /\
     ((forall e, In e arts -> doc_id e <> token) ->
        resolve_artifact_identifier st token = None)) /\
    (isdigit token = false ->
     (forall e, In e arts -> Index.artifact_id e = upper token ->
        resolve_artifact_identifier st token = Some (upper token)) /\
     ((forall e, In e arts -> Index.artifact_id e <> upper token) ->
        resolve_artifact_identifier st token = None)) /\
    (forall e, NoDup (map doc_id arts) -> In e arts ->
       doc_id e = "7" -> Index.artifact_id e = "REQ-7" ->
       resolve_artifact_identifier st "7" = Some ("REQ-7" : str) /\
       resolve_artifact_identifier st "req-7" = Some ("REQ-7" : str)).
Proof.
  intros st token arts.
  assert (Hnum : forall tok e, isdigit tok = true ->
            NoDup (map doc_id arts) -> In e arts -> doc_id e = tok ->
            resolve_artifact_identifier st tok = Some (Index.artifact_id e)).
  { intros tok e Hd Hnd Hin He. unfold resolve_artifact_identifier.
    rewrite Hd. fold arts.
    rewrite (find_unique _ _ doc_id _ arts e Hnd); [reflexivity| |exact Hin|].
    - intros x y Hx Hy. apply eqb_eq in Hx, Hy. congruence.
    - apply eqb_eq. exact He. }
  assert (Hid : forall tok e, isdigit tok = false ->
            In e arts -> Index.artifact_id e = upper tok ->
            resolve_artifact_identifier st tok = Some (upper tok)).
  { intros tok e Hd Hin He. unfold resolve_artifact_identifier.
    rewrite Hd. fold arts.
    replace (existsb _ arts) with true; [reflexivity|].
    symmetry. apply existsb_exists. exists e. split; [exact Hin|].
    now apply eqb_eq. }
  split; [|split].
  - intros Hd. split; [intros e; now apply Hnum|].
    intros Hno. unfold resolve_artifact_identifier. rewrite Hd. fold arts.
    replace (find _ arts) with (@None artifact); [reflexivity|].
    symmetry. apply find_none_iff. intros x Hx. apply eqb_neq. now apply Hno.
  - intros Hd. split; [intros e; now apply Hid|].
    intros Hno. unfold resolve_artifact_identifier. rewrite Hd. fold arts.
    replace (existsb _ arts) with false; [reflexivity|].
    symmetry. apply not_true_is_false. intro Hex.
    apply existsb_exists in Hex as (x & Hx & E). apply eqb_eq in E.
    now apply (Hno x Hx).
  - intros e Hnd Hin Hdoc Haid. split.
    + rewrite <- Haid. now apply Hnum.
    + now apply (Hid "req-7" e).
Qed.

Lemma update_refused_without_can_tool_update_witness :
  update_artifact Sample.artifact_types Sample.prd_repo "PRD-1" "Rewritten."
  = (Failure UpdateNotAllowed, Sample.prd_repo).
Proof.
  apply (update_refused_without_can_tool_update Sample.artifact_types
           Sample.prd_repo "PRD-1" "Rewritten." "PRD-1" "PRD");
    vm_compute; reflexivity.
Defined.

Lemma resolve_identifier_lookup_witness :
  resolve_artifact_identifier Sample.req7_repo "7" = Some ("REQ-7" : str) /\
  resolve_artifact_identifier Sample.req7_repo "req-7" = Some ("REQ-7" : str).
Proof.
  apply (proj2 (proj2 (resolve_identifier_lookup Sample.req7_repo "7"))
           Sample.req7_entry).
  - vm_compute. repeat constructor; simpl; intuition discriminate.
  - vm_compute. right. left. reflexivity.
  - reflexivity.
  - reflexivity.
Defined.

(** Claim C9.  Finalizing a draft whose content holds no provisional ID is
    not an error: the result has an empty ID mapping and no target, and the
    files are exactly as before (no target file, the draft still there, no
    new ledger record). *)
Theorem finalize_without_provisional_ids :
  forall reg prd_finalize taskprd_finalize st provisional_file_name
         file_name_suffix path content,
    env_prov_store st = true ->
    env_doc_root st = true ->
    _find_provisional_file st provisional_file_name = Ok (path, content) ->
    find_provisional_artifact_ids reg content = [] ->
    Handlers.finalize_provisional_file reg prd_finalize taskprd_finalize st
      provisional_file_name file_name_suffix
    = (Ok (mkFinalized None None [] false), st).
Proof.
  intros reg pf tf st name sfx path content Hprov Hroot Hfind Hnone.
  unfold Handlers.finalize_provisional_file, finalize_provisional_file.
  rewrite Hprov, Hroot, Hfind. cbn [negb].
  unfold _process_provisional_ids. rewrite Hnone. reflexivity.
Qed.

Lemma finalize_without_provisional_ids_witness :
  Handlers.finalize_provisional_file Sample.artifact_types
    Sample.no_finalize Sample.no_finalize
    (Sample.empty_repo [Sample.notes_draft]) "notes.md" None
  = (Ok (mkFinalized None None [] false),
     Sample.empty_repo [Sample.notes_draft]).
Proof.
  apply (finalize_without_provisional_ids Sample.artifact_types
           Sample.no_finalize Sample.no_finalize
           (Sample.empty_repo [Sample.notes_draft]) "notes.md" None
           (fst Sample.notes_draft) (snd Sample.notes_draft));
    vm_compute; reflexivity.
Defined.

End ManagerFacts.

(** ** Managed headers: what is written is read back *)
Module HeaderFacts.
Import PyStr Re Headers StrFacts ManagerFacts.

(** *** Lines and blanks *)

Lemma join_cons2 : forall sep x y r,
  join sep (x :: y :: r) = x ++ sep ++ join sep (y :: r).
Proof. reflexivity. Qed.

Lemma join_app : forall sep a b,
  a <> [] -> b <> [] -> join sep (a ++ b) = join sep a ++ sep ++ join sep b.
Proof.
  intros sep a b Ha Hb. induction a as [|x a IH]; [contradiction|].
  destruct a as [|y a].
  - destruct b as [|z b]; [contradiction|]. reflexivity.
  - change ((x :: y :: a) ++ b) with (x :: y :: (a ++ b)).
    rewrite !join_cons2.
    change (y :: a ++ b) with ((y :: a) ++ b).
    rewrite IH by discriminate. now rewrite <- !app_assoc.
Qed.

Lemma join_nested : forall sep a b,
  b <> [] -> join sep (a ++ [join sep b]) = join sep (a ++ b).
Proof.
  intros sep a b Hb. destruct a as [|x a]; [reflexivity|].
  rewrite !join_app by (assumption || discriminate). reflexivity.
Qed.

Lemma split_join : forall sep ls,
  ls <> [] ->
  Forall (fun l => forallb (fun c => negb (c =? sep)%char) l = true) ls ->
  split sep (join [sep] ls) = ls.
Proof.
  intros sep ls Hne H. induction H as [|x ls Hx H IH]; [contradiction|].
  destruct ls as [|y ls].
  - simpl. now apply split_no_sep.
  - rewrite join_cons2.
    change (x ++ [sep] ++ join [sep] (y :: ls))
      with (x ++ sep :: join [sep] (y :: ls)).
    rewrite split_app_sep, IH by discriminate.
    now rewrite split_no_sep.
Qed.

Lemma drop_while_split : forall p s,
  exists w, s = w ++ drop_while p s /\ forallb p w = true.
Proof.
  intros p s. induction s as [|c s [w [E Hw]]].
  - now exists [].
  - simpl. destruct (p c) eqn:Hc.
    + exists (c :: w). simpl. rewrite Hc, Hw. now rewrite <- E.
    + now exists [].
Qed.

Lemma forallb_drop_while : forall (q p : ascii -> bool) s,
  forallb q s = true -> forallb q (drop_while p s) = true.
Proof.
  intros q p s H. destruct (drop_while_split p s) as [w [E _]].
  rewrite E, forallb_app in H. now apply andb_prop in H.
Qed.

Lemma forallb_rstrip : forall (q p : ascii -> bool) s,
  forallb q s = true -> forallb q (rstrip_of p s) = true.
Proof.
  intros q p s H. destruct (rstrip_of_prefix p s) as [t E].
  rewrite E, forallb_app in H. now apply andb_prop in H.
Qed.

Lemma forallb_strip : forall (q : ascii -> bool) s,
  forallb q s = true -> forallb q (strip s) = true.
Proof.
  intros q s H. apply forallb_rstrip. now apply forallb_drop_while.
Qed.

Lemma lstrip_rstrip : forall p s,
  lstrip_of p (rstrip_of p s) = rstrip_of p (lstrip_of p s).
Proof.
  intros p s. unfold lstrip_of.
  destruct (drop_while_split p s) as [w [E Hw]].
  destruct (drop_while p s) as [|c t] eqn:Ed.
  - rewrite app_nil_r in E. subst w.
    rewrite <- (app_nil_l s), rstrip_of_app_all by assumption.
    reflexivity.
  - assert (Hc : p c = false) by (eapply drop_while_result; eauto).
    assert (Hr : rstrip_of p (c :: t) <> []).
    { apply rstrip_of_nonempty with c; [now left|assumption]. }
    rewrite E, rstrip_of_app by assumption.
    destruct (rstrip_of p (c :: t)) as [|c' t'] eqn:Er; [contradiction|].
    assert (c' = c).
    { rewrite rstrip_of_cons in Er.
      destruct (rstrip_of p t); [rewrite Hc in Er|]; congruence. }
    subst c'. rewrite drop_while_app, drop_while_all by assumption.
    now apply drop_while_head.
Qed.

Lemma strip_rstrip : forall s, strip (rstrip s) = strip s.
Proof.
  intros s. unfold strip, rstrip, strip_of.
  now rewrite lstrip_rstrip, rstrip_of_idem.
Qed.

Lemma strip_last : forall s,
  strip s <> [] -> exists t d, strip s = t ++ [d] /\ is_space d = false.
Proof.
  intros s H. unfold strip, strip_of, rstrip_of in *.
  destruct (drop_while is_space (rev (lstrip_of is_space s))) as [|d t] eqn:E;
    [contradiction|].
  exists (rev t), d. split; [reflexivity|].
  eapply drop_while_result; eauto.
Qed.

Lemma strip_first : forall s c t, strip s = c :: t -> is_space c = false.
Proof.
  intros s c t H. unfold strip, strip_of in H.
  destruct (lstrip_of is_space s) as [|c' t'] eqn:E.
  - discriminate.
  - assert (Hc : is_space c' = false) by (eapply drop_while_result; eauto).
    rewrite rstrip_of_cons in H.
    destruct (rstrip_of is_space t'); [rewrite Hc in H|]; congruence.
Qed.

Lemma strip_snoc : forall x d, is_space d = false -> strip (x ++ [d]) <> [].
Proof.
  intros x d Hd. unfold strip, strip_of, lstrip_of.
  rewrite drop_while_app.
  destruct (drop_while is_space x) as [|c t].
  - rewrite drop_while_head by assumption.
    change [d] with ([] ++ [d]). rewrite rstrip_of_last by assumption.
    discriminate.
  - change ((c :: t) ++ [d]) with ((c :: t) ++ [d]).
    rewrite rstrip_of_last by assumption. discriminate.
Qed.

(** [strip] of a text that starts with a visible character and whose value
    part has visible text. *)
Lemma strip_line : forall c x v,
  is_space c = false -> rstrip v <> [] ->
  strip (c :: x ++ v) = c :: x ++ rstrip v.
Proof.
  intros c x v Hc Hv. unfold strip, strip_of, lstrip_of.
  rewrite drop_while_head by assumption.
  change (c :: x ++ v) with ((c :: x) ++ v).
  now rewrite rstrip_of_app.
Qed.

Lemma split_snoc : forall sep s d,
  (d =? sep)%char = false ->
  exists a z, split sep (s ++ [d]) = a ++ [z ++ [d]].
Proof.
  intros sep s d Hd. induction s as [|c s [a [z E]]].
  - exists [], []. simpl. now rewrite Hd.
  - simpl. rewrite E. destruct (c =? sep)%char.
    + now exists ([] :: a), z.
    + destruct a as [|h a]; simpl.
      * now exists [], (c :: z).
      * now exists ((c :: h) :: a), z.
Qed.

Lemma split_lines_dot : forall s,
  Forall (fun l => forallb dot l = true) (split LF s).
Proof.
  induction s as [|c s IH]; simpl.
  - repeat constructor.
  - destruct (c =? LF)%char eqn:Hc.
    + constructor; [reflexivity|assumption].
    + destruct (split LF s) as [|h t]; inversion IH; subst;
        constructor; simpl; unfold dot at 1; rewrite ?Hc; auto.
Qed.

(** *** The matcher on header lines *)

Section Stars.
Context {A : Type}.

Lemma star_greedy : forall p a s' prev (k : option ascii -> str -> option A) x,
  forallb p a = true ->
  match s' with [] => True | d :: _ => p d = false end ->
  (forall pv, k pv s' = Some x) ->
  star p prev (a ++ s') k = Some x.
Proof.
  intros p a. induction a as [|c a IH]; intros s' prev k x Ha Hs Hk.
  - destruct s' as [|d s']; simpl; [apply Hk|]. rewrite Hs. apply Hk.
  - simpl in Ha. apply andb_prop in Ha as [Hc Ha].
    simpl. rewrite Hc. now rewrite (IH s' (Some c) k x).
Qed.

Lemma star_inv : forall p s prev (k : option ascii -> str -> option A) x,
  star p prev s k = Some x ->
  exists a s' pv, s = a ++ s' /\ forallb p a = true /\ k pv s' = Some x.
Proof.
  intros p s. induction s as [|c s IH]; intros prev k x H.
  - exists [], [], prev. auto.
  - simpl in H. destruct (p c) eqn:Hc.
    + destruct (star p (Some c) s k) eqn:E.
      * injection H as ->. apply IH in E as (a & s' & pv & -> & Ha & Hk).
        exists (c :: a), s', pv. simpl. rewrite Hc. auto.
      * exists [], (c :: s), prev. auto.
    + exists [], (c :: s), prev. auto.
Qed.

Lemma star_greedy_all : forall p a prev
  (k : option ascii -> str -> option A) x,
  forallb p a = true -> (forall pv, k pv [] = Some x) ->
  star p prev a k = Some x.
Proof.
  intros p a prev k x Ha Hk. rewrite <- (app_nil_r a).
  now apply star_greedy.
Qed.

Lemma plus_inv : forall (p : ascii -> bool) (s : str)
  (k : option ascii -> str -> option A) x,
  match s return option A with
  | c :: s' => if p c then star p (Some c) s' k else None
  | [] => None
  end = Some x ->
  exists c a s' pv,
    s = c :: a ++ s' /\ p c = true /\ forallb p a = true /\
    k pv s' = Some x.
Proof.
  intros p s k x H. destruct s as [|c s]; [discriminate|].
  destruct (p c) eqn:Hc; [|discriminate].
  apply star_inv in H as (a & s' & pv & -> & Ha & Hk).
  now exists c, a, s', pv.
Qed.

End Stars.

Lemma lit_rest_sound : forall l prev s pv s',
  lit_rest false l prev s = Some (pv, s') -> s = l ++ s'.
Proof.
  induction l as [|x l IH]; intros prev s pv s' H; simpl in H.
  - now injection H as _ ->.
  - destruct s as [|y s]; [discriminate|].
    destruct (x =? y)%char eqn:E; [|discriminate].
    apply Ascii.eqb_eq in E. subst y. simpl. f_equal. eauto.
Qed.

Lemma firstn_consumed : forall (a b : str),
  firstn (length (a ++ b) - length b) (a ++ b) = a.
Proof.
  intros a b. rewrite length_app, Nat.add_sub.
  now rewrite firstn_app, Nat.sub_diag, firstn_all, app_nil_r.
Qed.

(** A header line as [render_headers] writes it, read by [header_line_re]. *)
Lemma header_line_match : forall dl w c v,
  clean_label dl = true -> forallb is_space w = true ->
  is_space c = false -> forallb dot (c :: v) = true ->
  exists m,
    re_match false header_line_re
      ("`"%char :: dl ++ "`"%char :: ":"%char :: w ++ c :: v) = Some m /\
    group m 1 = dl /\ group m 2 = c :: v.
Proof.
  intros dl w c v Hdl Hw Hc Hv.
  unfold clean_label in Hdl. apply andb_prop in Hdl as [Hne Hdl].
  destruct dl as [|d dl]; [discriminate|]. clear Hne.
  simpl in Hdl. apply andb_prop in Hdl as [Hd Hdl].
  apply andb_prop in Hd as [Hd _].
  assert (Hnb : forallb (not_char "`"%char) dl = true).
  { rewrite forallb_forall in *. intros y Hy.
    apply Hdl in Hy. now apply andb_prop in Hy. }
  simpl in Hv. apply andb_prop in Hv as [Hcd Hv].
  set (rest := "`"%char :: ":"%char :: w ++ c :: v).
  exists {| m_text := firstn (length ("`"%char :: (d :: dl) ++ rest) - 0)
                        ("`"%char :: (d :: dl) ++ rest);
            m_rest := []; m_groups := [d :: dl; c :: v] |}.
  split; [|split; reflexivity].
  unfold re_match, match_here, header_line_re.
  cbn [cat run lit_rest list_ascii_of_string chr_eq app].
  rewrite Ascii.eqb_refl, Hd.
  apply star_greedy; [assumption|reflexivity|].
  intros pv.
  change (d :: dl ++ rest) with ((d :: dl) ++ rest).
  rewrite firstn_consumed. unfold rest.
  rewrite !Ascii.eqb_refl.
  apply star_greedy; [assumption|exact Hc|].
  intros pv'. rewrite Hcd.
  apply star_greedy_all; [assumption|].
  intros pv2. cbn [length Nat.sub app].
  change (S (length v)) with (length (c :: v)). now rewrite firstn_all.
Qed.

(** What [header_line_re] gives as the value is the non-empty end of the
    line. *)
Lemma header_line_value : forall line m,
  forallb dot line = true ->
  re_match false header_line_re line = Some m ->
  exists pre, line = pre ++ group m 2 /\ group m 2 <> [].
Proof.
  intros line m Hdot H.
  unfold re_match, match_here, header_line_re in H.
  cbn [cat run] in H.
  destruct (lit_rest false "`" None line) as [[pv1 s1]|] eqn:E1;
    [|discriminate].
  apply lit_rest_sound in E1.
  apply plus_inv in H as (c1 & a1 & s2 & pv2 & E2 & _ & _ & H).
  cbv beta in H.
  destruct (lit_rest false "`" pv2 s2) as [[pv3 s3]|] eqn:E3; [|discriminate].
  apply lit_rest_sound in E3.
  destruct (lit_rest false ":" pv3 s3) as [[pv4 s4]|] eqn:E4; [|discriminate].
  apply lit_rest_sound in E4.
  apply star_inv in H as (w & s5 & pv5 & E5 & _ & H).
  assert (Hs5 : forallb dot s5 = true).
  { subst line s1 s2 s3 s4. simpl in Hdot.
    repeat (rewrite ?forallb_app in Hdot; simpl in Hdot;
            apply andb_prop in Hdot as [_ Hdot]).
    assumption. }
  destruct s5 as [|c5 s5]; [discriminate|].
  simpl in Hs5. apply andb_prop in Hs5 as [Hc5 Hs5].
  rewrite Hc5 in H.
  erewrite star_greedy_all in H; [|assumption|intros pv; reflexivity].
  injection H as <-.
  exists ("`"%char :: c1 :: a1 ++ "`"%char :: ":"%char :: w).
  cbn [group m_groups Nat.sub nth app length].
  rewrite firstn_all. split; [|discriminate].
  subst line s1 s2 s3 s4. simpl. now rewrite <- !app_assoc.
Qed.

(** *** Dictionaries *)

Lemma dict_get_set : forall d k v k',
  dict_get (dict_set d k v) k' = if eqb k k' then Some v else dict_get d k'.
Proof.
  induction d as [|[k0 v0] d IH]; intros k v k'; simpl.
  - reflexivity.
  - destruct (eqb k0 k) eqn:E0; simpl.
    + apply eqb_eq in E0. subst k0. now destruct (eqb k k').
    + rewrite IH. destruct (eqb k0 k') eqn:E1; [|reflexivity].
      apply eqb_eq in E1. subst k0.
      destruct (eqb k k') eqn:E2; [|reflexivity].
      apply eqb_eq in E2. subst k'. now rewrite eqb_refl in E0.
Qed.

(** *** One header line *)

Lemma suffix_last : forall (pre g t : str) d,
  pre ++ g = t ++ [d] -> g <> [] -> exists g', g = g' ++ [d].
Proof.
  intros pre g t d E Hg.
  destruct (exists_last Hg) as (g' & d' & ->).
  rewrite app_assoc in E. apply app_inj_tail in E as [_ ->]. now exists g'.
Qed.

Lemma parsed_value_clean : forall l m,
  forallb dot l = true ->
  is_empty (strip l) = false ->
  re_match false header_line_re (strip l) = Some m ->
  clean_value (strip (group m 2)) = true.
Proof.
  intros l m Hl Hne H.
  assert (Hs : forallb dot (strip l) = true) by now apply forallb_strip.
  destruct (header_line_value _ _ Hs H) as (pre & E & Hg).
  destruct (strip_last l) as (t & d & Et & Hd).
  { intros C. now rewrite C in Hne. }
  rewrite Et in E. symmetry in E.
  destruct (suffix_last _ _ _ _ E Hg) as (g' & Eg).
  unfold clean_value. rewrite strip_idem. apply andb_true_intro. split.
  - rewrite Eg. destruct (strip (g' ++ [d])) eqn:Es; [|reflexivity].
    now apply strip_snoc in Es.
  - apply forallb_strip. rewrite Et, <- E, forallb_app in Hs.
    now apply andb_prop in Hs.
Qed.

Lemma rstrip_visible : forall v, clean_value v = true -> rstrip v <> [].
Proof.
  intros v H C. unfold clean_value in H. apply andb_prop in H as [H _].
  rewrite <- strip_rstrip, C in H. discriminate.
Qed.

Lemma rendered_line : forall dl v,
  clean_label dl = true -> clean_value v = true ->
  let line := ("`" : str) ++ dl ++ ("`: " : str) ++ v in
  is_empty (strip line) = false /\
  exists m, re_match false header_line_re (strip line) = Some m /\
            group m 1 = dl /\ strip (group m 2) = strip v.
Proof.
  intros dl v Hdl Hv line.
  assert (Hr := rstrip_visible v Hv).
  assert (El : strip line = "`"%char :: (dl ++ "`: ") ++ rstrip v).
  { unfold line. cbn [list_ascii_of_string app].
    change (dl ++ "`"%char :: ":"%char :: " "%char :: v)
      with (dl ++ ["`"%char; ":"%char; " "%char] ++ v).
    rewrite app_assoc. now apply strip_line. }
  rewrite El. split; [reflexivity|].
  destruct (drop_while_split is_space (rstrip v)) as (w & Ew & Hw).
  change (drop_while is_space (rstrip v))
    with (lstrip_of is_space (rstrip_of is_space v)) in Ew.
  rewrite lstrip_rstrip in Ew. change (rstrip_of is_space (lstrip_of is_space v))
    with (strip v) in Ew.
  unfold clean_value in Hv. apply andb_prop in Hv as [Hne Hdot].
  destruct (strip v) as [|c t] eqn:Es; [discriminate|].
  assert (Hc : is_space c = false) by (eapply strip_first; eauto).
  assert (Hct : forallb dot (c :: t) = true).
  { rewrite <- Es. now apply forallb_strip. }
  destruct (header_line_match dl (" "%char :: w) c t Hdl) as (m & Hm & G1 & G2);
    try assumption.
  exists m. rewrite Ew. cbn [list_ascii_of_string].
  rewrite <- app_assoc. cbn [app] in *. rewrite Hm, G1, G2.
  repeat split. rewrite <- Es. apply strip_idem.
Qed.

(** *** The loop of [parse_managed_headers] *)

Lemma scan_stops : forall app l r i h b,
  stops app l = true -> scan_headers app (l :: r) i h b = (h, b).
Proof.
  intros app l r i h b H. unfold stops in H. simpl.
  destruct (is_empty (strip l)); [discriminate|]. simpl in H.
  destruct (re_match false header_line_re (strip l)); [|reflexivity].
  destruct (find _ app) as [[key it]|]; [discriminate|reflexivity].
Qed.

Lemma scan_ext : forall app ls ls',
  Forall2 (fun a b => strip a = strip b) ls ls' ->
  forall i h b, scan_headers app ls i h b = scan_headers app ls' i h b.
Proof.
  intros app ls ls' H. induction H as [|a b ls ls' E H IH]; intros i h bs.
  - reflexivity.
  - simpl. rewrite <- E.
    destruct (is_empty (strip a)); [apply IH|].
    destruct (re_match false header_line_re (strip a)); [|reflexivity].
    destruct (find _ app) as [[key it]|]; [apply IH|reflexivity].
Qed.

Lemma scan_shape : forall app lines i hdrs,
  Forall (fun l => forallb dot l = true) lines ->
  values_clean hdrs ->
  exists consumed remaining hdrs',
    lines = consumed ++ remaining /\
    scan_headers app lines i hdrs i = (hdrs', i + length consumed) /\
    values_clean hdrs' /\
    match remaining with [] => True | l :: _ => stops app l = true end.
Proof.
  intros app lines. induction lines as [|l lines IH]; intros i hdrs Hl Hh.
  - exists [], [], hdrs. simpl. rewrite Nat.add_0_r. auto.
  - inversion Hl as [|? ? Hd Hl']; subst.
    assert (Hstop : stops app l = true ->
      exists consumed remaining hdrs',
        l :: lines = consumed ++ remaining /\
        scan_headers app (l :: lines) i hdrs i = (hdrs', i + length consumed) /\
        values_clean hdrs' /\
        match remaining with [] => True | l :: _ => stops app l = true end).
    { intros Hs. exists [], (l :: lines), hdrs.
      rewrite scan_stops by assumption. simpl. rewrite Nat.add_0_r. auto. }
    assert (Hstep : forall hdrs1, values_clean hdrs1 ->
      scan_headers app (l :: lines) i hdrs i =
      scan_headers app lines (S i) hdrs1 (S i) ->
      exists consumed remaining hdrs',
        l :: lines = consumed ++ remaining /\
        scan_headers app (l :: lines) i hdrs i = (hdrs', i + length consumed) /\
        values_clean hdrs' /\
        match remaining with [] => True | l :: _ => stops app l = true end).
    { intros hdrs1 H1 E.
      destruct (IH (S i) hdrs1 Hl' H1) as (c & r & h' & -> & Es & Hc & Hr).
      exists (l :: c), r, h'. simpl length. rewrite E, Es.
      rewrite Nat.add_succ_r. auto. }
    destruct (is_empty (strip l)) eqn:Ee.
    + apply (Hstep hdrs Hh). simpl. now rewrite Ee.
    + destruct (re_match false header_line_re (strip l)) as [m|] eqn:Em.
      * destruct (find (fun kv => eqb (display_label (snd kv)) (group m 1)) app)
          as [[key it]|] eqn:Ef.
        -- apply (Hstep (dict_set hdrs key (strip (group m 2)))).
           ++ intros k v. rewrite dict_get_set.
              destruct (eqb key k); [|apply Hh].
              intros [= <-]. split; [|apply strip_idem].
              eapply parsed_value_clean; eauto.
           ++ simpl. now rewrite Ee, Em, Ef.
        -- apply Hstop. unfold stops. now rewrite Ee, Em, Ef.
      * apply Hstop. unfold stops. now rewrite Ee, Em.
Qed.

Lemma mem_intro : forall x l, In x l -> mem x l = true.
Proof.
  intros x l H. unfold mem. apply existsb_exists. exists x.
  split; [assumption|apply eqb_refl].
Qed.

Lemma find_label : forall (app : header_items) x,
  distinct (map (fun kv => display_label (snd kv)) app) = true ->
  In x app ->
  find (fun kv => eqb (display_label (snd kv)) (display_label (snd x))) app
  = Some x.
Proof.
  induction app as [|a app IH]; intros x Hd Hx; [contradiction|].
  simpl in Hd. apply andb_prop in Hd as [Ha Hd]. simpl.
  destruct Hx as [->|Hx]; [now rewrite eqb_refl|].
  destruct (eqb (display_label (snd a)) (display_label (snd x))) eqn:E.
  - apply eqb_eq in E. rewrite E, mem_intro in Ha; [discriminate|].
    now apply (in_map (fun kv => display_label (snd kv))).
  - now apply IH.
Qed.

(** The rendered header lines are read back one by one; each sets its own
    key to the stripped value. *)
Lemma scan_rendered : forall app hdrs remaining,
  labels_ok app = true ->
  (forall k v, In k (map fst app) -> dict_get hdrs k = Some v ->
               clean_value v = true) ->
  match remaining with [] => True | l :: _ => stops app l = true end ->
  forall suf, incl suf app ->
  forall acc i,
  exists acc',
    scan_headers app (render_headers suf hdrs ++ remaining) i acc i
    = (acc', i + length (render_headers suf hdrs)) /\
    forall k, dict_get acc' k =
      match (if existsb (fun kv => eqb (fst kv) k) suf
             then dict_get hdrs k else None) with
      | Some v => Some (strip v)
      | None => dict_get acc k
      end.
Proof.
  intros app hdrs remaining Hok Hclean Hrem.
  unfold labels_ok in Hok. apply andb_prop in Hok as [Hdist Hlab].
  induction suf as [|[key it] suf IH]; intros Hin acc i.
  - exists acc. simpl. rewrite Nat.add_0_r. split; [|reflexivity].
    destruct remaining as [|l r]; [reflexivity|now apply scan_stops].
  - assert (Hin' : incl suf app) by (intros x Hx; apply Hin; now right).
    assert (Hk : In (key, it) app) by (apply Hin; now left).
    cbn [render_headers].
    destruct (dict_get hdrs key) as [v|] eqn:Ev.
    + assert (Hv : clean_value v = true).
      { apply (Hclean key); [|assumption].
        now apply (in_map fst) in Hk. }
      assert (Hl : clean_label (display_label it) = true).
      { rewrite forallb_forall in Hlab. apply Hlab.
        now apply (in_map (fun kv => display_label (snd kv))) in Hk. }
      destruct (rendered_line _ _ Hl Hv) as (Hne & m & Hm & G1 & G2).
      destruct (IH Hin' (dict_set acc key (strip v)) (S i)) as (acc' & Es & Hg).
      exists acc'. split.
      * cbn [List.app scan_headers length]. cbv zeta. rewrite Hne, Hm, G1.
        assert (Ef := find_label app (key, it) Hdist Hk).
        cbn [snd] in Ef. rewrite Ef, G2, Es. now rewrite Nat.add_succ_r.
      * intros k. rewrite Hg, dict_get_set. cbn [existsb fst].
        destruct (existsb (fun kv => eqb (fst kv) k) suf) eqn:Ex.
        -- rewrite orb_true_r.
           destruct (dict_get hdrs k) eqn:Ek; [reflexivity|].
           destruct (eqb key k) eqn:E; [|reflexivity].
           apply eqb_eq in E. subst k. congruence.
        -- rewrite orb_false_r. destruct (eqb key k) eqn:E; [|reflexivity].
           apply eqb_eq in E. subst k. now rewrite Ev.
    + destruct (IH Hin' acc i) as (acc' & Es & Hg).
      exists acc'. split; [assumption|].
      intros k. rewrite Hg. cbn [existsb fst].
      destruct (existsb (fun kv => eqb (fst kv) k) suf) eqn:Ex.
      * now rewrite orb_true_r.
      * rewrite orb_false_r. destruct (eqb key k) eqn:E; [|reflexivity].
        apply eqb_eq in E. subst k. now rewrite Ev.
Qed.

Lemma Forall2_same : forall (A : Type) (R : A -> A -> Prop) l,
  (forall x, R x x) -> Forall2 R l l.
Proof. intros A R l H. induction l; constructor; auto. Qed.

Lemma join_head : forall sep c x L, exists t, join sep ((c :: x) :: L) = c :: t.
Proof. intros sep c x [|y L]; simpl; eauto. Qed.

(** The lines of a stripped text that starts with a visible character: only
    the last line can lose blanks. *)
Lemma strip_join_lines : forall c x L,
  is_space c = false ->
  Forall (fun l => forallb dot l = true) ((c :: x) :: L) ->
  (forall A z, L = A ++ [z] -> rstrip z <> []) ->
  (L = [] -> rstrip (c :: x) = c :: x) ->
  exists L',
    split LF (strip (join [LF] ((c :: x) :: L))) = (c :: x) :: L' /\
    Forall2 (fun a b => strip a = strip b) L L' /\
    (forall A z, L = A ++ [z] -> rstrip z = z -> L' = L).
Proof.
  intros c x L Hc Hdot Hlast Hnil.
  destruct L as [|l0 L0].
  - exists []. split; [|split; [constructor|reflexivity]].
    cbn [join]. unfold strip, strip_of, lstrip_of.
    rewrite drop_while_head by assumption.
    change (rstrip_of is_space (c :: x)) with (rstrip (c :: x)).
    rewrite Hnil by reflexivity. apply split_no_sep.
    now inversion Hdot.
  - destruct (@exists_last _ (l0 :: L0)) as (A & z & E); [discriminate|].
    rewrite E in *. clear E l0 L0.
    assert (Hz : rstrip z <> []) by (eapply Hlast; eauto).
    exists (A ++ [rstrip z]). split; [|split].
    + change ((c :: x) :: A ++ [z]) with (((c :: x) :: A) ++ [z]).
      rewrite join_app by discriminate.
      assert (E1 : strip (join [LF] ((c :: x) :: A) ++ [LF] ++ join [LF] [z])
                   = join [LF] ((c :: x) :: A) ++ [LF] ++ join [LF] [rstrip z]).
      { destruct (join_head [LF] c x A) as (t & Et). rewrite Et. cbn [join].
        rewrite !(app_assoc (c :: t)).
        apply (strip_line c (t ++ [LF]) z Hc Hz). }
      rewrite E1.
      rewrite <- join_app by discriminate.
      apply split_join; [discriminate|].
      change (((c :: x) :: A) ++ [rstrip z])
        with ((c :: x) :: A ++ [rstrip z]).
      inversion Hdot as [|? ? H1 H2]; subst. constructor; [exact H1|].
      apply Forall_app in H2 as [HA HZ]. apply Forall_app. split; [exact HA|].
      constructor; [|constructor]. apply forallb_rstrip.
      now inversion HZ.
    + apply Forall2_app; [now apply Forall2_same|].
      constructor; [|constructor]. symmetry. apply strip_rstrip.
    + intros A0 z0 E Hr. apply app_inj_tail in E as [_ <-].
      now rewrite Hr.
Qed.

Lemma rendered_visible : forall ap hdrs,
  Forall (fun z => rstrip z <> [] /\ z <> []) (render_headers ap hdrs).
Proof.
  intros ap hdrs. induction ap as [|[key it] ap IH]; simpl; [constructor|].
  destruct (dict_get hdrs key); [|assumption].
  constructor; [|assumption]. split; [|discriminate].
  apply rstrip_of_nonempty with "`"%char; [now left|reflexivity].
Qed.

Lemma rendered_dot : forall ap hdrs,
  labels_ok ap = true ->
  (forall k v, In k (map fst ap) -> dict_get hdrs k = Some v ->
               clean_value v = true) ->
  Forall (fun l => forallb dot l = true) (render_headers ap hdrs).
Proof.
  intros ap hdrs Hok. unfold labels_ok in Hok.
  apply andb_prop in Hok as [_ Hlab].
  induction ap as [|[key it] ap IH]; intros Hc; simpl; [constructor|].
  simpl in Hlab. apply andb_prop in Hlab as [Hl Hlab].
  assert (IH' := IH Hlab (fun k v Hk => Hc k v (or_intror Hk))).
  destruct (dict_get hdrs key) as [v|] eqn:Ev; [|assumption].
  constructor; [|assumption].
  unfold clean_label in Hl. apply andb_prop in Hl as [_ Hl].
  assert (Hv : clean_value v = true) by (apply (Hc key); [now left|assumption]).
  unfold clean_value in Hv. apply andb_prop in Hv as [_ Hv].
  cbn [list_ascii_of_string List.app forallb].
  rewrite forallb_app. cbn [forallb]. rewrite Hv.
  replace (forallb dot (display_label it)) with true; [reflexivity|].
  symmetry. rewrite forallb_forall in *. intros y Hy.
  apply Hl in Hy. now apply andb_prop in Hy.
Qed.

Lemma fixed_head : forall s, strip s = s -> s <> [] ->
  exists c x, s = c :: x /\ is_space c = false.
Proof.
  intros [|c x] E H; [contradiction|]. exists c, x. split; [reflexivity|].
  eapply strip_first; eauto.
Qed.

Lemma fixed_rstrip : forall s, strip s = s -> rstrip s = s.
Proof.
  intros s E. rewrite <- E at 1. unfold strip, strip_of, rstrip.
  rewrite rstrip_of_idem. exact E.
Qed.

Lemma visible_last : forall A z,
  z <> [] -> rstrip z = z -> is_empty (strip (join [LF] (A ++ [z]))) = false.
Proof.
  intros A z Hz Hr.
  destruct (exists_last Hz) as (z' & d & ->).
  assert (Hd : is_space d = false).
  { unfold rstrip, rstrip_of in Hr. rewrite rev_app_distr in Hr. simpl in Hr.
    destruct (is_space d); [|reflexivity].
    apply (f_equal (@length ascii)) in Hr.
    assert (Hp := rstrip_of_prefix is_space z'). destruct Hp as [t Ht].
    fold (rstrip_of is_space z') in Hr.
    apply (f_equal (@length ascii)) in Ht.
    rewrite !length_app in *. simpl in Hr. lia. }
  assert (E : exists y, join [LF] (A ++ [z' ++ [d]]) = y ++ [d]).
  { destruct A as [|a A].
    - now exists z'.
    - rewrite join_app by discriminate. cbn [join].
      exists (join [LF] (a :: A) ++ [LF] ++ z'). now rewrite <- !app_assoc. }
  destruct E as [y ->].
  destruct (strip (y ++ [d])) eqn:Es; [|reflexivity].
  now apply strip_snoc in Es.
Qed.

Lemma nil_or_last : forall (A : Type) (l : list A),
  l = [] \/ exists a z, l = a ++ [z].
Proof.
  intros A l. destruct l as [|x l]; [now left|right].
  destruct (@exists_last _ (x :: l)) as (a & z & E); [discriminate|eauto].
Qed.

(** *** Reading back what [update_managed_header] wrote *)

Lemma reparse : forall reg items t aid hl hdrs remaining,
  let ap := get_managed_headers_for_type items t in
  labels_ok ap = true ->
  match_types reg hl = Ok (Some (t, aid)) ->
  hl <> [] -> strip hl = hl -> forallb dot hl = true ->
  (forall k v, In k (map fst ap) -> dict_get hdrs k = Some v ->
               clean_value v = true) ->
  Forall (fun l => forallb dot l = true) remaining ->
  match remaining with [] => True | l :: _ => stops ap l = true end ->
  (forall A z, remaining = A ++ [z] -> z <> [] /\ rstrip z = z) ->
  let c1 := rebuild ap hl hdrs (join [LF] remaining) in
  exists hdrs',
    parse_managed_headers reg items c1 = Ok (hl, hdrs', join [LF] remaining) /\
    extract_artifact_type_and_id reg c1 = Ok (Some (t, aid)) /\
    (forall k, In k (map fst ap) ->
               dict_get hdrs' k = option_map strip (dict_get hdrs k)).
Proof.
  intros reg items t aid hl hdrs remaining ap Hok Hm Hne Hfix Hdot Hclean
    Hrem Hstop Hlast c1.
  destruct (fixed_head hl Hfix Hne) as (c & x & -> & Hc).
  set (L := render_headers ap hdrs ++ remaining).
  assert (Ec : c1 = join [LF] ((c :: x) :: L)).
  { unfold c1, rebuild, L.
    destruct (nil_or_last _ remaining) as [->|(A & z & E)]; [reflexivity|].
    destruct (Hlast A z E) as [Hz Hr].
    rewrite E. rewrite visible_last by assumption.
    rewrite app_assoc, join_nested by now destruct A.
    now rewrite <- app_assoc. }
  destruct (strip_join_lines c x L Hc) as (L' & Es & HF & Hsame).
  { constructor; [assumption|]. apply Forall_app. split; [|assumption].
    now apply rendered_dot. }
  { intros A z E. unfold L in E.
    destruct (nil_or_last _ remaining) as [->|(A0 & z0 & E0)].
    - rewrite app_nil_r in E.
      assert (H := rendered_visible ap hdrs). rewrite E in H.
      apply Forall_app in H as [_ H]. inversion H as [|? ? [H1 _] _]; subst.
      exact H1.
    - destruct (Hlast A0 z0 E0) as [Hz Hr].
      rewrite E0, app_assoc in E. apply app_inj_tail in E as [_ <-].
      now rewrite Hr. }
  { intros _. now apply fixed_rstrip. }
  destruct (scan_rendered ap hdrs remaining Hok Hclean Hstop ap
              (incl_refl _) [] 1) as (acc' & Escan & Hget).
  assert (Eextract : extract_artifact_type_and_id reg c1 = Ok (Some (t, aid))).
  { unfold extract_artifact_type_and_id. rewrite Ec, Es.
    cbn [nth]. now rewrite Hfix. }
  exists acc'. split; [|split; [exact Eextract|]].
  - unfold parse_managed_headers. rewrite Eextract.
    rewrite Ec, Es. cbn [exc_bind nth skipn]. rewrite Hfix.
    fold ap. rewrite <- (scan_ext ap L L' HF). unfold L at 1.
    rewrite Escan. cbn [Nat.add skipn].
    do 2 f_equal.
    destruct (nil_or_last _ remaining) as [E0|(A0 & z0 & E0)].
    + unfold L in HF. rewrite E0, app_nil_r in HF.
      apply Forall2_length in HF. rewrite HF, skipn_all, E0. reflexivity.
    + destruct (Hlast A0 z0 E0) as [Hz Hr].
      rewrite (Hsame (render_headers ap hdrs ++ A0) z0);
        [|unfold L; now rewrite E0, app_assoc|assumption].
      unfold L. rewrite skipn_app, skipn_all, Nat.sub_diag. reflexivity.
  - intros k Hk. rewrite Hget.
    replace (existsb (fun kv => eqb (fst kv) k) ap) with true.
    + now destruct (dict_get hdrs k).
    + symmetry. apply existsb_exists. apply in_map_iff in Hk as (kv & <- & Hin).
      exists kv. split; [assumption|apply eqb_refl].
Qed.

(** *** The first reading of a document *)

Lemma format_on_nothing : forall fmt,
  is_empty fmt = false -> re_match false (format_pattern fmt) [] = None.
Proof.
  intros [|c fmt] H; [discriminate|].
  unfold re_match, match_here, format_pattern. cbn [format_tokens].
  destruct (startswith "{id}" (c :: fmt));
    [|destruct (startswith "{description}" (c :: fmt))];
    cbn [cat]; match goal with
               | |- context [format_tokens ?f ?n] =>
                   destruct (format_tokens f n); reflexivity
               end.
Qed.

Lemma match_types_nothing : forall reg, match_types reg [] = Ok None.
Proof.
  induction reg as [|[t info] reg IH]; simpl; [reflexivity|].
  destruct (Types.header_format info) as [fmt|]; [|assumption].
  destruct (is_empty fmt) eqn:E; [assumption|].
  now rewrite format_on_nothing.
Qed.

Lemma parse_shape : forall reg items content t aid,
  extract_artifact_type_and_id reg content = Ok (Some (t, aid)) ->
  let ap := get_managed_headers_for_type items t in
  exists hl current remaining,
    parse_managed_headers reg items content
    = Ok (hl, current, join [LF] remaining) /\
    match_types reg hl = Ok (Some (t, aid)) /\
    hl <> [] /\ strip hl = hl /\ forallb dot hl = true /\
    values_clean current /\
    Forall (fun l => forallb dot l = true) remaining /\
    match remaining with [] => True | l :: _ => stops ap l = true end /\
    (forall A z, remaining = A ++ [z] -> z <> [] /\ rstrip z = z).
Proof.
  intros reg items content t aid He ap.
  unfold parse_managed_headers. rewrite He. cbn [exc_bind]. fold ap.
  unfold extract_artifact_type_and_id in He.
  assert (Hdots := split_lines_dot (strip content)).
  destruct (split LF (strip content)) as [|l0 rest] eqn:El.
  { now apply split_nonempty in El. }
  cbn [nth skipn] in *. inversion Hdots as [|? ? H0 Hrest]; subst.
  assert (Hne : strip l0 <> []).
  { intros C. rewrite C, match_types_nothing in He. discriminate. }
  destruct (scan_shape ap rest 1 [] Hrest) as (cons & rem & hdrs' & E & Es & Hc & Hs).
  { intros k v H. discriminate. }
  exists (strip l0), hdrs', rem. rewrite Es.
  assert (Eskip : skipn (1 + length cons) (l0 :: rest) = rem).
  { cbn [Nat.add skipn]. rewrite E, skipn_app, skipn_all, Nat.sub_diag.
    reflexivity. }
  rewrite Eskip.
  assert (Hend : forall A z, rem = A ++ [z] ->
                 exists z' d, z = z' ++ [d] /\ is_space d = false).
  { intros A z H.
    destruct (strip_last content) as (s0 & d & Ed & Hd).
    { intros C. rewrite C in El. simpl in El. injection El as <- _.
      now apply Hne. }
    destruct (split_snoc LF s0 d) as (a & z' & Ez).
    { destruct (d =? LF)%char eqn:C; [|reflexivity].
      apply Ascii.eqb_eq in C. subst d. discriminate. }
    rewrite Ed, Ez in El. rewrite H in E. rewrite E in El.
    change (l0 :: cons ++ A ++ [z]) with ((l0 :: cons) ++ A ++ [z]) in El.
    rewrite app_assoc in El. apply app_inj_tail in El as [_ <-].
    now exists z', d. }
  split; [reflexivity|]. split; [exact He|]. split; [exact Hne|].
  split; [apply strip_idem|]. split; [now apply forallb_strip|].
  split; [exact Hc|]. split; [|split; [exact Hs|]].
  - apply Forall_app with (l1 := cons). now rewrite <- E.
  - intros A z H. destruct (Hend A z H) as (z' & d & -> & Hd).
    split; [now destruct z'|now apply rstrip_of_last].
Qed.

(** *** Updates *)

Lemma find_key : forall (ap : header_items) key k it,
  find (fun kv => eqb (fst kv) key) ap = Some (k, it) ->
  k = key /\ In key (map fst ap).
Proof.
  intros ap key k it H. apply find_some in H as [Hin E].
  apply eqb_eq in E. simpl in E. subst k. split; [reflexivity|].
  now apply (in_map fst) in Hin.
Qed.

Lemma find_key_none : forall (ap : header_items) key,
  find (fun kv => eqb (fst kv) key) ap = None -> ~ In key (map fst ap).
Proof.
  intros ap key H Hin. apply in_map_iff in Hin as (kv & E & Hin).
  rewrite find_none_iff in H. apply H in Hin. rewrite E, eqb_refl in Hin.
  discriminate.
Qed.

Lemma apply_update_other : forall ap d key v k,
  eqb key k = false ->
  dict_get (apply_update ap d (key, v)) k = dict_get d k.
Proof.
  intros ap d key v k E. unfold apply_update.
  destruct (find _ ap) as [[k0 it]|]; [|reflexivity].
  destruct (eqb (item_type it) "atomic"); [now rewrite dict_get_set, E|].
  destruct (eqb (item_type it) "list"); [|reflexivity].
  destruct (dict_get d key); now rewrite dict_get_set, E.
Qed.

Lemma fold_untouched : forall ap upd d k,
  (forall v, ~ In (k, v) upd) ->
  dict_get (fold_left (apply_update ap) upd d) k = dict_get d k.
Proof.
  intros ap upd. induction upd as [|[key v] upd IH]; intros d k H.
  - reflexivity.
  - simpl. rewrite IH by (intros v' Hv'; apply (H v'); now right).
    apply apply_update_other. apply eqb_neq. intros ->.
    apply (H v). now left.
Qed.

Lemma fold_atomic_agree : forall ap upd,
  forallb (atomic_update ap) upd = true ->
  forall d1 d2,
  (forall k, In k (map fst ap) -> (forall v, ~ In (k, v) upd) ->
             dict_get d1 k = dict_get d2 k) ->
  forall k, In k (map fst ap) ->
  dict_get (fold_left (apply_update ap) upd d1) k
  = dict_get (fold_left (apply_update ap) upd d2) k.
Proof.
  intros ap upd. induction upd as [|[key v] upd IH]; intros Ha d1 d2 H k Hk.
  - apply H; auto.
  - simpl in Ha. apply andb_prop in Ha as [Hkv Ha]. simpl.
    apply (IH Ha); [|assumption].
    intros k' Hk' Hun. unfold atomic_update in Hkv. unfold apply_update.
    cbn [fst snd] in Hkv. cbv beta iota. cbv [list_ascii_of_string] in Hkv.
    destruct (find (fun kv => eqb (fst kv) key) ap) as [[k0 it]|] eqn:Ef.
    + apply andb_prop in Hkv as [Hat _]. rewrite Hat, !dict_get_set.
      destruct (eqb key k') eqn:E; [reflexivity|].
      apply H; [assumption|]. intros v' [[= -> ->]|Hin].
      * now rewrite eqb_refl in E.
      * now apply (Hun v').
    + apply H; [assumption|]. intros v' [[= -> ->]|Hin].
      * now apply find_key_none in Ef.
      * now apply (Hun v').
Qed.

Lemma fold_atomic_clean : forall ap upd,
  forallb (atomic_update ap) upd = true ->
  forall d,
  (forall k v, dict_get d k = Some v -> clean_value v = true) ->
  forall k v, dict_get (fold_left (apply_update ap) upd d) k = Some v ->
              clean_value v = true.
Proof.
  intros ap upd. induction upd as [|[key v] upd IH]; intros Ha d H.
  - exact H.
  - simpl in Ha. apply andb_prop in Ha as [Hkv Ha]. simpl.
    apply (IH Ha). intros k' v'.
    unfold atomic_update in Hkv. unfold apply_update. cbn [fst snd] in Hkv.
    cbv beta iota. cbv [list_ascii_of_string] in Hkv.
    destruct (find (fun kv => eqb (fst kv) key) ap) as [[k0 it]|]; [|apply H].
    apply andb_prop in Hkv as [Hat Hv]. rewrite Hat, dict_get_set.
    destruct (eqb key k'); [|apply H]. now intros [= <-].
Qed.

Lemma render_agree : forall ap d1 d2,
  (forall k, In k (map fst ap) -> dict_get d1 k = dict_get d2 k) ->
  render_headers ap d1 = render_headers ap d2.
Proof.
  induction ap as [|[key it] ap IH]; intros d1 d2 H; [reflexivity|].
  simpl. rewrite (H key) by now left.
  rewrite (IH d1 d2) by (intros k Hk; apply H; now right). reflexivity.
Qed.

Lemma update_unfold : forall reg items content upd t aid hl current body,
  extract_artifact_type_and_id reg content = Ok (Some (t, aid)) ->
  parse_managed_headers reg items content = Ok (hl, current, body) ->
  hl <> [] ->
  update_managed_header reg items content upd
  = Ok (rebuild (get_managed_headers_for_type items t) hl
          (fold_left (apply_update (get_managed_headers_for_type items t))
             upd current) body).
Proof.
  intros reg items content upd t aid hl current body He Hp Hne.
  unfold update_managed_header. rewrite Hp. cbn [exc_bind].
  destruct hl; [contradiction|]. cbn [is_empty]. now rewrite He.
Qed.

Lemma clean_strip : forall v, clean_value v = true -> clean_value (strip v) = true.
Proof.
  intros v H. unfold clean_value in *. apply andb_prop in H as [H1 H2].
  rewrite strip_idem, H1. now apply forallb_strip.
Qed.

(** Claim C6, amended.  When the first line of the content matches a
    registered header template, the display labels of the managed items of
    the detected type are non-empty, pairwise different and free of backticks
    and line breaks, and every update of an applicable item is atomic with a
    value that has visible text and no line break, [update_managed_header]
    succeeds and a second application of the same update to its result gives
    that result again. *)
Theorem update_atomic_idempotent :
  forall reg items content upd t aid,
  extract_artifact_type_and_id reg content = Ok (Some (t, aid)) ->
  labels_ok (get_managed_headers_for_type items t) = true ->
  forallb (atomic_update (get_managed_headers_for_type items t)) upd = true ->
  exists once,
    update_managed_header reg items content upd = Ok once /\
    update_managed_header reg items once upd = Ok once.
Proof.
  intros reg items content upd t aid He Hok Hupd.
  set (ap := get_managed_headers_for_type items t) in *.
  destruct (parse_shape reg items content t aid He)
    as (hl & current & remaining & Hp & Hm & Hne & Hfix & Hdot & Hcur & Hrem
        & Hstop & Hlast).
  fold ap in Hstop.
  set (updated := fold_left (apply_update ap) upd current).
  assert (Hclean : forall k v, In k (map fst ap) ->
                   dict_get updated k = Some v -> clean_value v = true).
  { intros k v _. apply (fold_atomic_clean ap upd Hupd current).
    intros k' v' H. now apply Hcur in H. }
  destruct (reparse reg items t aid hl updated remaining Hok Hm Hne Hfix Hdot
              Hclean Hrem Hstop Hlast) as (hdrs' & Hp' & He' & Hget).
  fold ap in Hp', He', Hget.
  exists (rebuild ap hl updated (join [LF] remaining)). split.
  - now apply update_unfold with aid.
  - rewrite (update_unfold _ _ _ _ _ _ _ _ _ He' Hp' Hne). fold ap.
    unfold rebuild. do 3 f_equal. f_equal. apply render_agree.
    apply fold_atomic_agree; [assumption|].
    intros k Hk Hun. rewrite (Hget k Hk). unfold updated.
    rewrite fold_untouched by assumption.
    destruct (dict_get current k) as [v|] eqn:Ev; [|reflexivity].
    simpl. f_equal. now apply Hcur in Ev.
Qed.

Lemma update_atomic_idempotent_witness :
  exists once,
    update_managed_header Sample.artifact_types Sample.managed_header_items
      (Sample.text ["### REQ-7: Login"; ""; "Body text"])
      [("STATUS" : str, "ACTIVE" : str); ("PARENT" : str, "PRD-3" : str)]
    = Ok once /\
    update_managed_header Sample.artifact_types Sample.managed_header_items
      once [("STATUS" : str, "ACTIVE" : str); ("PARENT" : str, "PRD-3" : str)]
    = Ok once.
Proof.
  apply (update_atomic_idempotent Sample.artifact_types
           Sample.managed_header_items _ _ "REQ" "REQ-7");
    vm_compute; reflexivity.
Defined.

(** Claim C6 fails as stated.  STATUS is an atomic item that applies to REQ;
    the update that sets it to the empty text writes a header line that
    [parse_managed_headers] does not read back, so a second application adds
    the line again. *)
Lemma update_blank_status_repeats :
  let update :=
    update_managed_header Sample.artifact_types Sample.managed_header_items in
  option_map (fun kv => item_type (snd kv))
    (find (fun kv => eqb (fst kv) "STATUS")
       (get_managed_headers_for_type Sample.managed_header_items "REQ"))
  = Some ("atomic" : str) /\
  update (Sample.text ["### REQ-7: Login"; ""; "Body text"])
    [("STATUS" : str, [] : str)]
  = Ok (Sample.text ["### REQ-7: Login"; "`Status`: "; "Body text"]) /\
  update (Sample.text ["### REQ-7: Login"; "`Status`: "; "Body text"])
    [("STATUS" : str, [] : str)]
  = Ok (Sample.text ["### REQ-7: Login"; "`Status`: "; "`Status`: ";
                     "Body text"]).
Proof. vm_compute. repeat split; reflexivity. Qed.

(** *** List items *)

Lemma mem_false : forall x l, mem x l = false -> ~ In x l.
Proof.
  intros x l H Hin. now rewrite mem_intro in H.
Qed.

Lemma merge_values_spec : forall new combined,
  exists added,
    merge_values combined new = combined ++ added /\
    NoDup added /\
    forall x, In x added <-> In x new /\ ~ In x combined.
Proof.
  induction new as [|v new IH]; intros combined.
  - exists []. simpl. rewrite app_nil_r. repeat split; try constructor;
      tauto.
  - simpl. destruct (mem v combined) eqn:Em.
    + destruct (IH combined) as (added & E & Hn & Hx).
      exists added. split; [assumption|split; [assumption|]].
      intros x. rewrite Hx. split; [tauto|].
      intros [[->|H] Hc]; [|tauto].
      apply mem_In in Em. contradiction.
    + apply mem_false in Em.
      destruct (IH (combined ++ [v])) as (added & E & Hn & Hx).
      exists (v :: added). split; [now rewrite E, <- app_assoc|split].
      * constructor; [|assumption]. intros H. apply Hx in H as [_ H].
        apply H, in_or_app. right. now left.
      * intros x. split.
        -- intros [<-|H]; [split; [now left|assumption]|].
           apply Hx in H as [H1 H2]. split; [now right|].
           intros H3. apply H2, in_or_app. now left.
        -- intros [[->|H] Hc]; [now left|].
           destruct (eqb x v) eqn:E'.
           ++ apply eqb_eq in E'. now left.
           ++ apply eqb_neq in E'. right. apply Hx. split; [assumption|].
              intros H3. apply in_app_or in H3 as [H3|[H3|[]]]; congruence.
Qed.

Lemma member_parts : forall a,
  clean_member a = true ->
  strip a = a /\ forallb dot a = true /\
  forallb (fun c => negb (c =? COMMA)%char) a = true /\
  (exists c t, a = c :: t /\ is_space c = false) /\
  (exists t d, a = t ++ [d] /\ is_space d = false).
Proof.
  intros a H. unfold clean_member in H.
  apply andb_prop in H as [H H3]. apply andb_prop in H as [H1 H2].
  apply eqb_eq in H2.
  assert (Hne : a <> []) by (intros ->; discriminate).
  split; [assumption|]. split; [|split; [|split]].
  - rewrite forallb_forall in *. intros x Hx. apply H3 in Hx.
    now apply andb_prop in Hx.
  - rewrite forallb_forall in *. intros x Hx. apply H3 in Hx.
    now apply andb_prop in Hx.
  - now apply fixed_head.
  - destruct (strip_last a) as (t & d & E & Hd); [now rewrite H2|].
    rewrite H2 in E. eauto.
Qed.

Lemma strip_members : forall a x b,
  clean_member a = true -> clean_member b = true ->
  strip (a ++ x ++ b) = a ++ x ++ b.
Proof.
  intros a x b Ha Hb.
  destruct (member_parts a Ha) as (_ & _ & _ & (c & t & -> & Hc) & _).
  destruct (member_parts b Hb) as (_ & _ & _ & _ & (t' & d & -> & Hd)).
  replace ((c :: t) ++ x ++ t' ++ [d]) with (c :: (t ++ x ++ t') ++ [d])
    by (simpl; now rewrite <- !app_assoc).
  now apply strip_of_clean.
Qed.

Lemma members_value : forall a x b,
  clean_member a = true -> clean_member b = true ->
  forallb dot x = true -> clean_value (a ++ x ++ b) = true.
Proof.
  intros a x b Ha Hb Hx. unfold clean_value.
  rewrite strip_members by assumption.
  destruct (member_parts a Ha) as (_ & Da & _ & (c & t & E & _) & _).
  destruct (member_parts b Hb) as (_ & Db & _).
  rewrite !forallb_app, Da, Db, Hx. rewrite E. reflexivity.
Qed.

Lemma split_pair : forall a b,
  clean_member a = true -> clean_member b = true ->
  map strip (split COMMA (a ++ [COMMA] ++ b)) = [a; b].
Proof.
  intros a b Ha Hb.
  destruct (member_parts a Ha) as (Sa & _ & Ca & _).
  destruct (member_parts b Hb) as (Sb & _ & Cb & _).
  change (a ++ [COMMA] ++ b) with (a ++ COMMA :: b).
  rewrite split_app_sep, !split_no_sep by assumption.
  simpl. now rewrite Sa, Sb.
Qed.

Lemma apply_list_new : forall ap d k it v,
  find (fun kv => eqb (fst kv) k) ap = Some (k, it) ->
  item_type it = ("list" : str) ->
  dict_get d k = None ->
  apply_update ap d (k, v) = dict_set d k v.
Proof.
  intros ap d k it v Hf Ht Hd. unfold apply_update.
  rewrite Hf, Ht, Hd. reflexivity.
Qed.

Lemma apply_list_merge : forall ap d k it v existing,
  find (fun kv => eqb (fst kv) k) ap = Some (k, it) ->
  item_type it = ("list" : str) ->
  dict_get d k = Some existing ->
  apply_update ap d (k, v)
  = dict_set d k
      (join [COMMA] (merge_values (map strip (split COMMA existing))
                                  (map strip (split COMMA v)))).
Proof.
  intros ap d k it v existing Hf Ht Hd. unfold apply_update.
  rewrite Hf, Ht, Hd. reflexivity.
Qed.

(** Claim C5.  For a list item [k] that applies to the detected type and a
    content without a header for [k], the update with the value a,b followed
    by the update with the value c,a succeeds and leaves the value a,b,c for
    [k]; in general the merge keeps the existing members in place and appends
    the new members that were absent, each once. *)
Theorem update_list_is_ordered_union :
  forall reg items content t aid k item a b c hl0 cur0 body0,
  extract_artifact_type_and_id reg content = Ok (Some (t, aid)) ->
  labels_ok (get_managed_headers_for_type items t) = true ->
  find (fun kv => eqb (fst kv) k) (get_managed_headers_for_type items t)
  = Some (k, item) ->
  item_type item = ("list" : str) ->
  parse_managed_headers reg items content = Ok (hl0, cur0, body0) ->
  dict_get cur0 k = None ->
  clean_member a = true -> clean_member b = true -> clean_member c = true ->
  eqb c a = false -> eqb c b = false ->
  (exists c1 c2 hl hdrs body,
     update_managed_header reg items content [(k, a ++ [COMMA] ++ b)] = Ok c1 /\
     update_managed_header reg items c1 [(k, c ++ [COMMA] ++ a)] = Ok c2 /\
     parse_managed_headers reg items c2 = Ok (hl, hdrs, body) /\
     dict_get hdrs k = Some (a ++ [COMMA] ++ b ++ [COMMA] ++ c)) /\
  (forall existing new,
     exists added,
       merge_values existing new = existing ++ added /\
       NoDup added /\
       forall x, In x added <-> In x new /\ ~ In x existing).
Proof.
  intros reg items content t aid k item a b c hl0 cur0 body0
    He Hok Hf Ht Hp0 Hnone Ha Hb Hc Hca Hcb.
  split; [|intros existing new; apply merge_values_spec].
  set (ap := get_managed_headers_for_type items t) in *.
  destruct (parse_shape reg items content t aid He)
    as (hl & current & remaining & Hp & Hm & Hne & Hfix & Hdot & Hcur & Hrem
        & Hstop & Hlast).
  fold ap in Hstop.
  rewrite Hp in Hp0. injection Hp0 as <- <- <-.
  assert (Hk : In k (map fst ap)) by (apply find_key in Hf; tauto).
  set (ab := a ++ [COMMA] ++ b).
  set (abc := a ++ [COMMA] ++ b ++ [COMMA] ++ c).
  assert (Hab : clean_value ab = true) by now apply members_value.
  assert (Eabc : abc = a ++ ([COMMA] ++ b ++ [COMMA]) ++ c).
  { unfold abc. now rewrite <- !app_assoc. }
  assert (Habc : clean_value abc = true).
  { rewrite Eabc. apply members_value; try assumption.
    destruct (member_parts b Hb) as (_ & Db & _).
    rewrite !forallb_app, Db. reflexivity. }
  (* the first update *)
  set (h1 := dict_set current k ab).
  assert (Hc1 : forall k' v, In k' (map fst ap) -> dict_get h1 k' = Some v ->
                clean_value v = true).
  { intros k' v _. unfold h1. rewrite dict_get_set.
    destruct (eqb k k'); [now intros [= <-]|].
    intros H. now apply Hcur in H. }
  destruct (reparse reg items t aid hl h1 remaining Hok Hm Hne Hfix Hdot
              Hc1 Hrem Hstop Hlast) as (r1 & Hp1 & He1 & Hg1).
  fold ap in Hp1, He1, Hg1.
  assert (Hr1 : dict_get r1 k = Some ab).
  { rewrite (Hg1 k Hk). unfold h1. rewrite dict_get_set, eqb_refl. simpl.
    f_equal. now apply strip_members. }
  (* the second update *)
  set (h2 := dict_set r1 k abc).
  assert (Hc2 : forall k' v, In k' (map fst ap) -> dict_get h2 k' = Some v ->
                clean_value v = true).
  { intros k' v Hk'. unfold h2. rewrite dict_get_set.
    destruct (eqb k k'); [now intros [= <-]|].
    rewrite (Hg1 k' Hk'). destruct (dict_get h1 k') as [v'|] eqn:E;
      [|discriminate].
    intros [= <-]. apply clean_strip. now apply (Hc1 k'). }
  destruct (reparse reg items t aid hl h2 remaining Hok Hm Hne Hfix Hdot
              Hc2 Hrem Hstop Hlast) as (r2 & Hp2 & He2 & Hg2).
  fold ap in Hp2, He2, Hg2.
  exists (rebuild ap hl h1 (join [LF] remaining)),
         (rebuild ap hl h2 (join [LF] remaining)), hl, r2,
         (join [LF] remaining).
  split; [|split; [|split]].
  - rewrite (update_unfold _ _ _ _ _ _ _ _ _ He Hp Hne). fold ap.
    cbn [fold_left].
    apply (f_equal (fun d => Ok (rebuild ap hl d (join [LF] remaining)))).
    exact (apply_list_new ap current k item ab Hf Ht Hnone).
  - rewrite (update_unfold _ _ _ _ _ _ _ _ _ He1 Hp1 Hne). fold ap.
    cbn [fold_left].
    apply (f_equal (fun d => Ok (rebuild ap hl d (join [LF] remaining)))).
    etransitivity;
      [exact (apply_list_merge ap r1 k item (c ++ [COMMA] ++ a) ab Hf Ht Hr1)|].
    unfold ab. rewrite !split_pair by assumption.
    cbn [merge_values mem existsb]. rewrite Hca, Hcb.
    cbn [orb List.app merge_values mem existsb]. now rewrite eqb_refl.
  - exact Hp2.
  - rewrite (Hg2 k Hk). unfold h2. rewrite dict_get_set, eqb_refl. simpl.
    f_equal. rewrite Eabc. now apply strip_members.
Qed.

Lemma update_list_is_ordered_union_witness :
  (exists c1 c2 hl hdrs body,
     update_managed_header Sample.artifact_types Sample.managed_header_items
       (Sample.text ["### REQ-7: Login"; ""; "Body text"])
       [("COVERING_TESTS" : str, "A" ++ [COMMA] ++ "B")] = Ok c1 /\
     update_managed_header Sample.artifact_types Sample.managed_header_items
       c1 [("COVERING_TESTS" : str, "C" ++ [COMMA] ++ "A")] = Ok c2 /\
     parse_managed_headers Sample.artifact_types Sample.managed_header_items
       c2 = Ok (hl, hdrs, body) /\
     dict_get hdrs "COVERING_TESTS"
     = Some ("A" ++ [COMMA] ++ "B" ++ [COMMA] ++ "C")) /\
  (forall existing new,
     exists added,
       merge_values existing new = existing ++ added /\
       NoDup added /\
       forall x, In x added <-> In x new /\ ~ In x existing).
Proof.
  apply (update_list_is_ordered_union Sample.artifact_types
           Sample.managed_header_items
           (Sample.text ["### REQ-7: Login"; ""; "Body text"])
           "REQ" "REQ-7" "COVERING_TESTS"
           (mkHeaderItem "Covering Tests" "list" (Sample.strs ["REQ"]))
           "A" "B" "C" "### REQ-7: Login" [] "Body text");
    vm_compute; reflexivity.
Defined.

End HeaderFacts.

(** ** Steps: marking a step done *)
Module StepFacts.
Import PyStr Re Manager Handlers StrFacts ManagerFacts HeaderFacts.

(** *** The step pattern *)

Lemma lit_rest_app : forall l prev s,
  exists pv, lit_rest false l prev (l ++ s) = Some (pv, s).
Proof.
  induction l as [|x l IH]; intros prev s; simpl.
  - now exists prev.
  - rewrite Ascii.eqb_refl. apply IH.
Qed.

(** An unchecked line of the step matches, with the step number and the
    description as groups 2 and 3. *)
Lemma step_line_match : forall step desc,
  desc <> [] -> forallb dot desc = true ->
  exists m,
    re_match false (step_pattern step) ("[ ] " ++ step ++ " " ++ desc) = Some m /\
    group m 2 = step /\ group m 3 = desc.
Proof.
  intros step desc Hne Hdot. destruct desc as [|c a]; [contradiction|].
  simpl in Hdot. apply andb_prop in Hdot as [Hc Ha].
  unfold re_match, match_here, step_pattern.
  cbn [cat run lit_rest list_ascii_of_string chr_eq List.app].
  rewrite !Ascii.eqb_refl.
  destruct (lit_rest_app step (Some " "%char) (" "%char :: c :: a)) as (pv & E).
  rewrite E. rewrite Ascii.eqb_refl, Hc.
  eexists. split.
  - apply star_greedy_all; [exact Ha|]. intros pv'. reflexivity.
  - unfold group. cbn [m_groups List.app].
    change (2 - 1) with 1. change (3 - 1) with 2. cbn [nth].
    split.
    + apply firstn_consumed.
    + change (length (@nil ascii)) with 0. rewrite Nat.sub_0_r.
      apply firstn_all.
Qed.

Lemma step_line_shape : forall step l m,
  forallb dot l = true ->
  re_match false (step_pattern step) l = Some m ->
  exists desc, desc <> [] /\ l = "[ ] " ++ step ++ " " ++ desc.
Proof.
  intros step l m Hdot H.
  unfold re_match, match_here, step_pattern in H. cbn [cat run] in H.
  destruct (lit_rest false "[ ]" None l) as [[pv1 s1]|] eqn:E1; [|discriminate].
  apply lit_rest_sound in E1.
  destruct (lit_rest false " " pv1 s1) as [[pv2 s2]|] eqn:E2; [|discriminate].
  apply lit_rest_sound in E2.
  destruct (lit_rest false step pv2 s2) as [[pv3 s3]|] eqn:E3; [|discriminate].
  apply lit_rest_sound in E3.
  destruct (lit_rest false " " pv3 s3) as [[pv4 s4]|] eqn:E4; [|discriminate].
  apply lit_rest_sound in E4.
  apply plus_inv in H as (c & a & s5 & pv5 & E5 & _ & _ & H).
  assert (Hs5 : forallb dot s5 = true).
  { subst l s1 s2 s3 s4. simpl in Hdot.
    rewrite !forallb_app in Hdot. simpl in Hdot. rewrite !forallb_app in Hdot.
    repeat (apply andb_prop in Hdot as [_ Hdot]). assumption. }
  assert (s5 = []).
  { destruct s5 as [|x [|y s5]]; [reflexivity| |discriminate].
    simpl in Hs5. unfold dot in Hs5.
    destruct (x =? LF)%char; discriminate. }
  subst s5. exists (c :: a). split; [discriminate|].
  subst l s1 s2 s3 s4. simpl. now rewrite app_nil_r.
Qed.


(** *** [mark_first_step] *)



(** *** Sections of a document *)

Lemma locate_heading_spec : forall id lines before h after,
  locate_heading id lines = Some (before, h, after) ->
  lines = before ++ h :: after /\ is_heading_of id h = true /\
  Forall (fun l => is_heading_of id l = false) before.
Proof.
  intros id lines. induction lines as [|l lines IH]; intros before h after H.
  - discriminate.
  - simpl in H. destruct (is_heading_of id l) eqn:E.
    + injection H as <- <- <-. auto.
    + destruct (locate_heading id lines) as [[[b' h'] a']|]; [|discriminate].
      injection H as <- <- <-.
      destruct (IH b' h' a' eq_refl) as (-> & Hh & Hb). auto.
Qed.

Lemma locate_heading_at : forall id before h after,
  Forall (fun l => is_heading_of id l = false) before ->
  is_heading_of id h = true ->
  locate_heading id (before ++ h :: after) = Some (before, h, after).
Proof.
  intros id before h after H Hh. induction H as [|l before Hl H IH]; simpl.
  - now rewrite Hh.
  - now rewrite Hl, IH.
Qed.

Lemma section_body_spec : forall id after,
  after = section_body id after
          ++ skipn (length (section_body id after)) after /\
  Forall (fun l => ends_section id l = false) (section_body id after) /\
  match skipn (length (section_body id after)) after with
  | [] => True
  | l :: _ => ends_section id l = true
  end.
Proof.
  intros id after. induction after as [|l after (E & F & T)]; simpl.
  - auto.
  - destruct (ends_section id l) eqn:El; simpl.
    + auto.
    + rewrite <- E. auto.
Qed.

Lemma section_body_at : forall id body rest,
  Forall (fun l => ends_section id l = false) body ->
  match rest with [] => True | l :: _ => ends_section id l = true end ->
  section_body id (body ++ rest) = body.
Proof.
  intros id body rest H Hr. induction H as [|l body Hl H IH]; simpl.
  - destruct rest as [|l rest]; [reflexivity|]. simpl. now rewrite Hr.
  - now rewrite Hl, IH.
Qed.

Lemma strip_incl : forall c s, In c (strip s) -> In c s.
Proof.
  intros c s H. unfold strip, strip_of in H.
  destruct (rstrip_of_prefix is_space (lstrip_of is_space s)) as [t Et].
  destruct (drop_while_split is_space s) as (w & Ew & _).
  rewrite Ew. apply in_or_app. right. fold (lstrip_of is_space s).
  rewrite Et. apply in_or_app. now left.
Qed.



Lemma heading_text_visible : forall id h body,
  is_heading_of id h = true -> rstrip (join [LF] (h :: body)) <> [].
Proof.
  intros id h body H. unfold is_heading_of in H.
  destruct (strip h) as [|y s] eqn:E; [discriminate|].
  cbn [list_ascii_of_string List.app startswith] in H.
  apply andb_prop in H as [Hy _]. apply Ascii.eqb_eq in Hy. subst y.
  apply rstrip_of_nonempty with "#"%char; [|reflexivity].
  assert (Hin : In "#"%char h).
  { apply strip_incl. rewrite E. now left. }
  destruct body as [|b body]; [exact Hin|].
  rewrite join_cons2. apply in_or_app. now left.
Qed.




(** *** Files *)

Lemma read_write_other : forall fs p q c,
  eqb p q = false -> read_file (write_file fs p c) q = read_file fs q.
Proof.
  induction fs as [|[x d] fs IH]; intros p q c E; simpl.
  - now rewrite E.
  - destruct (eqb x p) eqn:Ex; simpl.
    + apply eqb_eq in Ex. subst x. now rewrite E.
    + destruct (eqb x q); [reflexivity|now apply IH].
Qed.

Lemma rglob_write : forall fs pat p x,
  In p (map fst (rglob fs pat)) ->
  rglob (write_file fs p x) pat = write_file (rglob fs pat) p x.
Proof.
  intros fs pat p x. unfold rglob.
  induction fs as [|[q d] fs IH]; intros Hin; [contradiction|].
  assert (Hp : fnmatch pat (basename p) = true).
  { apply in_map_iff in Hin as ([p' c] & E & Hin). simpl in E. subst p'.
    apply filter_In in Hin as [_ H]. exact H. }
  simpl. destruct (eqb q p) eqn:E.
  - apply eqb_eq in E. subst q. simpl. rewrite Hp. simpl.
    now rewrite eqb_refl.
  - simpl in *. destruct (fnmatch pat (basename q)) eqn:Eq; simpl.
    + rewrite E. f_equal. apply IH. destruct Hin as [H|H]; [|exact H].
      simpl in H. subst q. now rewrite eqb_refl in E.
    + now apply IH.
Qed.

Lemma find_section_view : forall id files p text,
  find_section id files = Some (p, text) ->
  exists c before h after,
    In (p, c) files /\
    locate_heading id (split LF c) = Some (before, h, after) /\
    text = rstrip (join [LF] (h :: section_body id after)) /\
    find_section_file id files
    = Some (p, before, skipn (length (section_body id after)) after).
Proof.
  intros id files p text. induction files as [|[q c] files IH]; intros H.
  - discriminate.
  - cbn [find_section find_section_file] in *.
    destruct (locate_heading id (split LF c)) as [[[before h] after]|] eqn:El.
    + destruct (locate_heading_spec _ _ _ _ _ El) as (_ & Hh & _).
      assert (Hv := heading_text_visible id h (section_body id after) Hh).
      cbv zeta in H.
      destruct (rstrip (join [LF] (h :: section_body id after))) eqn:Et;
        [contradiction|].
      cbn [is_empty] in H. injection H as <- <-.
      exists c, before, h, after. rewrite <- Et.
      repeat split; auto. now left.
    + destruct (IH H) as (c' & before & h & after & Hin & Hl & Ht & Hf).
      exists c', before, h, after. repeat split; auto. now right.
Qed.

(** Writing the file of the section: the section is found again in the
    content written. *)
Lemma find_section_written : forall id files p before after' newc text',
  find_section_file id files = Some (p, before, after') ->
  (forall rest, find_section id ((p, newc) :: rest) = Some (p, text')) ->
  find_section id (write_file files p newc) = Some (p, text').
Proof.
  intros id files p before after' newc text'.
  induction files as [|[q c] files IH]; intros H Hnew.
  - discriminate.
  - simpl in H.
    destruct (locate_heading id (split LF c)) as [[[b h] a]|] eqn:El.
    + injection H as <- <- <-. simpl. rewrite eqb_refl. apply Hnew.
    + simpl. destruct (eqb q p) eqn:E.
      * apply eqb_eq in E. subst q. apply Hnew.
      * simpl. rewrite El. now apply IH.
Qed.

Lemma find_section_file_in : forall id files p before after',
  find_section_file id files = Some (p, before, after') ->
  In p (map fst files).
Proof.
  intros id files p before after'.
  induction files as [|[q c] files IH]; intros H; [discriminate|].
  simpl in H. destruct (locate_heading id (split LF c)) as [[[b h] a]|].
  - injection H as <- _ _. now left.
  - right. now apply IH.
Qed.

Lemma rstrip_last : forall s,
  rstrip s <> [] -> exists t d, rstrip s = t ++ [d] /\ is_space d = false.
Proof.
  intros s H. unfold rstrip, rstrip_of in *.
  destruct (drop_while is_space (rev s)) as [|d t] eqn:E; [contradiction|].
  exists (rev t), d. split; [reflexivity|].
  eapply drop_while_result; eauto.
Qed.






(** The unchecked lines of a step are the lines of the form
    [[ ] number description]. *)
Lemma open_step_iff : forall step l,
  forallb dot l = true ->
  (is_open_step step l = true <->
   exists desc, desc <> [] /\ l = "[ ] " ++ step ++ " " ++ desc).
Proof.
  intros step l Hl. unfold is_open_step. split.
  - destruct (re_match false (step_pattern step) l) as [m|] eqn:E;
      [|discriminate].
    intros _. eapply step_line_shape; eauto.
  - intros (desc & Hne & ->).
    destruct (step_line_match step desc Hne) as (m & -> & _); [|reflexivity].
    cbn [list_ascii_of_string List.app forallb] in Hl.
    rewrite !forallb_app in Hl. simpl in Hl.
    repeat (apply andb_prop in Hl as [_ Hl]). exact Hl.
Qed.



Lemma index_of_other : forall st fs p x,
  repo st = Some fs -> eqb p INDEX_PATH = false ->
  index_of (set_repo st (write_file fs p x)) = index_of st.
Proof.
  intros st fs p x Hr Hp. unfold index_of, repo_files. simpl. rewrite Hr.
  now apply read_write_other.
Qed.

Lemma resolve_same_index : forall st st' id,
  index_of st' = index_of st ->
  resolve_artifact_identifier st' id = resolve_artifact_identifier st id.
Proof.
  intros st st' id E. unfold resolve_artifact_identifier. now rewrite E.
Qed.

Lemma visible_not_lf : forall d, is_space d = false -> is_char LF d = false.
Proof.
  intros d H. unfold is_char. destruct (d =? LF)%char eqn:E; [|reflexivity].
  apply Ascii.eqb_eq in E. subst d. discriminate.
Qed.




End StepFacts.

(** ** The handlers on concrete documents *)
Module HandlerFacts.
Import PyStr Index Types Manager StrFacts.

(** Claim C2 fails on the code.  Finalizing the draft TASK-PROVISIONAL1.md
    allocates TASK-1 and replaces the token in the heading, but the step
    references PROVISIONAL1.1 and PROVISIONAL1.2 are still in the
    finalized file, where the claim has 1.1 and 1.2.  The sibling
    [_process_provisional_ids_filtered] rewrites them on the same text. *)
Theorem finalize_keeps_step_references :
  let result :=
    Handlers.finalize_provisional_file Sample.artifact_types
      Sample.no_finalize Sample.no_finalize
      (Sample.empty_repo [Sample.task_draft]) "TASK-PROVISIONAL1.md" None in
  option_map id_mappings
    (match fst result with Ok r => Some r | Raise _ => None end)
  = Some [("TASK-PROVISIONAL1" : str, "TASK-1" : str)] /\
  read_file (repo_files (snd result)) "TASK-1.md"
  = Some (Sample.text ["### TASK-1: Build the form";
                       "[ ] PROVISIONAL1.1 Draw the form";
                       "[ ] PROVISIONAL1.2 Wire the form"]
          ++ get_version_footer) /\
  option_map updated_content
    (match _process_provisional_ids_filtered Sample.artifact_types
             (Sample.empty_repo []) Sample.task_draft_text [] None with
     | Ok a => Some a
     | Raise _ => None
     end)
  = Some (Sample.text ["### TASK-1: Build the form";
                       "[ ] 1.1 Draw the form";
                       "[ ] 1.2 Wire the form"]).
Proof. vm_compute. repeat split; reflexivity. Qed.

(** Claim C3 fails on the code.  With the list UACC-17 (NEW),UACC-170 (NEW)
    a change of UACC-17 to ACTIVE rewrites the annotation of UACC-170 as
    well, because an entry is selected by prefix; the REQ section stored
    after [update_status] shows both entries as ACTIVE while UACC-170 itself
    is still NEW in the index. *)
Theorem covering_tests_prefix_rewrites_other_entry :
  Handlers._update_test_status_in_list "UACC-17 (NEW),UACC-170 (NEW)"
    "UACC-17" "ACTIVE"
  = ("UACC-17 (ACTIVE),UACC-170 (ACTIVE)" : str) /\
  let st' :=
    snd (Handlers.update_status Sample.artifact_types
           Sample.managed_header_items Sample.covered_repo
           "UACC-17" "ACTIVE") in
  match get_artifact st' "REQ-2" with
  | Success r => Some (content r)
  | Failure _ => None
  end
  = Some (Sample.text ["### REQ-2: Login";
                       "`Covering Tests`: UACC-17 (ACTIVE),UACC-170 (ACTIVE)";
                       "Users log in."]) /\
  option_map Index.status (get_artifact_by_id (index_of st') "UACC-170")
  = Some (Some ("NEW" : str)).
Proof. vm_compute. repeat split; reflexivity. Qed.

End HandlerFacts.

(** ** The ledger: lookups after additions and updates *)
Module LedgerFacts.
Import PyStr Re Csv Index IndexQueries StrFacts CsvFacts IndexFacts ManagerFacts
  HeaderFacts.

Lemma rstrip_nil_all : forall p s, rstrip_of p s = [] -> forallb p s = true.
Proof.
  intros p s H. unfold rstrip_of in H.
  apply (f_equal (@rev ascii)) in H. rewrite rev_involutive in H. simpl in H.
  rewrite <- forallb_rev.
  induction (rev s) as [|a r IH]; [reflexivity|].
  simpl in *. destruct (p a); [now apply IH|discriminate].
Qed.

Lemma rstrip_after_visible : forall x d y,
  is_space d = false -> rstrip (x ++ d :: y) = x ++ d :: rstrip y.
Proof.
  intros x d y Hd. unfold rstrip.
  destruct (rstrip_of is_space y) as [|c t] eqn:E.
  - change (x ++ d :: y) with (x ++ [d] ++ y). rewrite app_assoc.
    rewrite rstrip_of_app_all by now apply rstrip_nil_all.
    now rewrite rstrip_of_last.
  - change (x ++ d :: y) with (x ++ [d] ++ y). rewrite app_assoc.
    rewrite rstrip_of_app by (rewrite E; discriminate).
    now rewrite E, <- app_assoc.
Qed.

(** *** The reader on plain fields *)

Lemma in_field_chars : forall x r r1,
  existsb needs_quote x = false ->
  r_state r = IN_FIELD ->
  feed r x = Some r1 ->
  r1 = mkReader IN_FIELD (r_fields r) (r_field r ++ x).
Proof.
  induction x as [|c x IH]; intros r r1 Hx Hs H.
  - simpl in H. injection H as <-. rewrite app_nil_r.
    destruct r; simpl in *. now subst.
  - simpl in Hx. apply orb_false_iff in Hx as [Hc Hx].
    destruct (needs_quote_false c Hc) as (Hcomma & _ & Hcr & Hlf).
    simpl in H. unfold parse_process_char in H. rewrite Hs in H.
    unfold is_nl in H. rewrite Hlf, Hcr, Hcomma in H. simpl in H.
    unfold parse_add_char in H.
    destruct (field_limit <=? _)%N; [discriminate|].
    apply IH in H; [|assumption|exact Hs].
    simpl in H. now rewrite <- app_assoc in H.
Qed.

Lemma unquoted_last : forall x r r1,
  existsb needs_quote x = false ->
  r_state r = START_FIELD -> r_field r = [] ->
  feed r x = Some r1 ->
  parse_process_char r1 None
  = Some (mkReader START_RECORD (r_fields r ++ [x]) []).
Proof.
  intros [|c x] r r1 Hx Hs Hf H.
  - simpl in H. injection H as <-. unfold parse_process_char.
    rewrite Hs. unfold start_field, set_state, parse_save_field. simpl.
    now rewrite Hf.
  - simpl in Hx. apply orb_false_iff in Hx as [Hc Hx].
    destruct (needs_quote_false c Hc) as (Hcomma & Hq & Hcr & Hlf).
    simpl in H. unfold parse_process_char in H. rewrite Hs in H.
    unfold start_field, is_nl in H. rewrite Hlf, Hcr, Hq, Hcomma in H.
    simpl in H. unfold parse_add_char in H.
    destruct (field_limit <=? _)%N; [discriminate|]. simpl in H.
    apply in_field_chars in H; [|assumption|reflexivity].
    subst r1. simpl. unfold set_state, parse_save_field. simpl.
    now rewrite Hf.
Qed.

Lemma reader_plain_row : forall f1 f2 f3 f4 f5 f6 parts,
  f1 <> [] ->
  existsb needs_quote f1 = false -> existsb needs_quote f2 = false ->
  existsb needs_quote f3 = false -> existsb needs_quote f4 = false ->
  existsb needs_quote f5 = false -> existsb needs_quote f6 = false ->
  reader_next (f1 ++ COMMA :: f2 ++ COMMA :: f3 ++ COMMA :: f4 ++ COMMA ::
               f5 ++ COMMA :: f6) = Some parts ->
  parts = [f1; f2; f3; f4; f5; f6].
Proof.
  intros f1 f2 f3 f4 f5 f6 parts Hne H1 H2 H3 H4 H5 H6 H.
  unfold reader_next in H. rewrite stringio_single in H.
  - cbn [iternext] in H.
    destruct (feed parse_reset _) as [r1|] eqn:E; [|discriminate].
    apply unquoted_field in E; [|assumption|now split; [left|]].
    apply unquoted_field in E; [|assumption|now split; [right|]].
    apply unquoted_field in E; [|assumption|now split; [right|]].
    apply unquoted_field in E; [|assumption|now split; [right|]].
    apply unquoted_field in E; [|assumption|now split; [right|]].
    apply unquoted_last in E; [|assumption|reflexivity|reflexivity].
    rewrite E in H. simpl in H. now injection H as <-.
  - now destruct f1.
  - rewrite !existsb_app. simpl.
    assert (P : forall x, existsb needs_quote x = false ->
                existsb (is_char LF) x = false).
    { intros x Hx. induction x as [|c x IH]; [reflexivity|].
      simpl in *. apply orb_false_iff in Hx as [Hc Hx].
      destruct (needs_quote_false c Hc) as (_ & _ & _ & Hlf).
      unfold is_char at 1. rewrite Hlf. now apply IH. }
    rewrite !existsb_app. simpl. rewrite !existsb_app. simpl.
    rewrite !existsb_app. simpl. rewrite !existsb_app. simpl.
    now rewrite !P.
Qed.

Lemma split_plain_row : forall f1 f2 f3 f4 f5 f6,
  existsb needs_quote f1 = false -> existsb needs_quote f2 = false ->
  existsb needs_quote f3 = false -> existsb needs_quote f4 = false ->
  existsb needs_quote f5 = false -> existsb needs_quote f6 = false ->
  split COMMA (f1 ++ COMMA :: f2 ++ COMMA :: f3 ++ COMMA :: f4 ++ COMMA ::
               f5 ++ COMMA :: f6) = [f1; f2; f3; f4; f5; f6].
Proof.
  intros. rewrite !split_app_sep.
  rewrite !split_no_sep by now apply plain_no_comma. reflexivity.
Qed.

Lemma plain_rstrip : forall x,
  existsb needs_quote x = false -> existsb needs_quote (rstrip x) = false.
Proof. intros x H. now apply existsb_rstrip. Qed.

Lemma write_plain : forall x,
  existsb needs_quote x = false -> write_field x = x.
Proof. intros x H. unfold write_field. now rewrite H. Qed.

Lemma strip_or_none_rstrip : forall x,
  strip_or_none (rstrip x) = strip_or_none x.
Proof. intros x. unfold strip_or_none. now rewrite strip_rstrip. Qed.

(** The line written for plain columns. *)
Lemma format_plain : forall doc aid nm st isf par,
  isdigit doc = true ->
  existsb needs_quote aid = false ->
  existsb needs_quote (or_empty nm) = false ->
  existsb needs_quote (or_empty st) = false ->
  existsb needs_quote (or_empty par) = false ->
  _format_index_line doc aid nm st isf par
  = doc ++ COMMA :: aid ++ COMMA :: or_empty nm ++ COMMA :: or_empty st
    ++ COMMA :: (if isf then "true" else "false") ++ COMMA
    :: rstrip (or_empty par).
Proof.
  intros doc aid nm st isf par Hdoc Ha Hn Hs Hp.
  unfold isdigit in Hdoc. apply andb_prop in Hdoc as [Hne Hdig].
  destruct doc as [|d P]; [discriminate|].
  assert (Hd : is_space d = false).
  { simpl in Hdig. apply andb_prop in Hdig as [Hd _].
    now apply digit_not_space. }
  assert (Ht : existsb needs_quote
                 (if isf then ("true" : str) else ("false" : str)) = false)
    by now destruct isf.
  unfold _format_index_line, writerow. cbn [map].
  rewrite (write_plain (d :: P)) by now apply digits_plain.
  rewrite !write_plain by assumption.
  set (tf := if isf then ("true" : str) else ("false" : str)) in *.
  cbn [join]. rewrite <- (app_assoc (d :: P)).
  set (Y0 := [COMMA] ++ aid ++ [COMMA] ++ or_empty nm ++ [COMMA] ++ or_empty st
             ++ [COMMA] ++ tf ++ [COMMA] ++ or_empty par).
  rewrite strip_row; [|assumption|now left].
  f_equal. unfold Y0.
  replace ([COMMA] ++ aid ++ [COMMA] ++ or_empty nm ++ [COMMA] ++ or_empty st
           ++ [COMMA] ++ tf ++ [COMMA] ++ or_empty par)
    with ((COMMA :: aid ++ COMMA :: or_empty nm ++ COMMA :: or_empty st
           ++ COMMA :: tf) ++ COMMA :: or_empty par)
    by (cbn [List.app]; rewrite <- !app_assoc; cbn [List.app];
        rewrite <- !app_assoc; cbn [List.app]; rewrite <- !app_assoc;
        reflexivity).
  rewrite rstrip_after_visible by reflexivity.
  cbn [List.app]. rewrite <- !app_assoc. cbn [List.app].
  rewrite <- !app_assoc. cbn [List.app]. rewrite <- !app_assoc.
  reflexivity.
Qed.

Lemma csv_parts_plain : forall f1 f2 f3 f4 f5 f6,
  f1 <> [] ->
  existsb needs_quote f1 = false -> existsb needs_quote f2 = false ->
  existsb needs_quote f3 = false -> existsb needs_quote f4 = false ->
  existsb needs_quote f5 = false -> existsb needs_quote f6 = false ->
  csv_parts (f1 ++ COMMA :: f2 ++ COMMA :: f3 ++ COMMA :: f4 ++ COMMA ::
             f5 ++ COMMA :: f6) = [f1; f2; f3; f4; f5; f6].
Proof.
  intros f1 f2 f3 f4 f5 f6 Hne H1 H2 H3 H4 H5 H6. unfold csv_parts.
  destruct (reader_next _) as [parts|] eqn:E.
  - now apply reader_plain_row in E.
  - now apply split_plain_row.
Qed.

(** The record read from a line written for plain columns. *)
Lemma parse_format_plain : forall doc aid nm st isf par,
  isdigit doc = true ->
  is_empty (strip aid) = false ->
  existsb needs_quote aid = false ->
  existsb needs_quote (or_empty nm) = false ->
  existsb needs_quote (or_empty st) = false ->
  existsb needs_quote (or_empty par) = false ->
  _parse_index_line (_format_index_line doc aid nm st isf par)
  = Some (mkArtifact doc (strip aid) (strip_or_none (or_empty nm))
            (strip_or_none (or_empty st)) isf
            (strip_or_none (or_empty par))).
Proof.
  intros doc aid nm st isf par Hdoc Hne Ha Hn Hs Hp.
  assert (Hfmt := format_plain doc aid nm st isf par Hdoc Ha Hn Hs Hp).
  unfold _parse_index_line.
  assert (Hstrip : strip (_format_index_line doc aid nm st isf par)
                   = _format_index_line doc aid nm st isf par).
  { unfold _format_index_line. apply strip_idem. }
  rewrite Hstrip, Hfmt.
  assert (Hdig : forallb is_digit doc = true).
  { unfold isdigit in Hdoc. now apply andb_prop in Hdoc. }
  assert (Hd : doc <> []) by (intros ->; discriminate).
  assert (Ht : existsb needs_quote
                 (if isf then ("true" : str) else ("false" : str)) = false)
    by now destruct isf.
  rewrite csv_parts_plain; try assumption;
    [|now apply digits_plain|now apply plain_rstrip].
  replace (is_empty _ || negb (existsb (is_char COMMA) _)) with false.
  2:{ symmetry. apply orb_false_iff. split; [now destruct doc|].
      rewrite existsb_app. simpl. now rewrite orb_true_r. }
  unfold entry_of_parts. cbn [length REQUIRED_COLUMNS COLUMN_NAMES map Nat.ltb
    Nat.leb pad_to Nat.sub repeat nth List.app].
  rewrite (strip_digits doc Hdig), Hdoc. cbn [negb].
  rewrite Hne. rewrite strip_or_none_rstrip.
  destruct isf; reflexivity.
Qed.

Lemma plain_columns_spec : forall aid nm st par,
  plain_columns aid nm st par = true ->
  existsb needs_quote aid = false /\
  existsb needs_quote (or_empty nm) = false /\
  existsb needs_quote (or_empty st) = false /\
  existsb needs_quote (or_empty par) = false.
Proof.
  intros aid nm st par H. unfold plain_columns, plain in H.
  repeat (apply andb_prop in H as [H ?]).
  repeat split; now apply negb_true_iff.
Qed.

(** Writing a ledger line and reading it back.  For a document ID made of
    digits, an artifact ID with visible text, and columns without a comma,
    a double quote or a line break, [_parse_index_line] of the line that
    [_format_index_line] writes is the record of these columns: the artifact
    ID stripped of blanks, an empty or blank name, status or parent read as
    [None], the other ones stripped of blanks. *)
Theorem ledger_line_round_trip : forall doc aid nm st isf par,
  isdigit doc = true ->
  is_empty (strip aid) = false ->
  plain_columns aid nm st par = true ->
  _parse_index_line (_format_index_line doc aid nm st isf par)
  = Some (stored doc aid nm st isf par).
Proof.
  intros doc aid nm st isf par Hdoc Hne Hplain.
  destruct (plain_columns_spec _ _ _ _ Hplain) as (Pa & Pn & Ps & Pp).
  now apply parse_format_plain.
Qed.

Lemma ledger_line_round_trip_witness :
  _parse_index_line
    (_format_index_line "7" " REQ-7" (Some ("Login" : str)) (Some (" " : str))
       false (Some ("PRD-3" : str)))
  = Some (stored "7" " REQ-7" (Some ("Login" : str)) (Some (" " : str)) false
            (Some ("PRD-3" : str))).
Proof.
  apply ledger_line_round_trip; reflexivity.
Defined.

Lemma plain_no_lf : forall x, existsb needs_quote x = false -> no_lf x.
Proof.
  intros x Hx. unfold no_lf. induction x as [|c x IH]; [reflexivity|].
  simpl in *. apply orb_false_iff in Hx as [Hc Hx].
  destruct (needs_quote_false c Hc) as (_ & _ & _ & Hlf).
  unfold is_char at 1. rewrite Hlf. now apply IH.
Qed.

Lemma max_of_ge : forall ns n, In n ns -> (n <= max_of ns)%N.
Proof.
  induction ns as [|m ns IH]; intros n H; [contradiction|].
  destruct H as [->|H]; unfold max_of in *; simpl.
  - lia.
  - apply IH in H. lia.
Qed.

(** No record of the ledger carries the next document ID. *)
Lemma next_doc_id_fresh : forall f a,
  In a (get_all_artifacts f) ->
  doc_id a <> str_of_N (fst (get_next_doc_id f)).
Proof.
  intros f a Hin E.
  destruct (doc_numbers_defined (get_all_artifacts f)) as [ns Hns].
  { intros x Hx. eapply all_parsed_digits; eauto. }
  rewrite (next_doc_id_of_numbers f ns Hns) in E.
  assert (Hn : In (int_of_str (doc_id a)) (doc_numbers (get_all_artifacts f))).
  { unfold doc_numbers. now apply (in_map (fun a => int_of_str (doc_id a))). }
  rewrite Hns, E, int_of_str_of_N in Hn.
  apply in_map_iff in Hn as (n & En & Hn). injection En as ->.
  apply max_of_ge in Hn. lia.
Qed.

Lemma add_appends_stored : forall f aid nm st isf par d f',
  add_artifact f aid nm st isf par = Ok (d, f') ->
  is_empty aid = false -> strip aid = aid ->
  plain_columns aid nm st par = true ->
  get_all_artifacts f' = get_all_artifacts f ++ [stored d aid nm st isf par].
Proof.
  intros f aid nm st isf par d f' Hadd Hne Hs Hplain.
  destruct (plain_columns_spec _ _ _ _ Hplain) as (Pa & Pn & Ps & Pp).
  assert (Hnone : get_artifact_by_id f aid = None).
  { unfold add_artifact in Hadd.
    destruct (get_artifact_by_id f aid); [discriminate|reflexivity]. }
  unfold add_artifact in Hadd. rewrite Hnone in Hadd.
  rewrite next_doc_id_ensure in Hadd. cbv zeta in Hadd.
  injection Hadd as Hd Hf'. rewrite <- Hf', <- Hd.
  assert (Hline := parse_format_plain
                     (str_of_N (fst (get_next_doc_id f))) aid nm st isf par
                     (isdigit_str_of_N _)).
  rewrite Hs in Hline. rewrite Hne in Hline.
  specialize (Hline eq_refl Pa Pn Ps Pp).
  rewrite appended_artifacts.
  - rewrite Hline. unfold stored. rewrite Hs.
    f_equal. destruct f as [c|]; [reflexivity|].
    cbn [_ensure_index_file_exists or_empty]. apply initial_content_empty.
  - apply parse_formatted; try (now apply plain_no_lf).
    + apply str_of_N_nonempty.
    + apply str_of_N_digits.
    + rewrite Hs. intros ->. discriminate.
Qed.

(** Adding an artifact, then looking it up.  For an artifact ID with visible
    text and no blanks around it, and columns without a comma, a double quote
    or a line break, a successful [add_artifact] appends one record to the
    ledger; [get_artifact_by_id] finds it under the artifact ID and
    [get_artifact_by_doc_id] under the returned document ID; adding the same
    artifact ID again raises [ValueError]. *)
Theorem add_then_lookup : forall f aid nm st isf par d f',
  add_artifact f aid nm st isf par = Ok (d, f') ->
  is_empty aid = false -> eqb (strip aid) aid = true ->
  plain_columns aid nm st par = true ->
  get_all_artifacts f' = get_all_artifacts f ++ [stored d aid nm st isf par] /\
  get_artifact_by_id f' aid = Some (stored d aid nm st isf par) /\
  get_artifact_by_doc_id f' d = Some (stored d aid nm st isf par) /\
  forall nm' st' isf' par',
    add_artifact f' aid nm' st' isf' par' = Raise ValueError.
Proof.
  intros f aid nm st isf par d f' Hadd Hne Hs Hplain.
  apply eqb_eq in Hs.
  destruct (add_artifact_doc _ _ _ _ _ _ _ _ Hadd) as (Ed & c' & Ef).
  assert (Hnone : get_artifact_by_id f aid = None).
  { unfold add_artifact in Hadd.
    destruct (get_artifact_by_id f aid); [discriminate|reflexivity]. }
  assert (Hall := add_appends_stored _ _ _ _ _ _ _ _ Hadd Hne Hs Hplain).
  assert (Hid : get_artifact_by_id f' aid
                = Some (stored d aid nm st isf par)).
  { unfold get_artifact_by_id in *. rewrite Hall, find_app_none by assumption.
    cbn [find stored artifact_id]. now rewrite Hs, eqb_refl. }
  split; [exact Hall|]. split; [exact Hid|]. split.
  - unfold get_artifact_by_doc_id. rewrite Hall, find_app_none.
    + cbn [find stored doc_id]. now rewrite eqb_refl.
    + apply find_none_iff. intros a Ha. apply eqb_neq. rewrite Ed.
      now apply next_doc_id_fresh.
  - intros nm' st' isf' par'. eapply add_artifact_refused; eauto.
Qed.

Lemma add_then_lookup_witness :
  let f' := Some (appended initial_content
                    (_format_index_line "1" "REQ-1" (Some ("Login" : str))
                       None false (Some ("PRD-3" : str)))) in
  get_all_artifacts f'
  = get_all_artifacts None
    ++ [stored "1" "REQ-1" (Some ("Login" : str)) None false
          (Some ("PRD-3" : str))] /\
  get_artifact_by_id f' "REQ-1"
  = Some (stored "1" "REQ-1" (Some ("Login" : str)) None false
            (Some ("PRD-3" : str))) /\
  get_artifact_by_doc_id f' "1"
  = Some (stored "1" "REQ-1" (Some ("Login" : str)) None false
            (Some ("PRD-3" : str))) /\
  forall nm' st' isf' par',
    add_artifact f' "REQ-1" nm' st' isf' par' = Raise ValueError.
Proof.
  apply (add_then_lookup None "REQ-1" (Some ("Login" : str)) None false
           (Some ("PRD-3" : str))); vm_compute; reflexivity.
Defined.

(** The children of a parent after an artifact was added under it: the
    new record comes after the children that were there, and
    [get_children_artifacts] gives exactly the records of the ledger whose
    parent column is the given text (compared as written, case and all). *)
Theorem add_then_children : forall f aid nm st isf p d f',
  add_artifact f aid nm st isf (Some p) = Ok (d, f') ->
  is_empty aid = false -> eqb (strip aid) aid = true ->
  is_empty p = false -> eqb (strip p) p = true ->
  plain_columns aid nm st (Some p) = true ->
  get_children_artifacts f' p
  = get_children_artifacts f p ++ [stored d aid nm st isf (Some p)] /\
  forall a, In a (get_children_artifacts f' p) <->
            In a (get_all_artifacts f') /\ parent a = Some p.
Proof.
  intros f aid nm st isf p d f' Hadd Hne Hs Hp Hps Hplain.
  apply eqb_eq in Hs, Hps.
  assert (Hall := add_appends_stored _ _ _ _ _ _ _ _ Hadd Hne Hs Hplain).
  split.
  - unfold get_children_artifacts, get_artifacts_by_filter.
    rewrite Hall, filter_app. f_equal.
    cbn [filter stored parent column_is or_empty].
    unfold strip_or_none. rewrite Hps, Hp. cbn [column_is].
    now rewrite eqb_refl.
  - intros a. unfold get_children_artifacts, get_artifacts_by_filter.
    rewrite filter_In. unfold column_is. split; intros [H1 H2]; split; auto.
    + destruct (parent a); [|discriminate]. apply eqb_eq in H2. now subst.
    + rewrite H2. apply eqb_refl.
Qed.

Lemma add_then_children_witness :
  let f' := Some (appended initial_content
                    (_format_index_line "1" "REQ-1" (Some ("Login" : str))
                       None false (Some ("PRD-3" : str)))) in
  get_children_artifacts f' "PRD-3"
  = get_children_artifacts None "PRD-3"
    ++ [stored "1" "REQ-1" (Some ("Login" : str)) None false
          (Some ("PRD-3" : str))] /\
  forall a, In a (get_children_artifacts f' "PRD-3") <->
            In a (get_all_artifacts f') /\ parent a = Some ("PRD-3" : str).
Proof.
  apply (add_then_children None "REQ-1" (Some ("Login" : str)) None false
           "PRD-3"); vm_compute; reflexivity.
Defined.

Lemma entry_id_clean : forall parts a,
  entry_of_parts parts = Some a ->
  strip (artifact_id a) = artifact_id a /\ is_empty (artifact_id a) = false.
Proof.
  intros parts a H. unfold entry_of_parts in H.
  destruct (length parts <? length REQUIRED_COLUMNS)%nat; [discriminate|].
  cbv zeta in H.
  destruct (negb (isdigit _)); [discriminate|].
  match type of H with
  | context [if is_empty ?x then _ else _] =>
      destruct (is_empty x) eqn:E; [discriminate|]
  end.
  injection H as <-. cbn [artifact_id]. split; [apply strip_idem|exact E].
Qed.

Lemma parsed_id_clean : forall l a,
  _parse_index_line l = Some a ->
  strip (artifact_id a) = artifact_id a /\ is_empty (artifact_id a) = false.
Proof.
  intros l a H. unfold _parse_index_line in H.
  destruct (is_empty (strip l) || _); [discriminate|].
  eapply entry_id_clean; eauto.
Qed.

Lemma update_lines_none : forall lines aid nm st isf par,
  find (fun a => eqb (upper (artifact_id a)) (upper aid)) (parse_lines lines)
  = None ->
  update_lines lines aid nm st isf par = None.
Proof.
  induction lines as [|l lines IH]; intros aid nm st isf par H.
  - reflexivity.
  - cbn [update_lines parse_lines] in *.
    destruct (_parse_index_line l) as [a|].
    + cbn [find] in H.
      destruct (eqb (upper (artifact_id a)) (upper aid)); [discriminate|].
      now rewrite IH.
    + now rewrite IH.
Qed.

Lemma update_lines_some : forall lines aid nm st isf par a,
  find (fun a => eqb (upper (artifact_id a)) (upper aid)) (parse_lines lines)
  = Some a ->
  exists pre l post,
    lines = pre ++ l :: post /\
    _parse_index_line l = Some a /\
    find (fun a => eqb (upper (artifact_id a)) (upper aid)) (parse_lines pre)
    = None /\
    update_lines lines aid nm st isf par
    = Some (pre ++
            (let a' := set_fields a nm st isf par in
             _format_index_line (doc_id a') (artifact_id a') (name a')
               (status a') (is_file a') (parent a')) :: post).
Proof.
  induction lines as [|l lines IH]; intros aid nm st isf par a H.
  - discriminate.
  - cbn [update_lines parse_lines] in *.
    destruct (_parse_index_line l) as [b|] eqn:El.
    + cbn [find] in H.
      destruct (eqb (upper (artifact_id b)) (upper aid)) eqn:E.
      * injection H as <-. exists [], l, lines. auto.
      * destruct (IH aid nm st isf par a H) as (pre & l' & post & -> & P & F & U).
        exists (l :: pre), l', post. cbn [parse_lines List.app find].
        rewrite El. cbn [find]. rewrite E, U. auto.
    + destruct (IH aid nm st isf par a H) as (pre & l' & post & -> & P & F & U).
      exists (l :: pre), l', post. cbn [parse_lines List.app].
      rewrite El, U. auto.
Qed.

(** [update_artifact] of the ledger finds what [get_artifact_by_id] finds:
    an artifact that is not in the ledger gives [False] and the file is left
    as it is, an artifact that is in the ledger gives [True]. *)
Theorem index_update_reports_presence : forall f aid nm st isf par,
  match get_artifact_by_id f aid with
  | None => update_artifact f aid nm st isf par = (false, f)
  | Some _ => fst (update_artifact f aid nm st isf par) = true
  end.
Proof.
  intros f aid nm st isf par. unfold get_artifact_by_id, update_artifact.
  destruct f as [content|]; [|reflexivity]. cbn [get_all_artifacts].
  destruct (find _ (parse_lines (split LF content))) as [a|] eqn:E.
  - destruct (update_lines_some _ _ nm st isf par _ E)
      as (pre & l & post & _ & _ & _ & U).
    now rewrite U.
  - now rewrite update_lines_none.
Qed.

Lemma find_app_some : forall (A : Type) (p : A -> bool) l1 l2 x,
  find p l1 = Some x -> find p (l1 ++ l2) = Some x.
Proof.
  intros A p l1 l2 x. induction l1 as [|y l1 IH]; [discriminate|].
  simpl. destruct (p y); auto.
Qed.

Lemma no_lf_dot : forall x, no_lf x -> forallb dot x = true.
Proof.
  intros x H. unfold no_lf in H. induction x as [|c x IH]; [reflexivity|].
  simpl in *. apply orb_false_iff in H as [Hc H].
  unfold dot at 1. unfold is_char in Hc. rewrite Hc. now apply IH.
Qed.

Lemma update_stored : forall f aid nm st isf par a,
  get_artifact_by_id f aid = Some a ->
  (let a' := set_fields a nm st isf par in
   plain_columns (artifact_id a') (name a') (status a') (parent a')) = true ->
  exists c',
    update_artifact f aid nm st isf par = (true, Some c') /\
    (let a' := set_fields a nm st isf par in
     get_artifact_by_id (Some c') aid
     = Some (stored (doc_id a) (artifact_id a) (name a') (status a')
               (is_file a') (parent a'))) /\
    map doc_id (get_all_artifacts (Some c')) = map doc_id (get_all_artifacts f) /\
    forall other,
      eqb (upper other) (upper aid) = false ->
      get_artifact_by_id (Some c') other = get_artifact_by_id f other.
Proof.
  intros f aid nm st isf par a Hget Hplain. cbv zeta in *.
  unfold get_artifact_by_id, update_artifact in *.
  destruct f as [content|]; [|discriminate]. cbn [get_all_artifacts] in *.
  destruct (update_lines_some _ _ nm st isf par _ Hget)
    as (pre & l & post & El & Pl & Fpre & U).
  rewrite U. cbv zeta.
  set (a' := set_fields a nm st isf par) in *.
  set (line := _format_index_line (doc_id a') (artifact_id a') (name a')
                 (status a') (is_file a') (parent a')).
  destruct (plain_columns_spec _ _ _ _ Hplain) as (Pa & Pn & Ps & Pp).
  destruct (parsed_id_clean l a Pl) as (Hclean & Hne).
  assert (Hdig : isdigit (doc_id a) = true) by (eapply parsed_digits; eauto).
  assert (Hline : _parse_index_line line
                  = Some (stored (doc_id a) (artifact_id a) (name a')
                            (status a') (is_file a') (parent a'))).
  { unfold line, stored.
    apply (parse_format_plain (doc_id a') (artifact_id a') (name a')
             (status a') (is_file a') (parent a')); try assumption.
    change (artifact_id a') with (artifact_id a). now rewrite Hclean. }
  assert (Hnolf : forallb dot line = true).
  { apply no_lf_dot.
    apply (parse_formatted (doc_id a') (artifact_id a') (name a') (status a')
             (is_file a') (parent a')); try (now apply plain_no_lf).
    - cbn [doc_id a' set_fields]. intros E. rewrite E in Hdig. discriminate.
    - unfold isdigit in Hdig. now apply andb_prop in Hdig.
    - cbn [artifact_id a' set_fields]. rewrite Hclean. intros E.
      rewrite E in Hne. discriminate. }
  assert (Hdots := split_lines_dot content). rewrite El in Hdots.
  apply Forall_app in Hdots as [Dpre Dl]. apply Forall_cons_iff in Dl as [_ Dpost].
  assert (Hback : split LF (join [LF] (pre ++ line :: post))
                  = pre ++ line :: post).
  { apply split_join; [now destruct pre|].
    apply Forall_app. split; [exact Dpre|]. now constructor. }
  exists (join [LF] (pre ++ line :: post)).
  cbn [get_all_artifacts]. rewrite Hback, El.
  rewrite !parse_lines_app. cbn [parse_lines]. rewrite Hline, Pl.
  split; [reflexivity|]. split; [|split].
  - rewrite find_app_none by exact Fpre. cbn [find stored artifact_id].
    assert (E : eqb (upper (artifact_id a)) (upper aid) = true)
      by exact (proj2 (find_some _ _ Hget)).
    rewrite Hclean, E. reflexivity.
  - rewrite !map_app. reflexivity.
  - intros other Ho.
    assert (E : eqb (upper (artifact_id a)) (upper aid) = true)
      by exact (proj2 (find_some _ _ Hget)).
    apply eqb_eq in E.
    assert (N : eqb (upper (artifact_id a)) (upper other) = false).
    { apply eqb_neq. intros C. rewrite E in C. symmetry in C.
      apply eqb_eq in C. congruence. }
    destruct (find (fun a0 => eqb (upper (artifact_id a0)) (upper other))
                (parse_lines pre)) as [x|] eqn:Fo.
    + rewrite !(find_app_some _ _ _ _ _ Fo). reflexivity.
    + rewrite !find_app_none by exact Fo.
      cbn [find stored artifact_id]. rewrite Hclean, N. reflexivity.
Qed.

(** A record that is in the ledger, updated.  When the columns of the
    updated record need no quoting, the update succeeds, the record read back
    under the artifact ID has the new columns and the old document ID, the
    other artifact IDs give what they gave before, and the document IDs of the
    ledger are the same, in the same order. *)
Theorem index_update_then_lookup : forall f aid nm st isf par a,
  get_artifact_by_id f aid = Some a ->
  (let a' := set_fields a nm st isf par in
   plain_columns (artifact_id a') (name a') (status a') (parent a')) = true ->
  exists f',
    update_artifact f aid nm st isf par = (true, f') /\
    (let a' := set_fields a nm st isf par in
     get_artifact_by_id f' aid
     = Some (stored (doc_id a) (artifact_id a) (name a') (status a')
               (is_file a') (parent a'))) /\
    map doc_id (get_all_artifacts f') = map doc_id (get_all_artifacts f) /\
    forall other,
      eqb (upper other) (upper aid) = false ->
      get_artifact_by_id f' other = get_artifact_by_id f other.
Proof.
  intros f aid nm st isf par a Hget Hplain.
  destruct (update_stored f aid nm st isf par a Hget Hplain)
    as (c' & H1 & H2 & H3 & H4).
  exists (Some c'). auto.
Qed.

Lemma index_update_then_lookup_witness :
  let f := Some (appended initial_content
                   (_format_index_line "1" "REQ-1" (Some ("Login" : str))
                      None false (Some ("PRD-3" : str)))) in
  exists f',
    update_artifact f "req-1" None (Some ("DONE" : str)) None None
    = (true, f') /\
    get_artifact_by_id f' "req-1"
    = Some (stored "1" "REQ-1" (Some ("Login" : str)) (Some ("DONE" : str))
              false (Some ("PRD-3" : str))) /\
    map doc_id (get_all_artifacts f') = map doc_id (get_all_artifacts f) /\
    forall other,
      eqb (upper other) (upper "req-1") = false ->
      get_artifact_by_id f' other = get_artifact_by_id f other.
Proof.
  apply (index_update_then_lookup
           (Some (appended initial_content
                    (_format_index_line "1" "REQ-1" (Some ("Login" : str))
                       None false (Some ("PRD-3" : str)))))
           "req-1" None (Some ("DONE" : str)) None None
           (stored "1" "REQ-1" (Some ("Login" : str)) None false
              (Some ("PRD-3" : str))));
    vm_compute; reflexivity.
Defined.

End LedgerFacts.

(** ** Identifiers: what is accepted and the normal form *)
Module TypeFacts.
Import PyStr Re Types IdChecks StrFacts ManagerFacts HeaderFacts StepFacts.

(** *** Letters, digits and blanks *)

Lemma upper_letter_visible : forall c,
  is_upper (to_upper c) = true -> is_space c = false.
Proof.
  intros c. destruct c as [b0 b1 b2 b3 b4 b5 b6 b7].
  destruct b0, b1, b2, b3, b4, b5, b6, b7; vm_compute; congruence.
Qed.

Lemma is_upper_fixed : forall c, is_upper c = true -> to_upper c = c.
Proof.
  intros c. destruct c as [b0 b1 b2 b3 b4 b5 b6 b7].
  destruct b0, b1, b2, b3, b4, b5, b6, b7; vm_compute; congruence.
Qed.

Lemma is_digit_fixed : forall c, is_digit c = true -> to_upper c = c.
Proof.
  intros c. destruct c as [b0 b1 b2 b3 b4 b5 b6 b7].
  destruct b0, b1, b2, b3, b4, b5, b6, b7; vm_compute; congruence.
Qed.

Lemma digit_not_upper : forall c, is_digit c = true -> is_upper c = false.
Proof.
  intros c. destruct c as [b0 b1 b2 b3 b4 b5 b6 b7].
  destruct b0, b1, b2, b3, b4, b5, b6, b7; vm_compute; congruence.
Qed.

Lemma upper_fixed : forall s, forallb is_upper s = true -> upper s = s.
Proof.
  induction s as [|c s IH]; intros H; [reflexivity|].
  simpl in *. apply andb_prop in H as [Hc Hs].
  now rewrite is_upper_fixed, IH.
Qed.

Lemma upper_digits : forall s, forallb is_digit s = true -> upper s = s.
Proof.
  induction s as [|c s IH]; intros H; [reflexivity|].
  simpl in *. apply andb_prop in H as [Hc Hs].
  now rewrite is_digit_fixed, IH.
Qed.

Lemma upper_app : forall a b, upper (a ++ b) = upper a ++ upper b.
Proof. intros. apply map_app. Qed.

Lemma letters_visible : forall t,
  forallb is_upper (upper t) = true ->
  forallb (fun c => negb (is_space c)) t = true.
Proof.
  induction t as [|c t IH]; intros H; [reflexivity|].
  simpl in *. apply andb_prop in H as [Hc Ht].
  now rewrite (upper_letter_visible c Hc), IH.
Qed.

Lemma digits_visible : forall d,
  forallb is_digit d = true ->
  forallb (fun c => negb (is_space c)) d = true.
Proof.
  induction d as [|c d IH]; intros H; [reflexivity|].
  simpl in *. apply andb_prop in H as [Hc Hd].
  now rewrite (digit_not_space c Hc), IH.
Qed.

Lemma strip_blank_around : forall pre body post,
  forallb is_space pre = true -> forallb is_space post = true ->
  forallb (fun c => negb (is_space c)) body = true ->
  strip (pre ++ body ++ post) = body.
Proof.
  intros pre body post Hpre Hpost Hb.
  unfold strip, strip_of, lstrip_of.
  rewrite drop_while_app, drop_while_all by assumption.
  destruct body as [|c body].
  - simpl. rewrite drop_while_all by assumption. apply rstrip_of_nil.
  - simpl in Hb. apply andb_prop in Hb as [Hc Hb].
    apply negb_true_iff in Hc.
    change ((c :: body) ++ post) with (c :: body ++ post).
    rewrite drop_while_head by assumption.
    change (c :: body ++ post) with ((c :: body) ++ post).
    rewrite rstrip_of_app_all by assumption.
    assert (E := strip_of_none is_space (c :: body)).
    unfold strip_of, lstrip_of in E. rewrite drop_while_head in E by assumption.
    apply E. simpl. now rewrite Hc.
Qed.

(** *** The patterns of the identifiers *)

(** [TYPE-digits] against [^([A-Z]+)-(\d+)$]. *)
Lemma id_format_match : forall T d,
  T <> [] -> forallb is_upper T = true ->
  d <> [] -> forallb is_digit d = true ->
  exists m,
    re_match false id_format_re (T ++ "-" ++ d) = Some m /\
    group m 1 = T /\ group m 2 = d.
Proof.
  intros T d HT HTu Hd Hdd.
  destruct T as [|c T]; [contradiction|]. destruct d as [|e d]; [contradiction|].
  simpl in HTu, Hdd. apply andb_prop in HTu as [Hc HTu].
  apply andb_prop in Hdd as [He Hdd].
  unfold re_match, match_here, id_format_re.
  cbn [cat run List.app]. unfold upper_az at 1. rewrite Hc.
  eexists. split.
  - apply star_greedy; [exact HTu|reflexivity|]. intros pv.
    cbn [list_ascii_of_string lit_rest chr_eq List.app].
    rewrite Ascii.eqb_refl. unfold digit at 1. rewrite He.
    apply star_greedy_all; [exact Hdd|]. intros pv'. reflexivity.
  - unfold group. cbn [m_groups List.app].
    change (1 - 1) with 0. change (2 - 1) with 1. cbn [nth]. split.
    + change (c :: T ++ "-"%char :: e :: d)
        with ((c :: T) ++ "-"%char :: e :: d).
      apply firstn_consumed.
    + change (length (@nil ascii)) with 0. rewrite Nat.sub_0_r.
      apply firstn_all.
Qed.

(** What [^([A-Z]+)-(\d+)$] accepts. *)
Lemma id_format_shape : forall s m,
  re_match false id_format_re s = Some m ->
  exists T d tail,
    s = T ++ "-" ++ d ++ tail /\
    T <> [] /\ forallb is_upper T = true /\
    d <> [] /\ forallb is_digit d = true /\
    group m 1 = T /\ group m 2 = d.
Proof.
  intros s m H.
  unfold re_match, match_here, id_format_re in H. cbn [cat run] in H.
  apply plus_inv in H as (c & a & s1 & pv1 & E1 & Hc & Ha & H).
  destruct (lit_rest false "-" pv1 s1) as [[pv2 s2]|] eqn:E2; [|discriminate].
  apply lit_rest_sound in E2.
  apply plus_inv in H as (e & b & s3 & pv3 & E3 & He & Hb & H).
  exists (c :: a), (e :: b), s3.
  assert (Hm : m_groups m
               = [firstn (length s - length s1) s;
                  firstn (length s2 - length s3) s2]).
  { destruct s3 as [|x [|y s3]]; [| |discriminate].
    - now injection H as <-.
    - destruct (x =? LF)%char; [|discriminate]. now injection H as <-. }
  unfold upper_az in Hc, Ha. unfold digit in He, Hb.
  subst s s1 s2. split; [reflexivity|].
  split; [discriminate|]. split; [simpl; now rewrite Hc|].
  split; [discriminate|]. split; [simpl; now rewrite He|].
  unfold group. rewrite Hm. change (1 - 1) with 0. change (2 - 1) with 1.
  cbn [nth]. split.
  - change (c :: a ++ "-" ++ e :: b ++ s3)
      with ((c :: a) ++ ("-" ++ e :: b ++ s3)).
    apply firstn_consumed.
  - change (e :: b ++ s3) with ((e :: b) ++ s3). apply firstn_consumed.
Qed.

(** [TYPE-digits] against [^([A-Z]+)-\d+$]. *)
Lemma artifact_id_match : forall T d,
  T <> [] -> forallb is_upper T = true ->
  d <> [] -> forallb is_digit d = true ->
  exists m,
    re_match false artifact_id_re (T ++ "-" ++ d) = Some m /\ group m 1 = T.
Proof.
  intros T d HT HTu Hd Hdd.
  destruct T as [|c T]; [contradiction|]. destruct d as [|e d]; [contradiction|].
  simpl in HTu, Hdd. apply andb_prop in HTu as [Hc HTu].
  apply andb_prop in Hdd as [He Hdd].
  unfold re_match, match_here, artifact_id_re.
  cbn [cat run List.app]. unfold upper_az at 1. rewrite Hc.
  eexists. split.
  - apply star_greedy; [exact HTu|reflexivity|]. intros pv.
    cbn [list_ascii_of_string lit_rest chr_eq List.app].
    rewrite Ascii.eqb_refl. unfold digit at 1. rewrite He.
    apply star_greedy_all; [exact Hdd|]. intros pv'. reflexivity.
  - unfold group. cbn [m_groups List.app].
    change (1 - 1) with 0. cbn [nth].
    change (c :: T ++ "-"%char :: e :: d)
      with ((c :: T) ++ "-"%char :: e :: d).
    apply firstn_consumed.
Qed.

Lemma int_acc_digits : forall s acc n,
  int_acc acc s = Some n -> forallb is_digit s = true.
Proof.
  induction s as [|c s IH]; intros acc n H; [reflexivity|].
  simpl in *. destruct (is_digit c); [|discriminate]. eauto.
Qed.

Lemma int_of_str_digits : forall s n,
  int_of_str s = Some n -> s <> [] /\ forallb is_digit s = true.
Proof.
  intros s n H. destruct s as [|c s]; [discriminate|].
  split; [discriminate|]. eapply int_acc_digits; eauto.
Qed.

Section WithRegistry.
Variable reg : registry.

(** The answer for an identifier whose stripped, upper-cased text is
    [TYPE-digits]. *)
Lemma validate_by_shape : forall aid T d n,
  is_empty aid = false -> upper (strip aid) = T ++ "-" ++ d ->
  T <> [] -> forallb is_upper T = true -> int_of_str d = Some n ->
  validate_artifact_id reg aid
  = if is_valid_artifact_type reg T && negb (n =? 0)%N
    then Ok (T ++ "-" ++ str_of_N n) else Raise ValueError.
Proof.
  intros aid T d n Hne Eu HT HTu Hn.
  destruct (int_of_str_digits d n Hn) as [Hd Hdd].
  unfold validate_artifact_id, validate_artifact_id_format.
  rewrite Hne. cbv zeta.
  replace (is_empty (strip aid)) with false.
  2:{ destruct (strip aid); [|reflexivity]. now destruct T. }
  rewrite Eu.
  destruct (id_format_match T d HT HTu Hd Hdd) as (m & Em & G1 & G2).
  rewrite Em, G1, G2, Hn.
  destruct (is_valid_artifact_type reg T); [|reflexivity].
  cbn [negb andb].
  destruct (n =? 0)%N eqn:E0.
  - apply N.eqb_eq in E0. subst n. reflexivity.
  - apply N.eqb_neq in E0.
    destruct (n <=? 0)%N eqn:E1; [apply N.leb_le in E1; lia|].
    reflexivity.
Qed.

Lemma id_visible : forall t d,
  forallb is_upper (upper t) = true -> forallb is_digit d = true ->
  forallb (fun c => negb (is_space c)) (t ++ "-" ++ d) = true.
Proof.
  intros t d Ht Hd. rewrite !forallb_app.
  rewrite (letters_visible t) by assumption.
  rewrite (digits_visible d) by assumption. reflexivity.
Qed.

Lemma upper_id : forall t d,
  forallb is_digit d = true -> upper (t ++ "-" ++ d) = upper t ++ "-" ++ d.
Proof.
  intros t d Hd. rewrite !upper_app, (upper_digits d) by assumption.
  reflexivity.
Qed.

Lemma type_of_clean_id : forall T d,
  T <> [] -> forallb is_upper T = true ->
  d <> [] -> forallb is_digit d = true ->
  is_valid_artifact_type reg T = true ->
  get_artifact_type_from_id reg (T ++ "-" ++ d) = Ok T.
Proof.
  intros T d HT HTu Hd Hdd Hv. unfold get_artifact_type_from_id.
  replace (is_empty (T ++ "-" ++ d)) with false by now destruct T.
  rewrite upper_id, (upper_fixed T) by assumption.
  destruct (artifact_id_match T d HT HTu Hd Hdd) as (m & Em & G).
  rewrite Em, G. unfold validate_and_normalize_artifact_type.
  assert (ET : strip T = T).
  { apply strip_of_none. apply letters_visible. now rewrite upper_fixed. }
  rewrite ET. replace (is_empty T) with false by now destruct T.
  cbn [orb]. rewrite (upper_fixed T HTu), Hv. reflexivity.
Qed.

(** In-text IDs: blanks around the ID, letters of either case and leading
    zeros are accepted, and the answer is the ID in normal form.  An ID
    whose number is zero or whose type is not registered is refused. *)
Theorem validate_artifact_id_accepts : forall pre t d post n,
  forallb is_space pre = true -> forallb is_space post = true ->
  t <> [] -> forallb is_upper (upper t) = true ->
  int_of_str d = Some n ->
  validate_artifact_id reg (pre ++ (t ++ "-" ++ d) ++ post)
  = if is_valid_artifact_type reg (upper t) && negb (n =? 0)%N
    then Ok (upper t ++ "-" ++ str_of_N n) else Raise ValueError.
Proof.
  intros pre t d post n Hpre Hpost Ht Htu Hn.
  destruct (int_of_str_digits d n Hn) as [Hd Hdd].
  apply validate_by_shape with d; try assumption.
  - destruct pre; [|reflexivity]. now destruct t.
  - rewrite strip_blank_around by (assumption || now apply id_visible).
    now apply upper_id.
  - now destruct t.
Qed.

(** What [validate_artifact_id] returns is an ID in normal form, [TYPE-N]
    with a registered type written in upper-case letters and a number
    [N >= 1] without leading zeros; it is accepted again and returned as it
    is, and [get_artifact_type_from_id] gives its type. *)
Theorem validate_artifact_id_normal_form : forall aid x,
  validate_artifact_id reg aid = Ok x ->
  exists T n,
    x = T ++ "-" ++ str_of_N n /\
    In T (get_valid_artifact_types reg) /\
    (1 <= n)%N /\
    validate_artifact_id reg x = Ok x /\
    get_artifact_type_from_id reg x = Ok T.
Proof.
  intros aid x H.
  unfold validate_artifact_id, validate_artifact_id_format in H.
  destruct (is_empty aid); [discriminate|]. cbv zeta in H.
  destruct (is_empty (strip aid)); [discriminate|].
  destruct (re_match false id_format_re (upper (strip aid))) as [m|] eqn:Em;
    [|discriminate].
  destruct (id_format_shape _ _ Em)
    as (T & d & tail & Es & HT & HTu & Hd & Hdd & G1 & G2).
  rewrite G1, G2 in H.
  destruct (int_of_str d) as [n|] eqn:En; [|discriminate].
  destruct (is_valid_artifact_type reg T) eqn:Ev; [|discriminate].
  destruct (n <=? 0)%N eqn:E0; [discriminate|].
  cbn [negb valid v_artifact_type v_number fmt_text fmt_number] in H.
  injection H as <-. apply N.leb_gt in E0.
  assert (Hv : is_valid_artifact_type reg T = true) by exact Ev.
  unfold is_valid_artifact_type in Ev. rewrite (upper_fixed T HTu) in Ev.
  apply mem_In in Ev.
  exists T, n. split; [reflexivity|]. split; [exact Ev|]. split; [lia|].
  pose proof (str_of_N_digits n) as Hnd.
  pose proof (str_of_N_nonempty n) as Hnn.
  assert (HTu' : forallb is_upper (upper T) = true)
    by now rewrite upper_fixed.
  assert (Estrip : strip (T ++ "-" ++ str_of_N n) = T ++ "-" ++ str_of_N n).
  { apply strip_of_none. now apply id_visible. }
  assert (Eup : upper (T ++ "-" ++ str_of_N n) = T ++ "-" ++ str_of_N n).
  { rewrite upper_id by assumption. now rewrite upper_fixed. }
  split.
  - rewrite (validate_by_shape _ T (str_of_N n) n); try assumption.
    + rewrite Hv. replace (n =? 0)%N with false; [reflexivity|].
      symmetry. apply N.eqb_neq. lia.
    + now destruct T.
    + exact (eq_trans (f_equal upper Estrip) Eup).
    + apply int_of_str_of_N.
  - now apply type_of_clean_id.
Qed.

(** A provisional ID whose upper-cased text is [TYPE-PROVISIONALdigits]. *)
Lemma parse_provisional_shape : forall pid T d n,
  upper pid = T ++ "-PROVISIONAL" ++ d ->
  T <> [] -> forallb is_upper T = true ->
  int_of_str d = Some n ->
  parse_provisional_id reg pid
  = if is_valid_artifact_type reg T then Ok (T, n) else Raise ValueError.
Proof.
  intros pid T d n Eu HT HTu Hn.
  destruct (int_of_str_digits d n Hn) as [Hd Hdd].
  unfold parse_provisional_id. rewrite Eu.
  assert (Hm : exists m,
             re_match false provisional_id_re (T ++ "-PROVISIONAL" ++ d)
             = Some m /\ group m 1 = T /\ group m 2 = d).
  { destruct T as [|c T]; [contradiction|].
    destruct d as [|e d]; [contradiction|].
    simpl in HTu, Hdd. apply andb_prop in HTu as [Hc HTu].
    apply andb_prop in Hdd as [He Hdd].
    unfold re_match, match_here, provisional_id_re.
    cbn [cat run List.app]. unfold upper_az at 1. rewrite Hc.
    eexists. split.
    - apply star_greedy; [exact HTu|reflexivity|]. intros pv.
      cbn [list_ascii_of_string lit_rest chr_eq List.app].
      rewrite !Ascii.eqb_refl. unfold digit at 1. rewrite He.
      apply star_greedy_all; [exact Hdd|]. intros pv'. reflexivity.
    - unfold group. cbn [m_groups List.app].
      change (1 - 1) with 0. change (2 - 1) with 1. cbn [nth]. split.
      + exact (firstn_consumed (c :: T) ("-PROVISIONAL" ++ e :: d)).
      + change (length (@nil ascii)) with 0. rewrite Nat.sub_0_r.
        apply firstn_all. }
  destruct Hm as (m & Em & G1 & G2).
  rewrite Em, G1, G2, Hn. reflexivity.
Qed.

(** A provisional ID [TYPE-PROVISIONALn], in letters of either case, is
    parsed into the upper-case type and the number [n]; [ValueError] when
    the type is not registered. *)
Theorem parse_provisional_id_accepts : forall t p d n,
  t <> [] -> forallb is_upper (upper t) = true ->
  eqb (upper p) "-PROVISIONAL" = true ->
  int_of_str d = Some n ->
  parse_provisional_id reg (t ++ p ++ d)
  = if is_valid_artifact_type reg (upper t) then Ok (upper t, n)
    else Raise ValueError.
Proof.
  intros t p d n Ht Htu Hp Hn. apply eqb_eq in Hp.
  destruct (int_of_str_digits d n Hn) as [Hd Hdd].
  apply parse_provisional_shape with d; try assumption.
  - rewrite !upper_app, Hp, (upper_digits d) by assumption. reflexivity.
  - now destruct t.
Qed.

End WithRegistry.

Lemma validate_artifact_id_accepts_witness :
  validate_artifact_id Sample.artifact_types
    ("  " ++ ("req" ++ "-" ++ "007") ++ " ")
  = Ok ("REQ-7" : str).
Proof.
  exact (validate_artifact_id_accepts Sample.artifact_types "  " "req" "007"
           " " 7 eq_refl eq_refl ltac:(discriminate) eq_refl eq_refl).
Defined.

Lemma validate_artifact_id_normal_form_witness :
  exists T n,
    ("REQ-7" : str) = T ++ "-" ++ str_of_N n /\
    In T (get_valid_artifact_types Sample.artifact_types) /\
    (1 <= n)%N /\
    validate_artifact_id Sample.artifact_types "REQ-7" = Ok ("REQ-7" : str) /\
    get_artifact_type_from_id Sample.artifact_types "REQ-7" = Ok T.
Proof.
  apply (validate_artifact_id_normal_form Sample.artifact_types " req-007").
  vm_compute. reflexivity.
Defined.

Lemma parse_provisional_id_accepts_witness :
  parse_provisional_id Sample.artifact_types ("task" ++ "-Provisional" ++ "012")
  = Ok ("TASK" : str, 12%N).
Proof.
  exact (parse_provisional_id_accepts Sample.artifact_types "task"
           "-Provisional" "012" 12 ltac:(discriminate) eq_refl eq_refl
           eq_refl).
Defined.

End TypeFacts.

(** ** Managed headers: updates read back, ignored, composed *)
Module HeaderUpdates.
Import PyStr Re Headers StrFacts ManagerFacts HeaderFacts.

(** *** The keys of the headers read from a document *)

Lemma scan_keys : forall ap lines i hdrs bs k,
  ~ In k (map fst ap) ->
  dict_get (fst (scan_headers ap lines i hdrs bs)) k = dict_get hdrs k.
Proof.
  intros ap lines. induction lines as [|l lines IH]; intros i hdrs bs k Hk.
  - reflexivity.
  - cbn [scan_headers]. cbv zeta.
    destruct (is_empty (strip l)); [now apply IH|].
    destruct (re_match false header_line_re (strip l)) as [m|]; [|reflexivity].
    destruct (find _ ap) as [[key it]|] eqn:Ef; [|reflexivity].
    rewrite IH by assumption. rewrite dict_get_set.
    destruct (eqb key k) eqn:E; [|reflexivity].
    apply eqb_eq in E. subst key. apply find_some in Ef as [Hin _].
    exfalso. apply Hk. now apply (in_map fst) in Hin.
Qed.

Lemma parse_keys : forall reg items content t aid hl hdrs body k,
  extract_artifact_type_and_id reg content = Ok (Some (t, aid)) ->
  parse_managed_headers reg items content = Ok (hl, hdrs, body) ->
  ~ In k (map fst (get_managed_headers_for_type items t)) ->
  dict_get hdrs k = None.
Proof.
  intros reg items content t aid hl hdrs body k He Hp Hk.
  unfold parse_managed_headers in Hp. rewrite He in Hp.
  cbn [exc_bind] in Hp. cbv zeta in Hp.
  destruct (scan_headers _ _ 1 [] 1) as [h bs] eqn:Es.
  injection Hp as _ <- _.
  change h with (fst (h, bs)). rewrite <- Es.
  now rewrite scan_keys.
Qed.

(** *** One atomic update *)

Lemma apply_atomic : forall ap d k v,
  option_map (fun kv => item_type (snd kv))
    (find (fun kv => eqb (fst kv) k) ap) = Some ("atomic" : str) ->
  apply_update ap d (k, v) = dict_set d k v /\ In k (map fst ap).
Proof.
  intros ap d k v H. unfold apply_update.
  destruct (find (fun kv => eqb (fst kv) k) ap) as [[k0 it]|] eqn:Ef;
    [|discriminate].
  cbn [option_map snd] in H. injection H as H.
  destruct (find_key _ _ _ _ Ef) as [_ Hin].
  rewrite H. split; [reflexivity|assumption].
Qed.

(** Setting a header, then reading the headers.  When the first line of the
    content matches a registered header template, [k] is an atomic item of
    the detected type and [v] has visible text and no line break,
    [update_managed_header] with the one update [k: v] succeeds, and
    [parse_managed_headers] of its result gives the same header line and the
    same body as before, the value [v] without the blanks around it under
    [k], and under every other key what was there before. *)
Theorem update_then_parse : forall reg items content t aid k v,
  extract_artifact_type_and_id reg content = Ok (Some (t, aid)) ->
  labels_ok (get_managed_headers_for_type items t) = true ->
  option_map (fun kv => item_type (snd kv))
    (find (fun kv => eqb (fst kv) k) (get_managed_headers_for_type items t))
  = Some ("atomic" : str) ->
  clean_value v = true ->
  exists hl current body once updated,
    parse_managed_headers reg items content = Ok (hl, current, body) /\
    update_managed_header reg items content [(k, v)] = Ok once /\
    parse_managed_headers reg items once = Ok (hl, updated, body) /\
    forall k',
      dict_get updated k'
      = if eqb k k' then Some (strip v) else dict_get current k'.
Proof.
  intros reg items content t aid k v He Hok Hat Hv.
  set (ap := get_managed_headers_for_type items t) in *.
  destruct (parse_shape reg items content t aid He)
    as (hl & current & remaining & Hp & Hm & Hne & Hfix & Hdot & Hcur & Hrem
        & Hstop & Hlast).
  fold ap in Hstop.
  destruct (apply_atomic ap current k v Hat) as [Eup Hk].
  assert (Hclean : forall k' v', In k' (map fst ap) ->
                   dict_get (dict_set current k v) k' = Some v' ->
                   clean_value v' = true).
  { intros k' v' _. rewrite dict_get_set.
    destruct (eqb k k'); [now intros [= <-]|].
    intros H. now apply Hcur in H. }
  destruct (reparse reg items t aid hl (dict_set current k v) remaining Hok Hm
              Hne Hfix Hdot Hclean Hrem Hstop Hlast) as (hdrs' & Hp' & He' & Hget).
  fold ap in Hp', He', Hget.
  exists hl, current, (join [LF] remaining),
    (rebuild ap hl (dict_set current k v) (join [LF] remaining)), hdrs'.
  split; [exact Hp|]. split.
  { rewrite (update_unfold _ _ _ _ _ _ _ _ _ He Hp Hne). fold ap.
    cbn [fold_left]. now rewrite Eup. }
  split; [exact Hp'|].
  intros k'. destruct (in_dec (list_eq_dec ascii_dec) k' (map fst ap)) as [Hin|Hout].
  - rewrite (Hget k' Hin), dict_get_set.
    destruct (eqb k k'); [reflexivity|].
    destruct (dict_get current k') as [v'|] eqn:Ev; [|reflexivity].
    simpl. f_equal. now apply Hcur in Ev.
  - rewrite (parse_keys _ _ _ _ _ _ _ _ k' He' Hp' Hout).
    rewrite (parse_keys _ _ _ _ _ _ _ _ k' He Hp Hout).
    destruct (eqb k k') eqn:E; [|reflexivity].
    apply eqb_eq in E. subst k'. contradiction.
Qed.

Lemma update_then_parse_witness :
  exists hl current body once updated,
    parse_managed_headers Sample.artifact_types Sample.managed_header_items
      (Sample.text ["### REQ-7: Login"; "`Parent`: PRD-3"; ""; "Body text"])
    = Ok (hl, current, body) /\
    update_managed_header Sample.artifact_types Sample.managed_header_items
      (Sample.text ["### REQ-7: Login"; "`Parent`: PRD-3"; ""; "Body text"])
      [("STATUS" : str, " ACTIVE " : str)]
    = Ok once /\
    parse_managed_headers Sample.artifact_types Sample.managed_header_items
      once
    = Ok (hl, updated, body) /\
    forall k',
      dict_get updated k'
      = if eqb "STATUS" k' then Some (strip " ACTIVE ")
        else dict_get current k'.
Proof.
  apply (update_then_parse Sample.artifact_types Sample.managed_header_items
           _ "REQ" "REQ-7"); vm_compute; reflexivity.
Defined.

(** *** Updates that do not apply *)

Lemma fold_inapplicable : forall ap upd d,
  forallb (fun kv => negb (mem (fst kv) (map fst ap))) upd = true ->
  fold_left (apply_update ap) upd d = d.
Proof.
  intros ap upd. induction upd as [|[key v] upd IH]; intros d H.
  - reflexivity.
  - simpl in H. apply andb_prop in H as [Hk H]. cbn [fold_left].
    replace (apply_update ap d (key, v)) with d; [now apply IH|].
    unfold apply_update.
    destruct (find (fun kv => eqb (fst kv) key) ap) as [[k0 it]|] eqn:Ef;
      [|reflexivity].
    destruct (find_key _ _ _ _ Ef) as [_ Hin].
    apply mem_intro in Hin. rewrite Hin in Hk. discriminate.
Qed.

(** Updates of items that are not managed for the detected type are
    ignored: the result is the one of the update that sets nothing. *)
Theorem inapplicable_updates_ignored : forall reg items content upd t aid,
  extract_artifact_type_and_id reg content = Ok (Some (t, aid)) ->
  forallb (fun kv =>
             negb (mem (fst kv)
                     (map fst (get_managed_headers_for_type items t)))) upd
  = true ->
  update_managed_header reg items content upd
  = update_managed_header reg items content [].
Proof.
  intros reg items content upd t aid He Hupd.
  destruct (parse_shape reg items content t aid He)
    as (hl & current & remaining & Hp & _ & Hne & _).
  rewrite !(update_unfold _ _ _ _ _ _ _ _ _ He Hp Hne).
  now rewrite fold_inapplicable.
Qed.

Lemma inapplicable_updates_ignored_witness :
  update_managed_header Sample.artifact_types Sample.managed_header_items
    (Sample.text ["# PRD-1: Product"; "`Status`: NEW"; ""; "Goals."])
    [("PARENT" : str, "PRD-9" : str); ("OWNER" : str, "me" : str)]
  = update_managed_header Sample.artifact_types Sample.managed_header_items
      (Sample.text ["# PRD-1: Product"; "`Status`: NEW"; ""; "Goals."]) [].
Proof.
  apply (inapplicable_updates_ignored Sample.artifact_types
           Sample.managed_header_items _ _ "PRD" "PRD-1");
    vm_compute; reflexivity.
Defined.

(** *** Blank content *)

(** Content that is empty or blank has no header line: whatever the
    registry, [parse_managed_headers] gives the empty header line, no
    headers and the empty body, and [update_managed_header] raises
    [ValueError]. *)
Theorem blank_content_has_no_header : forall reg items content upd,
  is_empty (strip content) = true ->
  parse_managed_headers reg items content = Ok ([], [], []) /\
  update_managed_header reg items content upd = Raise ValueError.
Proof.
  intros reg items content upd H.
  assert (E : strip content = []) by (destruct (strip content); [reflexivity|discriminate]).
  assert (Hp : parse_managed_headers reg items content = Ok ([], [], [])).
  { unfold parse_managed_headers, extract_artifact_type_and_id.
    rewrite E. cbn [split nth]. change (strip []) with (@nil ascii).
    rewrite match_types_nothing. reflexivity. }
  split; [exact Hp|].
  unfold update_managed_header. rewrite Hp. reflexivity.
Qed.

Lemma blank_content_has_no_header_witness :
  parse_managed_headers Sample.artifact_types Sample.managed_header_items
    (Sample.text [" "; ""]) = Ok ([], [], []) /\
  update_managed_header Sample.artifact_types Sample.managed_header_items
    (Sample.text [" "; ""]) [("STATUS" : str, "NEW" : str)]
  = Raise ValueError.
Proof.
  apply blank_content_has_no_header. reflexivity.
Defined.

(** *** Successive updates *)

Lemma fold_atomic_stripped : forall ap upd,
  forallb (atomic_update ap) upd = true ->
  forallb (fun kv => eqb (strip (snd kv)) (snd kv)) upd = true ->
  forall d,
  (forall k v, dict_get d k = Some v -> strip v = v) ->
  forall k v, dict_get (fold_left (apply_update ap) upd d) k = Some v ->
              strip v = v.
Proof.
  intros ap upd. induction upd as [|[key v] upd IH]; intros Ha Hs d H.
  - exact H.
  - simpl in Ha, Hs. apply andb_prop in Ha as [Hkv Ha].
    apply andb_prop in Hs as [Hsv Hs]. apply eqb_eq in Hsv. simpl.
    apply (IH Ha Hs). intros k' v'.
    unfold atomic_update in Hkv. unfold apply_update. cbn [fst snd] in Hkv.
    cbv beta iota. cbv [list_ascii_of_string] in Hkv.
    destruct (find (fun kv => eqb (fst kv) key) ap) as [[k0 it]|]; [|apply H].
    apply andb_prop in Hkv as [Hat Hv]. rewrite Hat, dict_get_set.
    destruct (eqb key k'); [|apply H]. now intros [= <-].
Qed.

(** Two updates in a row are one update.  For atomic updates with values
    that have visible text and no line break, those of the first update
    without blanks around them, applying [u1] and then [u2] gives the same
    content as applying [u1 ++ u2] in one call. *)
Theorem updates_compose : forall reg items content u1 u2 t aid,
  extract_artifact_type_and_id reg content = Ok (Some (t, aid)) ->
  labels_ok (get_managed_headers_for_type items t) = true ->
  forallb (atomic_update (get_managed_headers_for_type items t)) u1 = true ->
  forallb (atomic_update (get_managed_headers_for_type items t)) u2 = true ->
  forallb (fun kv => eqb (strip (snd kv)) (snd kv)) u1 = true ->
  exists c1 c2,
    update_managed_header reg items content u1 = Ok c1 /\
    update_managed_header reg items c1 u2 = Ok c2 /\
    update_managed_header reg items content (u1 ++ u2) = Ok c2.
Proof.
  intros reg items content u1 u2 t aid He Hok H1 H2 Hs.
  set (ap := get_managed_headers_for_type items t) in *.
  destruct (parse_shape reg items content t aid He)
    as (hl & current & remaining & Hp & Hm & Hne & Hfix & Hdot & Hcur & Hrem
        & Hstop & Hlast).
  fold ap in Hstop.
  set (mid := fold_left (apply_update ap) u1 current).
  assert (Hclean : forall k v, In k (map fst ap) ->
                   dict_get mid k = Some v -> clean_value v = true).
  { intros k v _. apply (fold_atomic_clean ap u1 H1 current).
    intros k' v' H. now apply Hcur in H. }
  assert (Hstr : forall k v, dict_get mid k = Some v -> strip v = v).
  { apply (fold_atomic_stripped ap u1 H1 Hs current).
    intros k' v' H. now apply Hcur in H. }
  destruct (reparse reg items t aid hl mid remaining Hok Hm Hne Hfix Hdot
              Hclean Hrem Hstop Hlast) as (hdrs' & Hp' & He' & Hget).
  fold ap in Hp', He', Hget.
  exists (rebuild ap hl mid (join [LF] remaining)),
    (rebuild ap hl (fold_left (apply_update ap) u2 mid) (join [LF] remaining)).
  split; [now apply update_unfold with aid|]. split.
  - rewrite (update_unfold _ _ _ _ _ _ _ _ _ He' Hp' Hne). fold ap.
    unfold rebuild. do 3 f_equal. f_equal. apply render_agree.
    apply fold_atomic_agree; [assumption|].
    intros k Hk _. rewrite (Hget k Hk).
    destruct (dict_get mid k) as [v|] eqn:Ev; [|reflexivity].
    simpl. f_equal. now apply Hstr in Ev.
  - rewrite (update_unfold _ _ _ _ _ _ _ _ _ He Hp Hne). fold ap.
    now rewrite fold_left_app.
Qed.

Lemma updates_compose_witness :
  exists c1 c2,
    update_managed_header Sample.artifact_types Sample.managed_header_items
      (Sample.text ["### REQ-7: Login"; ""; "Body text"])
      [("STATUS" : str, "NEW" : str)] = Ok c1 /\
    update_managed_header Sample.artifact_types Sample.managed_header_items
      c1 [("PARENT" : str, "PRD-3" : str)]
    = Ok c2 /\
    update_managed_header Sample.artifact_types Sample.managed_header_items
      (Sample.text ["### REQ-7: Login"; ""; "Body text"])
      ([("STATUS" : str, "NEW" : str)] ++
       [("PARENT" : str, "PRD-3" : str)])
    = Ok c2.
Proof.
  apply (updates_compose Sample.artifact_types Sample.managed_header_items
           _ _ _ "REQ" "REQ-7"); vm_compute; reflexivity.
Defined.

End HeaderUpdates.

(** ** The store: failed updates, file artifacts *)
Module StoreFacts.
Import PyStr Re Types Manager Handlers Patterns StrFacts ManagerFacts HeaderFacts
  StepFacts TypeFacts.

(** *** Updates that fail *)





(** *** File artifacts *)

Lemma fnmatch_literal_prefix : forall a rest name,
  forallb literal a = true -> fnmatch (a ++ rest) name = true ->
  exists n', name = a ++ n'.
Proof.
  induction a as [|c a IH]; intros rest name Ha H.
  - now exists name.
  - simpl in Ha. apply andb_prop in Ha as [Hc Ha]. unfold literal in Hc.
    apply andb_prop in Hc as [H1 H2].
    apply negb_true_iff in H1, H2.
    cbn [List.app fnmatch] in H. rewrite H1, H2 in H.
    destruct name as [|x name]; [discriminate|].
    apply andb_prop in H as [Hx H]. apply Ascii.eqb_eq in Hx. subst x.
    destruct (IH rest name Ha H) as (n' & ->). now exists n'.
Qed.

Lemma write_file_paths : forall fs p x,
  In p (map fst fs) -> map fst (write_file fs p x) = map fst fs.
Proof.
  induction fs as [|[q d] fs IH]; intros p x H; [contradiction|].
  cbn [write_file]. destruct (eqb q p) eqn:E; [reflexivity|].
  cbn [map fst]. f_equal. apply IH. destruct H as [H|H]; [|assumption].
  simpl in H. subst q. now rewrite eqb_refl in E.
Qed.

Lemma rglob_paths : forall fs fs' pat,
  map fst fs' = map fst fs -> map fst (rglob fs' pat) = map fst (rglob fs pat).
Proof.
  induction fs as [|[q d] fs IH]; intros fs' pat H.
  - destruct fs'; [reflexivity|discriminate].
  - destruct fs' as [|[q' d'] fs']; [discriminate|].
    cbn [map fst] in H. injection H as -> H.
    unfold rglob. cbn [filter fst].
    destruct (fnmatch pat (basename q)); cbn [map fst];
      [f_equal|]; now apply IH.
Qed.

Lemma rglob_in : forall fs pat f, In f (rglob fs pat) -> In f fs.
Proof. intros fs pat f H. unfold rglob in H. now apply filter_In in H. Qed.

Lemma rglob_first_written : forall fs pat p c0 rest x,
  rglob fs pat = (p, c0) :: rest ->
  rglob (write_file fs p x) pat = (p, x) :: rest.
Proof.
  intros fs pat p c0 rest x H.
  rewrite rglob_write by (rewrite H; now left).
  rewrite H. cbn [write_file]. now rewrite eqb_refl.
Qed.

Lemma file_path_written : forall st fs id p c0 x,
  repo st = Some fs ->
  _get_file_artifact_path st id = Some (p, c0) ->
  _get_file_artifact_path (set_repo st (write_file fs p x)) id = Some (p, x).
Proof.
  intros st fs id p c0 x Hrepo H.
  unfold _get_file_artifact_path, repo_files in *. rewrite Hrepo in H.
  cbn [set_repo repo].
  destruct (rglob fs (id ++ "_*.md")) as [|f1 r1] eqn:E1.
  - destruct (rglob fs (id ++ ".md")) as [|f2 r2] eqn:E2; [discriminate|].
    injection H as ->.
    assert (Hin : In p (map fst fs)).
    { apply (in_map fst) with (x := (p, c0)).
      apply (rglob_in fs (id ++ ".md")). rewrite E2. now left. }
    assert (E1' : rglob (write_file fs p x) (id ++ "_*.md") = []).
    { assert (E := rglob_paths fs (write_file fs p x) (id ++ "_*.md")
                     (write_file_paths fs p x Hin)).
      rewrite E1 in E. now destruct (rglob (write_file fs p x) _). }
    rewrite E1'. now rewrite (rglob_first_written _ _ _ _ _ x E2).
  - injection H as ->. now rewrite (rglob_first_written _ _ _ _ _ x E1).
Qed.

Lemma upper_has_dash : forall s,
  In "-"%char (upper s) -> In "-"%char s.
Proof.
  induction s as [|c s IH]; intros H; [contradiction|].
  simpl in H. destruct H as [H|H]; [|right; now apply IH].
  left. unfold to_upper in H. destruct (is_lower c) eqn:E; [|assumption].
  exfalso. revert E H. destruct c as [b0 b1 b2 b3 b4 b5 b6 b7].
  destruct b0, b1, b2, b3, b4, b5, b6, b7; vm_compute; congruence.
Qed.

Lemma upper_literal : forall s,
  forallb literal (upper s) = true -> forallb literal s = true.
Proof.
  induction s as [|c s IH]; intros H; [reflexivity|].
  simpl in *. apply andb_prop in H as [Hc H]. rewrite (IH H), andb_true_r.
  revert Hc. destruct c as [b0 b1 b2 b3 b4 b5 b6 b7].
  destruct b0, b1, b2, b3, b4, b5, b6, b7; vm_compute; congruence.
Qed.

(** What [^([A-Z]+)-\d+$] accepts. *)
Lemma artifact_id_shape : forall s m,
  re_match false artifact_id_re s = Some m ->
  exists T d tail,
    s = T ++ "-" ++ d ++ tail /\
    forallb is_upper T = true /\ forallb is_digit d = true /\
    (tail = [] \/ tail = [LF]).
Proof.
  intros s m H.
  unfold re_match, match_here, artifact_id_re in H. cbn [cat run] in H.
  apply plus_inv in H as (c & a & s1 & pv1 & E1 & Hc & Ha & H).
  destruct (lit_rest false "-" pv1 s1) as [[pv2 s2]|] eqn:E2; [|discriminate].
  apply lit_rest_sound in E2.
  apply plus_inv in H as (e & b & s3 & pv3 & E3 & He & Hb & H).
  unfold upper_az in Hc, Ha. unfold digit in He, Hb.
  exists (c :: a), (e :: b), s3. subst s s1 s2.
  split; [reflexivity|]. split; [simpl; now rewrite Hc|].
  split; [simpl; now rewrite He|].
  destruct s3 as [|x [|y s3]]; [now left| |discriminate].
  destruct (x =? LF)%char eqn:E; [|discriminate].
  apply Ascii.eqb_eq in E. subst x. now right.
Qed.

Lemma upper_literal_chars : forall T, forallb is_upper T = true ->
  forallb literal T = true.
Proof.
  induction T as [|c T IH]; intros H; [reflexivity|].
  simpl in *. apply andb_prop in H as [Hc H]. rewrite (IH H), andb_true_r.
  revert Hc. destruct c as [b0 b1 b2 b3 b4 b5 b6 b7].
  destruct b0, b1, b2, b3, b4, b5, b6, b7; vm_compute; congruence.
Qed.

Lemma digit_literal_chars : forall d, forallb is_digit d = true ->
  forallb literal d = true.
Proof.
  induction d as [|c d IH]; intros H; [reflexivity|].
  simpl in *. apply andb_prop in H as [Hc H]. rewrite (IH H), andb_true_r.
  revert Hc. destruct c as [b0 b1 b2 b3 b4 b5 b6 b7].
  destruct b0, b1, b2, b3, b4, b5, b6, b7; vm_compute; congruence.
Qed.

(** An artifact ID with a type: its characters stand for themselves in a
    file pattern and there is a dash among them. *)
Lemma typed_id_chars : forall reg aid t,
  get_artifact_type_from_id reg aid = Ok t ->
  forallb literal aid = true /\ In "-"%char aid.
Proof.
  intros reg aid t H. unfold get_artifact_type_from_id in H.
  destruct (is_empty aid); [discriminate|].
  destruct (re_match false artifact_id_re (upper aid)) as [m|] eqn:Em;
    [|discriminate].
  destruct (artifact_id_shape _ _ Em) as (T & d & tail & Es & HT & Hd & Ht).
  split.
  - apply upper_literal. rewrite Es, !forallb_app.
    rewrite (upper_literal_chars T HT), (digit_literal_chars d Hd).
    destruct Ht as [->| ->]; reflexivity.
  - apply upper_has_dash. rewrite Es. apply in_or_app. right. now left.
Qed.

Lemma file_not_ledger : forall reg st aid t p c,
  get_artifact_type_from_id reg aid = Ok t ->
  _get_file_artifact_path st aid = Some (p, c) ->
  eqb p INDEX_PATH = false.
Proof.
  intros reg st aid t p c Ht H.
  destruct (typed_id_chars reg aid t Ht) as [Hlit Hdash].
  assert (Hm : exists rest, fnmatch (aid ++ rest) (basename p) = true).
  { unfold _get_file_artifact_path in H.
    destruct (rglob (repo_files st) (aid ++ "_*.md")) as [|f1 r1] eqn:E1.
    - destruct (rglob (repo_files st) (aid ++ ".md")) as [|f2 r2] eqn:E2;
        [discriminate|].
      injection H as ->. exists ".md".
      assert (Hin : In (p, c) (rglob (repo_files st) (aid ++ ".md")))
        by (rewrite E2; now left).
      unfold rglob in Hin. apply filter_In in Hin as [_ Hf]. exact Hf.
    - injection H as ->. exists "_*.md".
      assert (Hin : In (p, c) (rglob (repo_files st) (aid ++ "_*.md")))
        by (rewrite E1; now left).
      unfold rglob in Hin. apply filter_In in Hin as [_ Hf]. exact Hf. }
  destruct Hm as (rest & Hm).
  destruct (fnmatch_literal_prefix aid rest _ Hlit Hm) as (n' & En).
  apply eqb_neq. intros ->.
  assert (Hin : In "-"%char (basename INDEX_PATH)).
  { rewrite En. apply in_or_app. now left. }
  vm_compute in Hin. intuition discriminate.
Qed.

(** Writing a file artifact, then reading it.  When [get_artifact] finds a
    file artifact, the new content holds no CR (which [read_text] would give
    back as LF) and [update_artifact] succeeds, the file written is the
    file that was read, [get_artifact] then gives the new content as it was
    passed, with the same path and ledger record, and the ledger is as it
    was. *)
Theorem file_update_then_get : forall reg st identifier new_content r p st',
  get_artifact st identifier = Success r ->
  Index.is_file (artifact_info r) = true ->
  TextMode.cr_free new_content = true ->
  update_artifact reg st identifier new_content = (Success p, st') ->
  p = file_path r /\
  get_artifact st' identifier
  = Success (mkFound new_content p (artifact_info r)) /\
  index_of st' = index_of st.
Proof.
  intros reg st identifier new_content r p st' Hget Hfile _ Hupd.
  unfold get_artifact in Hget. unfold update_artifact in Hupd.
  destruct (resolve_artifact_identifier st identifier) as [aid|] eqn:Hres;
    [|discriminate].
  destruct (Index.get_artifact_by_id (index_of st) aid) as [info|] eqn:Hinfo;
    [|discriminate].
  destruct (env_doc_root st) eqn:Henv; [|discriminate]. cbn [negb] in Hget.
  destruct (repo st) as [fs|] eqn:Hrepo; [|discriminate].
  assert (Hi : Index.is_file info = true /\
               exists c0, _get_file_artifact_path st aid = Some (file_path r, c0)
                          /\ artifact_info r = info).
  { destruct (Index.is_file info) eqn:E.
    - split; [reflexivity|]. unfold _get_file_artifact in Hget.
      destruct (_get_file_artifact_path st aid) as [[p0 c0]|]; [|discriminate].
      injection Hget as <-. now exists c0.
    - exfalso. unfold _get_non_file_artifact in Hget.
      destruct (find_section aid (rglob (repo_files st) "*.md")) as [[p0 t0]|];
        [|discriminate].
      injection Hget as <-. cbn [artifact_info] in Hfile. congruence. }
  destruct Hi as (Hisf & c0 & Hpath & Hr).
  destruct (get_artifact_type_from_id reg aid) as [t|e] eqn:Ht; [|discriminate].
  destruct (can_tool_update reg t) as [[|]|e]; try discriminate.
  rewrite Hisf in Hupd. unfold _update_file_artifact in Hupd.
  rewrite Henv, Hrepo, Hpath in Hupd. cbn [negb] in Hupd.
  injection Hupd as <- <-.
  assert (Hne : eqb (file_path r) INDEX_PATH = false)
    by (eapply file_not_ledger; eauto).
  assert (Hidx : index_of (set_repo st (write_file fs (file_path r) new_content))
                 = index_of st) by now apply index_of_other.
  split; [reflexivity|]. split; [|exact Hidx].
  unfold get_artifact.
  rewrite (resolve_same_index st _ identifier Hidx), Hres, Hidx, Hinfo.
  cbn [set_repo env_doc_root repo]. rewrite Henv. cbn [negb]. rewrite Hisf.
  unfold _get_file_artifact.
  assert (Hw := file_path_written st fs aid (file_path r) c0 new_content
                  Hrepo Hpath).
  cbn [set_repo] in Hw. rewrite Hw. now rewrite Hr.
Qed.

Lemma file_update_then_get_witness :
  let st := Sample.repo_with ["1,REQ-1,Login,,true,"]
              [("docs/REQ-1_login.md" : str,
                Sample.text ["### REQ-1: Login"; "Users log in."])] in
  let r := mkFound (Sample.text ["### REQ-1: Login"; "Users log in."])
             "docs/REQ-1_login.md"
             (Index.mkArtifact "1" "REQ-1" (Some ("Login" : str)) None true
                None) in
  let st' := snd (update_artifact Sample.artifact_types st "1" "New text") in
  ("docs/REQ-1_login.md" : str) = file_path r /\
  get_artifact st' "1"
  = Success (mkFound "New text" "docs/REQ-1_login.md" (artifact_info r)) /\
  index_of st' = index_of st.
Proof.
  apply (file_update_then_get Sample.artifact_types
           (Sample.repo_with ["1,REQ-1,Login,,true,"]
              [("docs/REQ-1_login.md" : str,
                Sample.text ["### REQ-1: Login"; "Users log in."])])
           "1" "New text"); vm_compute; reflexivity.
Defined.

End StoreFacts.

(** ** Sections and test requirements of a document *)
Module ExtractFacts.
Import PyStr Re Extracts StrFacts ManagerFacts HeaderFacts StepFacts TypeFacts.

(** *** Sections *)

Lemma section_lines_kept : forall id lines,
  forallb (kept id) lines = true -> section_lines id true lines = lines.
Proof.
  intros id lines. induction lines as [|l lines IH]; intros H; [reflexivity|].
  simpl in H. apply andb_prop in H as [Hl H]. cbn [section_lines].
  unfold kept in Hl. destruct (is_section_start id l) eqn:E.
  - now rewrite IH.
  - cbn [orb] in Hl. apply negb_true_iff in Hl. rewrite Hl.
    cbn [andb]. now rewrite IH.
Qed.

Lemma section_lines_stop : forall id body l rest,
  forallb (kept id) body = true -> kept id l = false ->
  section_lines id true (body ++ l :: rest) = body.
Proof.
  intros id body l rest. induction body as [|b body IH]; intros H Hl.
  - cbn [List.app section_lines]. unfold kept in Hl.
    apply orb_false_iff in Hl as [H1 H2]. apply negb_false_iff in H2.
    now rewrite H1, H2.
  - simpl in H. apply andb_prop in H as [Hb H].
    cbn [List.app section_lines]. unfold kept in Hb.
    destruct (is_section_start id b) eqn:E.
    + now rewrite IH.
    + cbn [orb] in Hb. apply negb_true_iff in Hb. rewrite Hb.
      cbn [andb]. now rewrite IH.
Qed.

Lemma section_lines_skip : forall id before lines,
  forallb (fun l => negb (is_section_start id l)) before = true ->
  section_lines id false (before ++ lines) = section_lines id false lines.
Proof.
  intros id before lines. induction before as [|b before IH]; intros H;
    [reflexivity|].
  simpl in H. apply andb_prop in H as [Hb H]. apply negb_true_iff in Hb.
  cbn [List.app section_lines]. rewrite Hb. cbn [andb]. now apply IH.
Qed.

(** What the loop gives: nothing, or a start line followed by kept lines. *)
Lemma section_lines_shape : forall id lines b,
  forallb (kept id) (section_lines id b lines) = true /\
  (b = false ->
   match section_lines id b lines with
   | [] => True
   | h :: _ => is_section_start id h = true
   end).
Proof.
  intros id lines. induction lines as [|l lines IH]; intros b.
  - split; [reflexivity|intros _; exact I].
  - cbn [section_lines]. destruct (is_section_start id l) eqn:E.
    + split; [|intros _; exact E]. cbn [forallb]. unfold kept at 1.
      rewrite E. apply (IH true).
    + destruct b; cbn [andb negb].
      * destruct (startswith "### " (strip l)) eqn:Es; cbn [andb negb].
        -- split; [reflexivity|discriminate].
        -- split; [|discriminate]. cbn [forallb]. unfold kept at 1.
           rewrite E, Es. apply (IH true).
      * apply (IH false).
Qed.

Lemma section_lines_incl : forall id lines b l,
  In l (section_lines id b lines) -> In l lines.
Proof.
  intros id lines. induction lines as [|x lines IH]; intros b l H;
    [contradiction|].
  cbn [section_lines] in H. destruct (is_section_start id x).
  - destruct H as [H|H]; [now left|right; eauto].
  - destruct (b && startswith "### " (strip x) && negb false);
      [contradiction|].
    destruct b.
    + destruct H as [H|H]; [now left|right; eauto].
    + right. eauto.
Qed.

(** The section of an artifact in a document: the first line whose stripped
    text starts with [### ID:], and the lines after it up to the next line
    that starts another [### ] heading, or to the end. *)
Theorem extract_section_spec : forall content id before h body rest,
  split LF content = before ++ h :: body ++ rest ->
  forallb (fun l => negb (is_section_start id l)) before = true ->
  is_section_start id h = true ->
  forallb (kept id) body = true ->
  match rest with [] => true | l :: _ => negb (kept id l) end = true ->
  _extract_artifact_section content id = join [LF] (h :: body).
Proof.
  intros content id before h body rest Hs Hb Hh Hbody Hrest.
  unfold _extract_artifact_section. rewrite Hs.
  rewrite section_lines_skip by assumption.
  cbn [section_lines]. rewrite Hh. do 2 f_equal.
  destruct rest as [|l rest].
  - rewrite app_nil_r. now apply section_lines_kept.
  - apply negb_true_iff in Hrest. now apply section_lines_stop.
Qed.

Lemma extract_section_spec_witness :
  _extract_artifact_section
    (Sample.text ["# PRD-1: Shop"; ""; "### UACC-17: Check login";
                  "*Tests*: REQ-2"; "### UACC-17: again"; "";
                  "### UACC-170: Check logout"; "*Tests*: REQ-3"])
    "UACC-17"
  = join [LF] (Sample.strs ["### UACC-17: Check login"; "*Tests*: REQ-2";
                            "### UACC-17: again"; ""]).
Proof.
  apply (extract_section_spec _ "UACC-17" (Sample.strs ["# PRD-1: Shop"; ""])
           ("### UACC-17: Check login" : str)
           (Sample.strs ["*Tests*: REQ-2"; "### UACC-17: again"; ""])
           (Sample.strs ["### UACC-170: Check logout"; "*Tests*: REQ-3"]));
    reflexivity.
Defined.

(** Extracting a section from an extracted section gives it back: the text
    that [_extract_artifact_section] returns is a section of its own, and
    the empty text (no section found) has no section. *)
Theorem extract_section_idempotent : forall content id,
  _extract_artifact_section (_extract_artifact_section content id) id
  = _extract_artifact_section content id.
Proof.
  intros content id. unfold _extract_artifact_section.
  destruct (section_lines_shape id (split LF content) false) as [Hk Hh].
  specialize (Hh eq_refl).
  assert (Hdot : Forall (fun l => forallb dot l = true)
                   (section_lines id false (split LF content))).
  { apply Forall_forall. intros l Hl. apply section_lines_incl in Hl.
    pose proof (split_lines_dot content) as Hd.
    rewrite Forall_forall in Hd. now apply Hd. }
  destruct (section_lines id false (split LF content)) as [|h body] eqn:E.
  - reflexivity.
  - rewrite split_join; [|discriminate|exact Hdot].
    cbn [section_lines]. rewrite Hh. do 2 f_equal.
    apply section_lines_kept. simpl in Hk. now apply andb_prop in Hk.
Qed.

(** *** Blanks around a text *)

Lemma strip_around : forall pre body post,
  forallb is_space pre = true -> forallb is_space post = true ->
  strip body = body ->
  strip (pre ++ body ++ post) = body.
Proof.
  intros pre body post Hpre Hpost Hb.
  destruct body as [|c t].
  - rewrite <- (app_nil_r (pre ++ [] ++ post)).
    cbn [List.app]. rewrite app_nil_r.
    unfold strip, strip_of, lstrip_of.
    rewrite drop_while_all; [apply rstrip_of_nil|].
    rewrite forallb_app. now rewrite Hpre, Hpost.
  - assert (Hc : is_space c = false) by (eapply strip_first; eauto).
    unfold strip, strip_of, lstrip_of in *.
    rewrite drop_while_app, drop_while_all by assumption.
    change ((c :: t) ++ post) with (c :: t ++ post).
    rewrite drop_while_head by assumption.
    rewrite drop_while_head in Hb by assumption.
    change (c :: t ++ post) with ((c :: t) ++ post).
    now rewrite rstrip_of_app_all.
Qed.

Lemma strip_ends : forall c m d,
  is_space c = false -> is_space d = false ->
  strip (c :: m ++ [d]) = c :: m ++ [d].
Proof. intros. now apply strip_of_clean. Qed.

(** *** The pattern of a requirement ID *)

Lemma req_match : forall d,
  isdigit d = true -> looks_like_req ("REQ-" ++ d) = true.
Proof.
  intros d H. unfold isdigit in H. apply andb_prop in H as [Hne Hd].
  destruct d as [|e d]; [discriminate|].
  simpl in Hd. apply andb_prop in Hd as [He Hd].
  unfold looks_like_req, re_match, match_here, req_id_re.
  cbn [cat run list_ascii_of_string lit_rest chr_eq List.app].
  rewrite !Ascii.eqb_refl. unfold digit at 1. rewrite He.
  erewrite star_greedy_all; [reflexivity|exact Hd|].
  intros pv. reflexivity.
Qed.

Lemma req_shape : forall item,
  looks_like_req item = true ->
  exists d tail,
    item = "REQ-" ++ d ++ tail /\ isdigit d = true /\
    (tail = [] \/ tail = [LF]).
Proof.
  intros item H. unfold looks_like_req in H.
  destruct (re_match false req_id_re item) as [m|] eqn:Em; [|discriminate].
  clear H. unfold re_match, match_here, req_id_re in Em. cbn [cat run] in Em.
  destruct (lit_rest false "REQ-" None item) as [[pv1 s1]|] eqn:E1;
    [|discriminate].
  apply lit_rest_sound in E1.
  apply plus_inv in Em as (e & b & s3 & pv3 & E3 & He & Hb & H).
  unfold digit in He, Hb.
  exists (e :: b), s3. subst item s1. split; [reflexivity|].
  split; [unfold isdigit; simpl; now rewrite He|].
  destruct s3 as [|x [|y s3]]; [now left| |discriminate].
  destruct (x =? LF)%char eqn:E; [|discriminate].
  apply Ascii.eqb_eq in E. subst x. now right.
Qed.

(** *** Items separated by a comma and a blank *)

Lemma split_blank_head : forall s,
  split COMMA (" " ++ s)
  = match split COMMA s with
    | h :: t => (" " ++ h) :: t
    | [] => [" " : str]
    end.
Proof. intros s. reflexivity. Qed.

Lemma split_comma_blank : forall xs x,
  forallb (forallb (fun c => negb (c =? COMMA)%char)) (x :: xs) = true ->
  split COMMA (join ", " (x :: xs)) = x :: map (fun y => " " ++ y) xs.
Proof.
  induction xs as [|y r IH]; intros x H.
  - simpl in H. rewrite andb_true_r in H. cbn [join map].
    now apply split_no_sep.
  - cbn [forallb] in H. apply andb_prop in H as [Hx H].
    rewrite join_cons2.
    change (x ++ ", " ++ join ", " (y :: r))
      with (x ++ COMMA :: (" " ++ join ", " (y :: r))).
    rewrite split_app_sep, (split_no_sep COMMA x Hx), split_blank_head.
    rewrite (IH y H). reflexivity.
Qed.

Lemma join_last_visible : forall xs x,
  forallb (fun y => negb (is_empty y) && forallb (fun c => negb (is_space c)) y) (x :: xs) = true ->
  exists m d, join ", " (x :: xs) = m ++ [d] /\ is_space d = false.
Proof.
  induction xs as [|y r IH]; intros x H.
  - simpl in H. rewrite andb_true_r in H. apply andb_prop in H as [Hne Hv].
    destruct x as [|c x]; [discriminate|].
    destruct (exists_last (l := c :: x)) as (m & d & E); [discriminate|].
    exists m, d. split; [exact E|]. rewrite E, forallb_app in Hv.
    apply andb_prop in Hv as [_ Hd]. simpl in Hd. rewrite andb_true_r in Hd.
    now apply negb_true_iff in Hd.
  - cbn [forallb] in H. apply andb_prop in H as [_ H].
    destruct (IH y H) as (m & d & E & Hd).
    exists (x ++ ", " ++ m), d. split; [|exact Hd].
    rewrite join_cons2, E. now rewrite <- !app_assoc.
Qed.

Lemma strip_first_last : forall c t m d,
  c :: t = m ++ [d] -> is_space c = false -> is_space d = false ->
  strip (c :: t) = c :: t.
Proof.
  intros c t m d E Hc Hd. destruct m as [|c' m].
  - injection E as -> ->. apply strip_of_none. simpl. now rewrite Hc.
  - injection E as <- ->. now apply strip_ends.
Qed.

Lemma digit_not_comma : forall c,
  is_digit c = true -> negb (c =? COMMA)%char = true.
Proof.
  intros c. destruct c as [b0 b1 b2 b3 b4 b5 b6 b7].
  destruct b0, b1, b2, b3, b4, b5, b6, b7; vm_compute; congruence.
Qed.

Lemma req_visible : forall d,
  isdigit d = true ->
  negb (is_empty ("REQ-" ++ d)) &&
  forallb (fun c => negb (is_space c)) ("REQ-" ++ d) = true /\
  forallb (fun c => negb (c =? COMMA)%char) ("REQ-" ++ d) = true.
Proof.
  intros d H. unfold isdigit in H. apply andb_prop in H as [_ Hd].
  split.
  - rewrite forallb_app, (digits_visible d Hd). reflexivity.
  - rewrite forallb_app. replace (forallb _ d) with true; [reflexivity|].
    symmetry. clear -Hd. induction d as [|c d IH]; [reflexivity|].
    simpl in *. apply andb_prop in Hd as [Hc Hd].
    now rewrite (digit_not_comma c Hc), IH.
Qed.

Lemma req_ids_ok : forall ds,
  forallb isdigit ds = true ->
  forallb (fun y => negb (is_empty y) && forallb (fun c => negb (is_space c)) y)
    (req_ids ds) = true /\
  forallb (forallb (fun c => negb (c =? COMMA)%char)) (req_ids ds) = true /\
  forallb looks_like_req (req_ids ds) = true.
Proof.
  induction ds as [|d ds IH]; intros H; [repeat split|].
  cbn [forallb] in H. apply andb_prop in H as [Hd H].
  destruct (IH H) as (I1 & I2 & I3).
  destruct (req_visible d Hd) as [V1 V2].
  unfold req_ids in *. cbn [map forallb].
  rewrite V1, V2, I1, I2, I3, (req_match d Hd). repeat split.
Qed.

Lemma strip_items : forall xs,
  forallb (fun y => negb (is_empty y) && forallb (fun c => negb (is_space c)) y)
    xs = true ->
  map strip (map (fun y => " " ++ y) xs) = xs.
Proof.
  induction xs as [|x xs IH]; intros H; [reflexivity|].
  cbn [forallb] in H. apply andb_prop in H as [Hx H].
  apply andb_prop in Hx as [_ Hx].
  cbn [map]. rewrite (IH H). f_equal.
  rewrite <- (app_nil_r x) at 1.
  apply (strip_around " " x []); try reflexivity.
  now apply strip_of_none.
Qed.

Lemma filter_all : forall (A : Type) (p : A -> bool) l,
  forallb p l = true -> filter p l = l.
Proof.
  intros A p l. induction l as [|x l IH]; intros H; [reflexivity|].
  simpl in *. apply andb_prop in H as [Hx H]. now rewrite Hx, IH.
Qed.

Lemma first_tests_line_at : forall before line after,
  forallb (fun l => negb (startswith "*Tests*:" (strip l))) before = true ->
  startswith "*Tests*:" (strip line) = true ->
  first_tests_line (before ++ line :: after) = tests_items (strip line).
Proof.
  intros before line after. induction before as [|b before IH]; intros Hb Hl.
  - cbn [List.app first_tests_line]. cbv zeta. now rewrite Hl.
  - cbn [forallb] in Hb. apply andb_prop in Hb as [H1 Hb].
    apply negb_true_iff in H1.
    cbn [List.app first_tests_line]. cbv zeta. rewrite H1. now apply IH.
Qed.

(** Reading a [*Tests*:] line back.  When the first line of the content
    that starts with [*Tests*:] lists requirement IDs [REQ-d], separated by
    a comma and a blank, [_extract_test_requirements] gives these IDs in
    their order. *)
Theorem test_requirements_round_trip : forall content before after d0 ds,
  split LF content
  = before ++ ("*Tests*: " ++ join ", " (req_ids (d0 :: ds))) :: after ->
  forallb (fun l => negb (startswith "*Tests*:" (strip l))) before = true ->
  forallb isdigit (d0 :: ds) = true ->
  _extract_test_requirements content = req_ids (d0 :: ds).
Proof.
  intros content before after d0 ds Hs Hb Hd.
  destruct (req_ids_ok (d0 :: ds) Hd) as (Hvis & Hcomma & Hreq).
  set (items := req_ids (d0 :: ds)) in *.
  assert (Ei : items = ("REQ-" ++ d0) :: req_ids ds) by reflexivity.
  destruct (join_last_visible (req_ids ds) ("REQ-" ++ d0)) as (m & d & Ej & Hdv).
  { exact Hvis. }
  change (join ", " (("REQ-" ++ d0) :: req_ids ds)) with (join ", " items) in Ej.
  set (J := join ", " items) in *.
  assert (HJ : strip J = J).
  { destruct J as [|c t] eqn:EJ.
    - destruct m; discriminate.
    - apply (strip_first_last c t m d Ej); [|exact Hdv].
      assert (E0 : exists u, c :: t = "R"%char :: u).
      { rewrite <- EJ. unfold J. rewrite Ei.
        destruct (req_ids ds); cbn [join List.app list_ascii_of_string];
          eauto. }
      destruct E0 as (u & E0). now injection E0 as ->. }
  assert (Hline : strip ("*Tests*: " ++ J) = "*Tests*: " ++ J).
  { rewrite Ej.
    change ("*Tests*: " ++ m ++ [d]) with ("*"%char :: ("Tests*: " ++ m) ++ [d]).
    now apply strip_ends. }
  unfold _extract_test_requirements. rewrite Hs.
  rewrite first_tests_line_at; [|exact Hb|now rewrite Hline].
  rewrite Hline. unfold tests_items.
  change (skipn (length ("*Tests*:" : str)) ("*Tests*: " ++ J))
    with (" " ++ J).
  cbv zeta.
  assert (Et : strip (" " ++ J) = J).
  { rewrite <- (app_nil_r J) at 1. now apply (strip_around " " J []). }
  rewrite Et.
  replace (is_empty J) with false by (rewrite Ej; now destruct m).
  unfold J. rewrite Ei, split_comma_blank by (rewrite <- Ei; exact Hcomma).
  cbn [map]. rewrite strip_items.
  - assert (E0 : strip ("REQ-" ++ d0) = "REQ-" ++ d0).
    { apply strip_of_none. rewrite Ei in Hvis. cbn [forallb] in Hvis.
      apply andb_prop in Hvis as [Hv _]. now apply andb_prop in Hv. }
    rewrite E0, <- Ei. now apply filter_all.
  - rewrite Ei in Hvis. cbn [forallb] in Hvis. now apply andb_prop in Hvis.
Qed.

Lemma test_requirements_round_trip_witness :
  _extract_test_requirements
    (Sample.text ["### UACC-17: Check login"; "`Status`: NEW";
                  "*Tests*: REQ-2, REQ-30"; "*Tests*: REQ-4"])
  = req_ids ["2" : str; "30" : str].
Proof.
  apply (test_requirements_round_trip _
           (Sample.strs ["### UACC-17: Check login"; "`Status`: NEW"])
           (Sample.strs ["*Tests*: REQ-4"]) "2" ["30" : str]); reflexivity.
Defined.

(** *** Only requirement IDs are returned *)

Lemma req_item_shape : forall x,
  looks_like_req (strip x) = true -> is_req_id (strip x) = true.
Proof.
  intros x H. destruct (req_shape _ H) as (d & tail & E & Hd & Ht).
  assert (tail = []).
  { destruct Ht as [->| ->]; [reflexivity|]. exfalso.
    destruct (strip_last x) as (t & e & Et & He).
    - rewrite E. discriminate.
    - rewrite E in Et.
      replace ("REQ-" ++ d ++ [LF]) with (("REQ-" ++ d) ++ [LF]) in Et
        by now rewrite <- app_assoc.
      apply app_inj_tail in Et as [_ <-]. discriminate. }
  subst tail. rewrite app_nil_r in E. rewrite E.
  unfold is_req_id. cbn [list_ascii_of_string List.app startswith skipn].
  now rewrite !Ascii.eqb_refl.
Qed.

(** Whatever the content, every item that [_extract_test_requirements]
    returns is [REQ-] followed by digits: the other items of the line are
    dropped. *)
Theorem test_requirements_are_req_ids : forall content,
  forallb is_req_id (_extract_test_requirements content) = true.
Proof.
  intros content. unfold _extract_test_requirements.
  induction (split LF content) as [|l lines IH]; [reflexivity|].
  cbn [first_tests_line]. cbv zeta.
  destruct (startswith "*Tests*:" (strip l)); [|exact IH].
  unfold tests_items. cbv zeta.
  destruct (is_empty _); [reflexivity|].
  apply forallb_forall. intros r Hr. apply filter_In in Hr as [Hin Hr].
  apply in_map_iff in Hin as (x & <- & _). now apply req_item_shape.
Qed.

End ExtractFacts.

(** ** Target file names *)
Module NameFacts.
Import PyStr Re Manager StrFacts ManagerFacts HeaderFacts StepFacts.

(** *** Stripping a set of characters *)




(** *** Replacing the runs of a class *)




End NameFacts.

(** ** Statuses: the ledger and the lists of covering tests *)
Module StatusFacts.
Import PyStr Re Headers Manager Handlers IndexQueries StrFacts ManagerFacts
  HeaderFacts StepFacts LedgerFacts ExtractFacts.

(** *** The status in the ledger *)

(** [update_status_in_index] and the ledger.  For an artifact that is in the
    ledger, when the columns of its record with the new status need no
    quoting, the update succeeds; the record read back under the artifact ID
    has the new status (stripped of blanks, [None] when blank) and its other
    columns as before; the other artifact IDs give what they gave before;
    no file other than [index.md] changes. *)
Theorem status_update_in_ledger : forall st aid status a,
  env_doc_root st = true ->
  Index.get_artifact_by_id (index_of st) aid = Some a ->
  plain_columns (Index.artifact_id a) (Index.name a) (Some status)
    (Index.parent a) = true ->
  exists st',
    update_status_in_index st aid status = (Success tt, st') /\
    Index.get_artifact_by_id (index_of st') aid
    = Some (stored (Index.doc_id a) (Index.artifact_id a) (Index.name a)
              (Some status) (Index.is_file a) (Index.parent a)) /\
    (forall other,
       eqb (upper other) (upper aid) = false ->
       Index.get_artifact_by_id (index_of st') other
       = Index.get_artifact_by_id (index_of st) other) /\
    (forall p,
       eqb p INDEX_PATH = false ->
       read_file (repo_files st') p = read_file (repo_files st) p).
Proof.
  intros st aid status a Henv Hget Hplain.
  destruct (update_stored (index_of st) aid None (Some status) None None a
              Hget Hplain) as (c' & Hu & Hback & _ & Hother).
  cbn [Index.set_fields Index.name Index.status Index.is_file Index.parent]
    in Hback.
  exists (set_index st (Some c')).
  unfold update_status_in_index. rewrite Henv. cbn [negb]. rewrite Hu.
  split; [reflexivity|]. rewrite index_of_set_index.
  split; [exact Hback|]. split; [exact Hother|].
  intros p Hp. cbn [set_index set_repo repo_files repo].
  apply read_write_other. apply eqb_neq. apply eqb_neq in Hp. congruence.
Qed.

Lemma status_update_in_ledger_witness :
  exists st',
    update_status_in_index Sample.covered_repo "uacc-17" "ACTIVE"
    = (Success tt, st') /\
    Index.get_artifact_by_id (index_of st') "uacc-17"
    = Some (stored "17" "UACC-17" (Some ("Check login" : str))
              (Some ("ACTIVE" : str)) false (Some ("PRD-1" : str))) /\
    (forall other,
       eqb (upper other) (upper "uacc-17") = false ->
       Index.get_artifact_by_id (index_of st') other
       = Index.get_artifact_by_id (index_of Sample.covered_repo) other) /\
    (forall p,
       eqb p INDEX_PATH = false ->
       read_file (repo_files st') p
       = read_file (repo_files Sample.covered_repo) p).
Proof.
  apply (status_update_in_ledger Sample.covered_repo "uacc-17" "ACTIVE"
           (Index.mkArtifact "17" "UACC-17" (Some ("Check login" : str))
              (Some ("NEW" : str)) false (Some ("PRD-1" : str))));
    vm_compute; reflexivity.
Defined.

(** *** The status note of an entry *)

(** Inside a text without an opening parenthesis that ends with a visible
    character, the pattern of the status note matches nowhere. *)
Lemma note_no_match : forall u c tail prev,
  forallb (not_char "("%char) (u ++ [c]) = true -> is_space c = false ->
  match_here false status_note_re prev ((u ++ [c]) ++ tail) = None.
Proof.
  intros u c tail prev Hu Hc.
  destruct (match_here false status_note_re prev ((u ++ [c]) ++ tail))
    as [m|] eqn:E; [exfalso|reflexivity].
  unfold match_here, status_note_re in E. cbn [cat run] in E.
  apply star_inv in E as (a & s' & pv & Es & Ha & E).
  destruct (lit_rest false "(" pv s') as [[pv2 s2]|] eqn:E2; [|discriminate].
  apply lit_rest_sound in E2. subst s'.
  apply app_eq_app in Es as (l & [[E1 E3]|[E1 E3]]).
  - (* the blanks end inside the text *)
    destruct l as [|x l].
    + rewrite app_nil_r in E1. rewrite <- E1, forallb_app in Ha.
      apply andb_prop in Ha as [_ Ha]. simpl in Ha. unfold space in Ha.
      rewrite Hc in Ha. discriminate.
    + cbn [List.app list_ascii_of_string] in E3. injection E3 as <- _.
      rewrite E1, !forallb_app in Hu. apply andb_prop in Hu as [_ Hu].
      discriminate.
  - (* the text is inside the blanks *)
    rewrite E1, !forallb_app in Ha. apply andb_prop in Ha as [Ha _].
    apply andb_prop in Ha as [_ Ha]. simpl in Ha. unfold space in Ha.
    rewrite Hc in Ha. discriminate.
Qed.

Lemma sub_note_prefix : forall u c tail prev,
  forallb (not_char "("%char) (u ++ [c]) = true -> is_space c = false ->
  sub_from false status_note_re (fun _ => []) prev ((u ++ [c]) ++ tail) 0
  = (u ++ [c]) ++ sub_from false status_note_re (fun _ => []) (Some c) tail 0.
Proof.
  induction u as [|x u IH]; intros c tail prev Hu Hc.
  - cbn [List.app sub_from].
    assert (E := note_no_match [] c tail prev Hu Hc).
    cbn [List.app] in E. now rewrite E.
  - assert (E := note_no_match (x :: u) c tail prev Hu Hc).
    cbn [List.app] in *. cbn [sub_from]. rewrite E. f_equal.
    apply IH; [|exact Hc]. cbn [forallb] in Hu.
    now apply andb_prop in Hu.
Qed.

Lemma sub_note_skip : forall s prev,
  sub_from false status_note_re (fun _ => []) prev s (length s) = [].
Proof.
  induction s as [|c s IH]; intros prev; [reflexivity|].
  cbn [length sub_from]. apply IH.
Qed.

(** The note at the end of an entry is matched as a whole. *)
Lemma note_match : forall ws old prev,
  forallb is_space ws = true -> forallb (not_char ")"%char) old = true ->
  exists m,
    match_here false status_note_re prev (ws ++ "(" ++ old ++ ")") = Some m /\
    length (m_text m) = length (ws ++ "(" ++ old ++ ")").
Proof.
  intros ws old prev Hws Hold.
  unfold match_here, status_note_re. cbn [cat run].
  eexists. split.
  - apply star_greedy; [exact Hws|reflexivity|]. intros pv.
    cbn [list_ascii_of_string lit_rest chr_eq List.app].
    rewrite Ascii.eqb_refl.
    apply star_greedy; [exact Hold| |].
    + cbn [List.app list_ascii_of_string]. unfold not_char.
      now rewrite Ascii.eqb_refl.
    + intros pv'. cbn [list_ascii_of_string lit_rest chr_eq List.app].
      rewrite Ascii.eqb_refl. reflexivity.
  - cbn [m_text]. change (length (@nil ascii)) with 0.
    rewrite Nat.sub_0_r, firstn_all. reflexivity.
Qed.

Lemma sub_note : forall ws old prev,
  forallb is_space ws = true -> forallb (not_char ")"%char) old = true ->
  sub_from false status_note_re (fun _ => []) prev (ws ++ "(" ++ old ++ ")") 0
  = [].
Proof.
  intros ws old prev Hws Hold.
  destruct (note_match ws old prev Hws Hold) as (m & Em & Hl).
  destruct (ws ++ "(" ++ old ++ ")") as [|c s] eqn:Es.
  - destruct ws; discriminate.
  - cbn [sub_from]. rewrite Em, Hl. cbn [length List.app].
    apply sub_note_skip.
Qed.

Lemma startswith_app : forall p s t,
  startswith p s = true -> startswith p (s ++ t) = true.
Proof.
  induction p as [|x p IH]; intros s t H; [reflexivity|].
  destruct s as [|y s]; [discriminate|].
  cbn [startswith List.app] in *. apply andb_prop in H as [H1 H2].
  now rewrite H1, IH.
Qed.

(** One entry: the note at its end, if there is one, gives way to the new
    status. *)
Lemma update_one_test_note : forall aid status u c,
  startswith aid (u ++ [c]) = true ->
  forallb (not_char "("%char) (u ++ [c]) = true -> is_space c = false ->
  update_one_test aid status (u ++ [c]) = (u ++ [c]) ++ " (" ++ status ++ ")" /\
  forall ws old,
    forallb is_space ws = true -> forallb (not_char ")"%char) old = true ->
    update_one_test aid status ((u ++ [c]) ++ ws ++ "(" ++ old ++ ")")
    = (u ++ [c]) ++ " (" ++ status ++ ")".
Proof.
  intros aid status u c Hs Hu Hc. split.
  - unfold update_one_test. rewrite Hs. unfold re_sub.
    rewrite <- (app_nil_r (u ++ [c])) at 1.
    rewrite sub_note_prefix by assumption.
    cbn [sub_from]. unfold match_here, status_note_re. cbn [cat run star].
    cbn [list_ascii_of_string lit_rest]. now rewrite app_nil_r.
  - intros ws old Hws Hold. unfold update_one_test.
    rewrite (startswith_app _ _ _ Hs). unfold re_sub.
    rewrite sub_note_prefix by assumption.
    rewrite sub_note by assumption. now rewrite app_nil_r.
Qed.

(** *** The list of covering tests *)

Lemma clean_member_spec : forall v,
  clean_member v = true ->
  v <> [] /\ strip v = v /\
  forallb (fun c => negb (c =? COMMA)%char) v = true.
Proof.
  intros v H. unfold clean_member in H.
  apply andb_prop in H as [H H3]. apply andb_prop in H as [H1 H2].
  apply eqb_eq in H2. split; [now destruct v|]. split; [exact H2|].
  apply forallb_forall. intros c Hc. rewrite forallb_forall in H3.
  apply H3 in Hc. apply andb_prop in Hc as [_ Hc]. exact Hc.
Qed.

Lemma clean_members_split : forall l,
  l <> [] ->
  forallb (fun e => eqb (strip e) e &&
                    forallb (fun c => negb (c =? COMMA)%char) e) l
  = true ->
  map strip (split COMMA (join [COMMA] l)) = l.
Proof.
  intros l Hne H. rewrite split_join.
  - clear Hne. induction l as [|e l IH]; [reflexivity|].
    cbn [forallb] in H. apply andb_prop in H as [He H].
    apply andb_prop in He as [He _]. apply eqb_eq in He.
    cbn [map]. now rewrite He, IH.
  - exact Hne.
  - apply Forall_forall. intros e He. rewrite forallb_forall in H.
    apply H in He. now apply andb_prop in He.
Qed.

Lemma map_untouched : forall aid status l,
  forallb (fun e => negb (startswith aid e)) l = true ->
  map (update_one_test aid status) l = l.
Proof.
  intros aid status l. induction l as [|e l IH]; intros H; [reflexivity|].
  cbn [forallb] in H. apply andb_prop in H as [He H].
  apply negb_true_iff in He. cbn [map]. unfold update_one_test at 1.
  now rewrite He, IH.
Qed.

Lemma members_entries : forall l,
  forallb clean_member l = true ->
  forallb (fun e => eqb (strip e) e &&
                    forallb (fun c => negb (c =? COMMA)%char) e) l = true.
Proof.
  induction l as [|e l IH]; intros H; [reflexivity|].
  cbn [forallb] in *. apply andb_prop in H as [He H].
  destruct (clean_member_spec e He) as (_ & Hs & Hc).
  now rewrite Hs, eqb_refl, Hc, IH.
Qed.

Lemma entries_app : forall (q : str -> bool) pre e post,
  forallb q (pre ++ post) = true -> q e = true ->
  forallb q (pre ++ e :: post) = true.
Proof.
  intros q pre e post H He. rewrite forallb_app in *.
  apply andb_prop in H as [H1 H2]. cbn [forallb]. now rewrite H1, He, H2.
Qed.

Lemma list_around : forall (pre : list str) e post, pre ++ e :: post <> [].
Proof. intros [|p pre] e post; discriminate. Qed.

(** The status of a covering test in the list of a requirement.  In a
    comma-separated list of entries without blanks around them, where one
    entry starts with the artifact ID and no other does,
    [_update_test_status_in_list] puts the new status in parentheses after
    that entry, in place of the note [(old)] when the entry ends with one,
    and leaves the other entries and the order as they are. *)
Theorem covering_test_status_replaced : forall aid status pre post name old,
  forallb clean_member (pre ++ name :: post) = true ->
  forallb (fun e => negb (startswith aid e)) (pre ++ post) = true ->
  startswith aid name = true ->
  forallb (not_char "("%char) name = true ->
  forallb (fun c => not_char COMMA c && not_char ")"%char c) old = true ->
  _update_test_status_in_list
    (join [COMMA] (pre ++ (name ++ " (" ++ old ++ ")") :: post)) aid status
  = join [COMMA] (pre ++ (name ++ " (" ++ status ++ ")") :: post) /\
  _update_test_status_in_list (join [COMMA] (pre ++ name :: post)) aid status
  = join [COMMA] (pre ++ (name ++ " (" ++ status ++ ")") :: post).
Proof.
  intros aid status pre post name old Hclean Hother Hstart Hparen Hold.
  assert (Hpp : forallb clean_member (pre ++ post) = true /\
                clean_member name = true).
  { rewrite forallb_app in *. cbn [forallb] in Hclean.
    apply andb_prop in Hclean as [H1 H2]. apply andb_prop in H2 as [H2 H3].
    now rewrite H1, H2, H3. }
  destruct Hpp as [Hpp Hname].
  destruct (clean_member_spec name Hname) as (Hne & Hstrip & Hcomma).
  destruct (strip_last name) as (u & c & Eu & Hc); [now rewrite Hstrip|].
  rewrite Hstrip in Eu.
  assert (Hc0 : exists c0 t, name = c0 :: t /\ is_space c0 = false).
  { destruct name as [|c0 t]; [contradiction|]. exists c0, t.
    split; [reflexivity|]. eapply strip_first; eauto. }
  destruct Hc0 as (c0 & t & E0 & Hv0).
  assert (Hold1 : forallb (fun c => negb (c =? COMMA)%char) old = true).
  { apply forallb_forall. intros x Hx. rewrite forallb_forall in Hold.
    apply Hold in Hx. now apply andb_prop in Hx. }
  assert (Hold2 : forallb (not_char ")"%char) old = true).
  { apply forallb_forall. intros x Hx. rewrite forallb_forall in Hold.
    apply Hold in Hx. now apply andb_prop in Hx. }
  assert (Hnote : update_one_test aid status name
                  = name ++ " (" ++ status ++ ")" /\
                  update_one_test aid status (name ++ " (" ++ old ++ ")")
                  = name ++ " (" ++ status ++ ")").
  { rewrite Eu in Hstart, Hparen.
    destruct (update_one_test_note aid status u c Hstart Hparen Hc)
      as [N1 N2].
    rewrite Eu. split; [exact N1|]. exact (N2 " " old eq_refl Hold2). }
  destruct Hnote as [N1 N2].
  assert (Hent := members_entries _ Hpp).
  unfold _update_test_status_in_list. split.
  - rewrite clean_members_split.
    + rewrite map_app. cbn [map]. rewrite N2.
      rewrite forallb_app in Hother. apply andb_prop in Hother as [O1 O2].
      now rewrite !map_untouched.
    + apply list_around.
    + apply entries_app; [exact Hent|].
      apply andb_true_intro. split.
      * apply eqb_eq. rewrite E0.
        assert (Ew : (c0 :: t) ++ " (" ++ old ++ ")"
                     = c0 :: (t ++ " (" ++ old) ++ [")"%char]).
        { cbn [List.app]. f_equal. now rewrite <- !app_assoc. }
        rewrite Ew. now apply strip_ends.
      * rewrite !forallb_app, Hcomma, Hold1. reflexivity.
  - rewrite clean_members_split.
    + rewrite map_app. cbn [map]. rewrite N1.
      rewrite forallb_app in Hother. apply andb_prop in Hother as [O1 O2].
      now rewrite !map_untouched.
    + apply list_around.
    + now apply members_entries.
Qed.

Lemma covering_test_status_replaced_witness :
  _update_test_status_in_list
    (join [COMMA]
       (Sample.strs ["SACC-4 (NEW)"] ++
        ("UACC-17" ++ " (" ++ "NEW" ++ ")") :: Sample.strs ["UACC-3"]))
    "UACC-17" "ACTIVE"
  = join [COMMA]
      (Sample.strs ["SACC-4 (NEW)"] ++
       ("UACC-17" ++ " (" ++ "ACTIVE" ++ ")") :: Sample.strs ["UACC-3"]) /\
  _update_test_status_in_list
    (join [COMMA]
       (Sample.strs ["SACC-4 (NEW)"] ++
        ("UACC-17" : str) :: Sample.strs ["UACC-3"]))
    "UACC-17" "ACTIVE"
  = join [COMMA]
      (Sample.strs ["SACC-4 (NEW)"] ++
       ("UACC-17" ++ " (" ++ "ACTIVE" ++ ")") :: Sample.strs ["UACC-3"]).
Proof.
  apply (covering_test_status_replaced "UACC-17" "ACTIVE"
           (Sample.strs ["SACC-4 (NEW)"]) (Sample.strs ["UACC-3"])
           "UACC-17" "NEW"); reflexivity.
Defined.

End StatusFacts.

(** ** Sections: what is written is read back *)
Module SectionFacts.
Import PyStr Re Types Manager Handlers StrFacts ManagerFacts HeaderFacts
  StepFacts StatusFacts.

(** A content whose first line is a heading of the artifact starts with
    that heading once the blanks before it are dropped. *)
Lemma heading_prefix_kept : forall id h rest,
  is_heading_of id h = true ->
  startswith ("### " ++ id) (lstrip (h ++ rest)) = true.
Proof.
  intros id h rest H. unfold is_heading_of, strip, strip_of in H.
  unfold lstrip, lstrip_of in *. rewrite drop_while_app.
  destruct (drop_while is_space h) as [|c t] eqn:E.
  - rewrite rstrip_of_nil in H. discriminate.
  - destruct (rstrip_of_prefix is_space (c :: t)) as (u & Eu).
    rewrite Eu, <- app_assoc. now apply startswith_app.
Qed.

Lemma join_head_app : forall (h : str) body,
  exists rest, join [LF] (h :: body) = h ++ rest.
Proof.
  intros h [|b body].
  - exists []. now rewrite app_nil_r.
  - exists ([LF] ++ join [LF] (b :: body)). reflexivity.
Qed.

(** Writing a section, then reading it.  For a nested artifact that
    [get_artifact] finds, in a document other than the ledger, and a new
    content of ASCII text without CR (which [read_text] would give back as
    LF) whose first line is a heading of the artifact, whose other lines
    start no other [### ] heading and which does not end with blanks or line
    breaks: when [update_artifact] succeeds it has written the document that
    was read, [get_artifact] then gives the new content as it was passed,
    and the ledger is as it was. *)
Theorem section_update_then_get :
  forall reg st identifier id new_content h body r p st',
  get_artifact st identifier = Success r ->
  resolve_artifact_identifier st identifier = Some id ->
  Index.is_file (artifact_info r) = false ->
  eqb (file_path r) INDEX_PATH = false ->
  TextMode.plain_ascii new_content = true ->
  split LF new_content = h :: body ->
  is_heading_of id h = true ->
  forallb (fun l => negb (ends_section id l)) body = true ->
  eqb (rstrip new_content) new_content = true ->
  update_artifact reg st identifier new_content = (Success p, st') ->
  p = file_path r /\
  get_artifact st' identifier
  = Success (mkFound new_content p (artifact_info r)) /\
  index_of st' = index_of st.
Proof.
  intros reg st identifier id new h body r p st'
    Hget Hres Hfile Hpath _ Hsplit Hh Hbody Hrs Hupd.
  apply eqb_eq in Hrs.
  assert (Enew : new = join [LF] (h :: body)).
  { rewrite <- Hsplit. symmetry. apply join_split. }
  (* what was read *)
  unfold get_artifact in Hget. rewrite Hres in Hget.
  destruct (Index.get_artifact_by_id (index_of st) id) as [info|] eqn:Hinfo;
    [|discriminate].
  destruct (env_doc_root st) eqn:Henv; [|discriminate]. cbn [negb] in Hget.
  destruct (repo st) as [fs|] eqn:Hrepo; [|discriminate].
  assert (Hi : Index.is_file info = false /\
               find_section id (rglob fs "*.md") = Some (file_path r, content r)
               /\ artifact_info r = info).
  { destruct (Index.is_file info) eqn:E.
    - exfalso. unfold _get_file_artifact in Hget.
      destruct (_get_file_artifact_path st id) as [[p0 c0]|]; [|discriminate].
      injection Hget as <-. cbn [artifact_info] in Hfile. congruence.
    - split; [reflexivity|].
      unfold _get_non_file_artifact, repo_files in Hget.
      rewrite Hrepo in Hget.
      destruct (find_section id (rglob fs "*.md")) as [[p0 t0]|];
        [|discriminate].
      injection Hget as <-. auto. }
  destruct Hi as (Hisf & Hfind & Hr).
  destruct (find_section_view _ _ _ _ Hfind)
    as (c & before & h0 & after & Hin & Hloc & Htext & Hff).
  destruct (locate_heading_spec _ _ _ _ _ Hloc) as (Hc & Hh0 & Hbefore).
  destruct (section_body_spec id after) as (Hafter & _ & Hrest).
  set (after' := skipn (length (section_body id after)) after) in *.
  (* every line is free of line breaks *)
  assert (Hdots := split_lines_dot c). rewrite Hc in Hdots.
  apply Forall_app in Hdots as [Dbefore Dh].
  apply Forall_cons_iff in Dh as [_ Dafter].
  rewrite Hafter in Dafter. apply Forall_app in Dafter as [_ Dafter'].
  assert (Dnew := split_lines_dot new). rewrite Hsplit in Dnew.
  (* the new content ends with a visible character *)
  assert (Hvis : rstrip new <> []).
  { rewrite Enew. now apply heading_text_visible with id. }
  destruct (rstrip_last _ Hvis) as (y & d & Ey & Hd).
  rewrite Hrs in Ey.
  assert (Hkeep : rstrip_of (is_char LF) new = new).
  { rewrite Ey. apply rstrip_of_last. now apply visible_not_lf. }
  (* the document written *)
  set (newc := join [LF] (before ++ (h :: body) ++ after')).
  assert (Hlines : split LF newc = before ++ (h :: body) ++ after').
  { apply split_join.
    - now destruct before.
    - apply Forall_app. split; [exact Dbefore|].
      apply Forall_app. split; [exact Dnew|exact Dafter']. }
  assert (Hbody' : Forall (fun l => ends_section id l = false) body).
  { apply Forall_forall. intros l Hl. rewrite forallb_forall in Hbody.
    apply Hbody in Hl. now apply negb_true_iff in Hl. }
  assert (Hnew : forall rest,
            find_section id ((file_path r, newc) :: rest)
            = Some (file_path r, new)).
  { intros rest. cbn [find_section]. rewrite Hlines.
    cbn [List.app].
    rewrite (locate_heading_at id before h _ Hbefore Hh).
    rewrite (section_body_at id _ after' Hbody' Hrest). cbv zeta.
    rewrite <- Enew, Hrs, Ey. now destruct y. }
  (* the update *)
  unfold update_artifact in Hupd. rewrite Hres, Hinfo in Hupd.
  destruct (get_artifact_type_from_id reg id) as [t|e]; [|discriminate].
  destruct (can_tool_update reg t) as [[|]|e]; try discriminate.
  rewrite Hisf in Hupd. cbv zeta in Hupd.
  assert (Hstart : startswith ("### " ++ id) (lstrip new) = true).
  { destruct (join_head_app h body) as (rest & E).
    rewrite Enew, E. now apply heading_prefix_kept. }
  rewrite Hstart in Hupd.
  unfold _update_non_file_artifact in Hupd.
  rewrite Henv, Hrepo in Hupd. cbn [negb] in Hupd. rewrite Hff in Hupd.
  cbv zeta in Hupd. rewrite Hkeep, Hsplit in Hupd.
  fold after' in Hupd. fold newc in Hupd.
  injection Hupd as <- <-.
  assert (Hidx : index_of (set_repo st (write_file fs (file_path r) newc))
                 = index_of st) by now apply index_of_other.
  split; [reflexivity|]. split; [|exact Hidx].
  unfold get_artifact.
  rewrite (resolve_same_index st _ identifier Hidx), Hres, Hidx, Hinfo.
  cbn [set_repo env_doc_root repo]. rewrite Henv. cbn [negb]. rewrite Hisf.
  unfold _get_non_file_artifact, repo_files. cbn [repo set_repo].
  rewrite rglob_write by (eapply find_section_file_in; eauto).
  rewrite (find_section_written id _ _ _ _ newc new Hff Hnew).
  now rewrite Hr.
Qed.

Lemma section_update_then_get_witness :
  let new_content :=
    Sample.text ["### REQ-7: Login"; "`Status`: ACTIVE"; "";
                 "Users log in with a password."] in
  let st' :=
    snd (update_artifact Sample.artifact_types Sample.req7_repo "7"
           new_content) in
  ("PRD-3_shop.md" : str)
  = file_path (mkFound (Sample.text ["### REQ-7: Login"; "Users log in."])
                 "PRD-3_shop.md" Sample.req7_entry) /\
  get_artifact st' "7"
  = Success (mkFound new_content "PRD-3_shop.md" Sample.req7_entry) /\
  index_of st' = index_of Sample.req7_repo.
Proof.
  apply (section_update_then_get Sample.artifact_types Sample.req7_repo "7"
           "REQ-7" _ ("### REQ-7: Login" : str)
           (Sample.strs ["`Status`: ACTIVE"; "";
                         "Users log in with a password."])
           (mkFound (Sample.text ["### REQ-7: Login"; "Users log in."])
              "PRD-3_shop.md" Sample.req7_entry));
    vm_compute; reflexivity.
Defined.

End SectionFacts.

(** ** Headings: the name of an artifact *)
Module HeadingFacts.
Import PyStr Re Headers Manager StrFacts ManagerFacts HeaderFacts StepFacts
  ExtractFacts StatusFacts.

Lemma lit_rest_fold : forall l g prev s,
  eqb (lower g) (lower l) = true ->
  exists pv, lit_rest true l prev (g ++ s) = Some (pv, s).
Proof.
  induction l as [|x l IH]; intros g prev s H.
  - destruct g; [|discriminate]. now exists prev.
  - destruct g as [|y g]; [discriminate|].
    cbn [lower map eqb] in H. apply andb_prop in H as [H1 H2].
    cbn [List.app lit_rest chr_eq]. rewrite Ascii.eqb_sym, H1.
    now apply IH.
Qed.

(** A heading [#... ID: name] against the pattern of the name. *)
Lemma name_match : forall id0 id name hashes,
  eqb (lower id) (lower id0) = true ->
  negb (is_empty hashes) && forallb (is_char "#"%char) hashes = true ->
  negb (is_empty id) && eqb (lstrip id) id = true ->
  clean_value name && eqb (strip name) name = true ->
  exists m,
    re_match true (name_re id0) (hashes ++ " " ++ id ++ ": " ++ name) = Some m /\
    group m 1 = name.
Proof.
  intros id0 id name hashes Hfold Hh Hid Hname.
  apply andb_prop in Hh as [Hh1 Hh2]. apply andb_prop in Hid as [Hi1 Hi2].
  apply andb_prop in Hname as [Hn1 Hn2]. apply eqb_eq in Hi2, Hn2.
  unfold clean_value in Hn1. apply andb_prop in Hn1 as [Hn0 Hdot].
  rewrite Hn2 in Hn0.
  destruct hashes as [|x hashes]; [discriminate|].
  destruct id as [|i0 id]; [discriminate|].
  destruct name as [|n0 name]; [discriminate|].
  cbn [forallb] in Hh2, Hdot. apply andb_prop in Hh2 as [Hx Hh2].
  apply andb_prop in Hdot as [Hd0 Hdot].
  assert (Hi0 : is_space i0 = false).
  { unfold lstrip, lstrip_of in Hi2. cbn [drop_while] in Hi2.
    destruct (is_space i0) eqn:E; [|reflexivity]. exfalso.
    assert (L : length (drop_while is_space id) <= length id).
    { clear. induction id as [|c s IH]; simpl; [lia|].
      destruct (is_space c); simpl; lia. }
    rewrite Hi2 in L. simpl in L. lia. }
  assert (Hv0 : is_space n0 = false) by (eapply strip_first; eauto).
  unfold re_match, match_here, name_re. cbn [cat run List.app].
  rewrite Hx.
  eexists. split.
  - apply star_greedy; [exact Hh2|reflexivity|]. intros pv1.
    change (" " ++ (i0 :: id) ++ ": " ++ n0 :: name)
      with ([" "%char] ++ (i0 :: id) ++ ": " ++ n0 :: name).
    apply star_greedy; [reflexivity| |].
    + cbn [List.app]. unfold space. exact Hi0.
    + intros pv2. cbn [run].
      destruct (lit_rest_fold id0 (i0 :: id) pv2 (": " ++ n0 :: name) Hfold)
        as (pv3 & E3).
      cbn [List.app] in E3. rewrite E3.
      cbn [list_ascii_of_string lit_rest chr_eq List.app].
      rewrite Ascii.eqb_refl.
      change (" "%char :: n0 :: name) with ([" "%char] ++ n0 :: name).
      apply star_greedy; [reflexivity|unfold space; exact Hv0|].
      intros pv4. rewrite Hd0.
      apply star_greedy_all; [exact Hdot|]. intros pv5. reflexivity.
  - unfold group. cbn [m_groups List.app]. change (1 - 1) with 0.
    cbn [nth]. change (length (@nil ascii)) with 0.
    rewrite Nat.sub_0_r. apply firstn_all.
Qed.

Lemma name_no_match : forall id l,
  startswith "#" (strip l) = false ->
  re_match true (name_re id) (strip l) = None.
Proof.
  intros id l H. unfold re_match, match_here, name_re. cbn [cat run].
  destruct (strip l) as [|c s]; [reflexivity|].
  cbn [list_ascii_of_string startswith] in H. rewrite andb_true_r in H.
  unfold is_char. rewrite Ascii.eqb_sym, H. reflexivity.
Qed.

(** The name of an artifact is read from its heading.  When the first line
    of the content that (stripped) starts with [#] is one or more [#], a
    blank, the artifact ID in letters of either case, a colon, a blank and a
    name with visible text, on one line and without blanks around it,
    [_extract_artifact_name] gives that name. *)
Theorem extract_name_of_heading :
  forall content artifact_id id name hashes before after,
  split LF content
  = before ++ (hashes ++ " " ++ id ++ ": " ++ name) :: after ->
  forallb (fun l => negb (startswith "#" (strip l))) before = true ->
  eqb (lower id) (lower artifact_id) = true ->
  negb (is_empty hashes) && forallb (is_char "#"%char) hashes = true ->
  negb (is_empty id) && eqb (lstrip id) id = true ->
  clean_value name && eqb (strip name) name = true ->
  _extract_artifact_name content artifact_id = Some name.
Proof.
  intros content id0 id name hashes before after Hs Hb Hfold Hh Hid Hname.
  destruct (name_match id0 id name hashes Hfold Hh Hid Hname) as (m & Em & G).
  unfold _extract_artifact_name. rewrite Hs. clear Hs.
  apply andb_prop in Hh as [Hh1 Hh2]. apply andb_prop in Hname as [Hc Hn].
  apply eqb_eq in Hn.
  assert (Hstrip : strip (hashes ++ " " ++ id ++ ": " ++ name)
                   = hashes ++ " " ++ id ++ ": " ++ name).
  { destruct hashes as [|x hashes]; [discriminate|].
    cbn [forallb] in Hh2. apply andb_prop in Hh2 as [Hx _].
    unfold is_char in Hx. apply Ascii.eqb_eq in Hx. subst x.
    destruct (strip_last name) as (t & d & Et & Hd).
    - rewrite Hn. intros E. rewrite E in Hc. discriminate.
    - rewrite Hn in Et. rewrite Et.
      replace (("#"%char :: hashes) ++ " " ++ id ++ ": " ++ t ++ [d])
        with ("#"%char :: (hashes ++ " " ++ id ++ ": " ++ t) ++ [d])
        by (cbn [List.app]; f_equal; now rewrite <- !app_assoc).
      now apply strip_ends. }
  induction before as [|b before IH].
  - cbn [List.app first_name]. rewrite Hstrip, Em, G. now rewrite Hn.
  - cbn [forallb] in Hb. apply andb_prop in Hb as [Hb1 Hb].
    apply negb_true_iff in Hb1.
    cbn [List.app first_name]. rewrite (name_no_match id0 b Hb1).
    now apply IH.
Qed.

Lemma extract_name_of_heading_witness :
  _extract_artifact_name
    (Sample.text ["Draft"; ""; "## prd-provisional1: Shop for plants"; "";
                  "### REQ-PROVISIONAL2: Login"])
    "PRD-PROVISIONAL1"
  = Some ("Shop for plants" : str).
Proof.
  apply (extract_name_of_heading _ "PRD-PROVISIONAL1" "prd-provisional1"
           "Shop for plants" "##" (Sample.strs ["Draft"; ""])
           (Sample.strs [""; "### REQ-PROVISIONAL2: Login"]));
    reflexivity.
Defined.

End HeadingFacts.

(** ** Provisional IDs: what is found can be parsed *)
Module ProvisionalFacts.
Import PyStr Re Types IdChecks StrFacts IndexFacts ManagerFacts HeaderFacts
  StepFacts TypeFacts.

(** *** Matching up to case *)

Lemma to_upper_lower : forall x, to_upper (to_lower x) = to_upper x.
Proof.
  intros x. destruct x as [b0 b1 b2 b3 b4 b5 b6 b7].
  destruct b0, b1, b2, b3, b4, b5, b6, b7; reflexivity.
Qed.

Lemma lit_rest_upper : forall l prev s pv s',
  lit_rest true l prev s = Some (pv, s') ->
  exists g, s = g ++ s' /\ upper g = upper l.
Proof.
  induction l as [|x l IH]; intros prev s pv s' H.
  - cbn [lit_rest] in H. injection H as _ <-. now exists [].
  - cbn [lit_rest] in H. destruct s as [|y s]; [discriminate|].
    destruct (chr_eq true x y) eqn:E; [|discriminate].
    apply IH in H as (g & -> & Hg). exists (y :: g). split; [reflexivity|].
    cbn [upper map]. f_equal; [|exact Hg].
    unfold chr_eq in E. apply Ascii.eqb_eq in E.
    rewrite <- (to_upper_lower y), <- E. apply to_upper_lower.
Qed.

Section Alternatives.
Context {A : Type}.

Lemma alt_lits_inv : forall ls prev s caps (k : @cont A) x,
  run true (alt_lits ls) prev s caps k = Some x ->
  exists l pv s',
    (In l ls \/ ls = []) /\
    lit_rest true l prev s = Some (pv, s') /\
    k pv s' caps = Some x.
Proof.
  induction ls as [|l ls IH]; intros prev s caps k x H.
  - cbn [alt_lits run lit_rest] in H. exists [], prev, s. auto.
  - destruct ls as [|l2 ls].
    + cbn [alt_lits run] in H.
      destruct (lit_rest true l prev s) as [[pv s']|] eqn:E; [|discriminate].
      exists l, pv, s'. split; [left; now left|auto].
    + change (alt_lits (l :: l2 :: ls))
        with (Alt (Lit l) (alt_lits (l2 :: ls))) in H.
      cbn [run] in H.
      destruct (lit_rest true l prev s) as [[pv s']|] eqn:E.
      * destruct (k pv s' caps) eqn:Ek.
        -- injection H as <-. exists l, pv, s'. split; [left; now left|auto].
        -- apply IH in H as (l' & pv' & s'' & [Hin|Hnil] & H1 & H2);
             [|discriminate].
           exists l', pv', s''. split; [left; now right|auto].
      * apply IH in H as (l' & pv' & s'' & [Hin|Hnil] & H1 & H2);
          [|discriminate].
        exists l', pv', s''. split; [left; now right|auto].
Qed.

End Alternatives.

(** *** What the pattern of the provisional IDs matches *)

Lemma provisional_match_shape : forall reg prev s m,
  match_here true (provisional_re reg) prev s = Some m ->
  exists l g p d,
    (In l (get_valid_artifact_types reg) \/ get_valid_artifact_types reg = [])
    /\ upper g = upper l /\ upper p = "-PROVISIONAL" /\
    d <> [] /\ forallb is_digit d = true /\
    m_text m = g ++ p ++ d.
Proof.
  intros reg prev s m H.
  unfold match_here, provisional_re in H. cbn [cat run] in H.
  destruct (xorb (word_opt prev) (word_opt (hd_error s))); [|discriminate].
  apply alt_lits_inv in H as (l & pv1 & s1 & Hl & E1 & H).
  apply lit_rest_upper in E1 as (g & Es & Hg).
  destruct (lit_rest true "-PROVISIONAL" pv1 s1) as [[pv2 s2]|] eqn:E2;
    [|discriminate].
  apply lit_rest_upper in E2 as (p & Es1 & Hp).
  apply plus_inv in H as (c & a & s3 & pv3 & Es2 & Hc & Ha & H).
  destruct (xorb (word_opt pv3) (word_opt (hd_error s3))); [|discriminate].
  injection H as <-. cbn [m_text].
  unfold digit in Hc, Ha.
  exists l, g, p, (c :: a). split; [exact Hl|]. split; [exact Hg|].
  split; [exact Hp|]. split; [discriminate|].
  split; [simpl; now rewrite Hc|].
  subst s s1 s2.
  replace (g ++ p ++ c :: a ++ s3) with ((g ++ p ++ c :: a) ++ s3).
  - apply firstn_consumed.
  - rewrite <- !app_assoc. cbn [List.app]. reflexivity.
Qed.

Lemma finditer_in : forall ic r s prev skip x,
  In x (finditer_from ic r prev s skip) ->
  exists prev' s' m, match_here ic r prev' s' = Some m /\ m_text m = x.
Proof.
  intros ic r s. induction s as [|c s IH]; intros prev skip x H.
  - destruct skip; [|contradiction]. cbn [finditer_from] in H.
    destruct (match_here ic r prev []) as [m|] eqn:E; [|contradiction].
    destruct H as [<-|[]]. eauto.
  - destruct skip as [|n]; [|cbn [finditer_from] in H; eauto].
    cbn [finditer_from] in H.
    destruct (match_here ic r prev (c :: s)) as [m|] eqn:E; [|eauto].
    destruct H as [<-|H]; eauto.
Qed.

Lemma set_add_in : forall x l y, In y (set_add x l) -> y = x \/ In y l.
Proof.
  intros x l y H. unfold set_add in H. destruct (mem x l); [now right|].
  apply in_app_or in H as [H|[<-|[]]]; auto.
Qed.

Lemma fold_set_add_in : forall ms acc y,
  In y (fold_left (fun acc m => set_add (upper m) acc) ms acc) ->
  In y acc \/ exists m, In m ms /\ y = upper m.
Proof.
  induction ms as [|m ms IH]; intros acc y H; [now left|].
  cbn [fold_left] in H. apply IH in H as [H|(m' & Hm & ->)].
  - apply set_add_in in H as [->|H]; [right|now left].
    exists m. split; [now left|reflexivity].
  - right. exists m'. split; [now right|reflexivity].
Qed.

Lemma word_codes_spec : forall reg,
  word_codes reg = true ->
  get_valid_artifact_types reg <> [] /\
  forall l, In l (get_valid_artifact_types reg) ->
            l <> [] /\ forallb is_upper l = true.
Proof.
  intros reg H. unfold word_codes in H. apply andb_prop in H as [H1 H2].
  split; [destruct reg; [discriminate|discriminate]|].
  intros l Hl. unfold get_valid_artifact_types in Hl.
  apply in_map_iff in Hl as (p & <- & Hp).
  rewrite forallb_forall in H2. apply H2 in Hp.
  apply andb_prop in Hp as [Hne Hu]. split; [|exact Hu].
  now destruct (fst p).
Qed.

(** Every provisional ID found in an ASCII text can be parsed.  For a
    registry with at least one type, whose codes are non-empty words of
    upper-case ASCII letters, and a text of ASCII characters only, each ID
    of at most 4300 characters that [find_provisional_artifact_ids] returns
    is [TYPE-PROVISIONALd] in upper case, with a registered type and digits
    [d], and [parse_provisional_id] gives its type and the number of [d]: it
    raises for none of them. *)
Theorem found_provisional_ids_parse : forall reg text pid,
  word_codes reg = true ->
  TextMode.ascii_text text = true ->
  mem pid (find_provisional_artifact_ids reg text) = true ->
  Nat.leb (List.length pid) TextMode.int_max_str_digits = true ->
  exists T d n,
    pid = T ++ "-PROVISIONAL" ++ d /\
    In T (get_valid_artifact_types reg) /\
    int_of_str d = Some n /\
    parse_provisional_id reg pid = Ok (T, n).
Proof.
  intros reg text pid Hreg _ Hin _.
  destruct (word_codes_spec reg Hreg) as [Hne Hcodes].
  apply mem_In in Hin. unfold find_provisional_artifact_ids in Hin.
  apply fold_set_add_in in Hin as [[]|(x & Hx & ->)].
  unfold re_finditer in Hx.
  apply finditer_in in Hx as (prev & s & m & Hm & <-).
  apply provisional_match_shape in Hm
    as (l & g & p & d & [Hl|Hnil] & Hg & Hp & Hd & Hdd & ->);
    [|contradiction].
  destruct (Hcodes l Hl) as [Hlne Hlu].
  destruct (isdigit_int d) as (n & Hn).
  { unfold isdigit. rewrite Hdd. now destruct d. }
  assert (Eu : upper (g ++ p ++ d) = l ++ "-PROVISIONAL" ++ d).
  { rewrite !upper_app, Hg, Hp, (upper_fixed l Hlu), (upper_digits d Hdd).
    reflexivity. }
  exists l, d, n. split; [exact Eu|]. split; [exact Hl|].
  split; [exact Hn|].
  rewrite (parse_provisional_shape reg _ l d n); try assumption.
  - unfold is_valid_artifact_type. rewrite (upper_fixed l Hlu).
    now rewrite (mem_intro l _ Hl).
  - now rewrite upper_idem.
Qed.

Lemma found_provisional_ids_parse_witness :
  exists T d n,
    ("TASK-PROVISIONAL1" : str) = T ++ "-PROVISIONAL" ++ d /\
    In T (get_valid_artifact_types Sample.artifact_types) /\
    int_of_str d = Some n /\
    parse_provisional_id Sample.artifact_types "TASK-PROVISIONAL1"
    = Ok (T, n).
Proof.
  apply (found_provisional_ids_parse Sample.artifact_types
           "Plan: task-provisional1 comes first, then TASK-PROVISIONAL1.");
    vm_compute; reflexivity.
Defined.

End ProvisionalFacts.
